(** * analize_stamp: the stamp-analysis pipeline and its narration tool

  A shallow embedding of [analyze_stamp.py] and [json_to_voice.py].

  Conventions used throughout:
  - a Python [str] is the list of its Unicode code points ([pystr]);
  - a Python [bytes] object is a list of octets ([bytes]);
  - a raised exception is a value of type [exn]; a computation that may
    raise and that mutates the outside world lives in the monad [M];
  - the library pieces the two scripts lean on ([json], [pathlib], the
    file API, the UTF-8 codec, [base64]) are modelled next to the code
    that calls them, at the level of their documented behaviour. *)

From Stdlib Require Import ZArith List String Ascii Bool Lia.
From Stdlib Require Import DecimalN DecimalPos DecimalFacts.
From stdpp Require Import base option list gmap.

Import ListNotations.
Local Open Scope Z_scope.
Local Open Scope list_scope.

(** ** Python strings and bytes *)

Module Str.

Abbreviation pystr := (list Z) (only parsing).
Abbreviation bytes := (list Z) (only parsing).

Definition between (lo hi x : Z) : bool := (lo <=? x) && (x <=? hi).

(** *** The UTF-8 codec, strict error handler *)

Definition is_surrogate (c : Z) : bool := between 55296 57343 c.

Definition utf8_encode_char (c : Z) : option bytes :=
  if c <? 0 then None
  else if c <? 128 then Some [c]
  else if c <? 2048 then Some [192 + c / 64; 128 + c mod 64]
  else if c <? 65536 then
    if is_surrogate c then None
    else Some [224 + c / 4096; 128 + (c / 64) mod 64; 128 + c mod 64]
  else if c <? 1114112 then
    Some [240 + c / 262144; 128 + (c / 4096) mod 64;
          128 + (c / 64) mod 64; 128 + c mod 64]
  else None.

Fixpoint utf8_encode (s : pystr) : option bytes :=
  match s with
  | [] => Some []
  | c :: s' =>
      match utf8_encode_char c, utf8_encode s' with
      | Some b, Some bs => Some (b ++ bs)
      | _, _ => None
      end
  end.

Definition is_cont (b : Z) : bool := between 128 191 b.

Fixpoint utf8_decode (bs : bytes) : option pystr :=
  match bs with
  | [] => Some []
  | b0 :: r0 =>
      if between 0 127 b0 then cons b0 <$> utf8_decode r0
      else if between 194 223 b0 then
        match r0 with
        | b1 :: r1 =>
            if is_cont b1
            then cons ((b0 - 192) * 64 + (b1 - 128)) <$> utf8_decode r1
            else None
        | _ => None
        end
      else if between 224 239 b0 then
        match r0 with
        | b1 :: b2 :: r2 =>
            if between (if b0 =? 224 then 160 else 128)
                       (if b0 =? 237 then 159 else 191) b1
               && is_cont b2
            then cons ((b0 - 224) * 4096 + (b1 - 128) * 64 + (b2 - 128))
                   <$> utf8_decode r2
            else None
        | _ => None
        end
      else if between 240 244 b0 then
        match r0 with
        | b1 :: b2 :: b3 :: r3 =>
            if between (if b0 =? 240 then 144 else 128)
                       (if b0 =? 244 then 143 else 191) b1
               && is_cont b2 && is_cont b3
            then cons ((b0 - 240) * 262144 + (b1 - 128) * 4096
                       + (b2 - 128) * 64 + (b3 - 128))
                   <$> utf8_decode r3
            else None
        | _ => None
        end
      else None
  end.

(** *** Literals

    The source files are UTF-8; a literal of the Python source is written
    here as the same UTF-8 text and decoded to code points. *)

Definition octets (s : string) : bytes :=
  map (fun a => Z.of_N (N_of_ascii a)) (list_ascii_of_string s).

Definition py (s : string) : pystr := default [] (utf8_decode (octets s)).

Definition str_eqb (a b : pystr) : bool := bool_decide (a = b).

(** [str.join] *)
Definition join (sep : pystr) (l : list pystr) : pystr :=
  match l with
  | [] => []
  | x :: xs => x ++ concat (map (fun y => sep ++ y) xs)
  end.

(** [str.split(sep)] for a one-character separator. *)
Fixpoint split_on (sep : Z) (s : pystr) : list pystr :=
  match s with
  | [] => [[]]
  | c :: s' =>
      if c =? sep then [] :: split_on sep s'
      else match split_on sep s' with
           | [] => [[c]]
           | w :: ws => (c :: w) :: ws
           end
  end.

(** [needle in haystack] *)
Fixpoint is_prefix (p s : pystr) : bool :=
  match p, s with
  | [], _ => true
  | a :: p', b :: s' => (a =? b) && is_prefix p' s'
  | _ :: _, [] => false
  end.

Fixpoint contains (needle s : pystr) : bool :=
  is_prefix needle s ||
  match s with
  | [] => false
  | _ :: s' => contains needle s'
  end.

(** [str.strip()]: the characters for which [str.isspace] holds. *)
Definition isspace (c : Z) : bool :=
  between 9 13 c || between 28 32 c || (c =? 133) || (c =? 160)
  || (c =? 5760) || between 8192 8202 c || (c =? 8232) || (c =? 8233)
  || (c =? 8239) || (c =? 8287) || (c =? 12288).

Fixpoint lstrip (s : pystr) : pystr :=
  match s with
  | c :: s' => if isspace c then lstrip s' else s
  | [] => []
  end.

Definition strip (s : pystr) : pystr := rev (lstrip (rev (lstrip s))).

End Str.
Export Str.

Arguments py s%_string.

(** ** Exceptions

  The classes that can travel through the two scripts, with the part of
  Python's class hierarchy that their [except] clauses consult. *)

Module Exn.

Inductive exn_class :=
| Exception
| OSError | FileNotFoundError | FileExistsError
| IsADirectoryError | NotADirectoryError
| ValueError | JSONDecodeError
| UnicodeError | UnicodeEncodeError | UnicodeDecodeError
| RuntimeError | RecursionError
| OpenAIError.

Definition base (c : exn_class) : option exn_class :=
  match c with
  | Exception => None
  | OSError | ValueError | RuntimeError | OpenAIError => Some Exception
  | FileNotFoundError | FileExistsError
  | IsADirectoryError | NotADirectoryError => Some OSError
  | JSONDecodeError | UnicodeError => Some ValueError
  | UnicodeEncodeError | UnicodeDecodeError => Some UnicodeError
  | RecursionError => Some RuntimeError
  end.

#[global] Instance exn_class_eq_dec : EqDecision exn_class.
Proof. solve_decision. Defined.

(** [issubclass c d]; the hierarchy above is four levels deep. *)
Fixpoint issubclass_upto (n : nat) (c d : exn_class) : bool :=
  bool_decide (c = d) ||
  match n, base c with
  | S n', Some b => issubclass_upto n' b d
  | _, _ => false
  end.

Definition issubclass : exn_class -> exn_class -> bool := issubclass_upto 4.

(** An exception instance: its class and [str(e)]. *)
Record exn := mk_exn { cls : exn_class; str_of : pystr }.

Definition isinstance (e : exn) (c : exn_class) : bool := issubclass (cls e) c.

Inductive result (A : Type) :=
| Ok (a : A)
| Raise (e : exn).
Arguments Ok {A} a.
Arguments Raise {A} e.

End Exn.
Export Exn.

(** ** The interpreter services the scripts take for granted

  Two facilities of CPython are kept abstract: the conversion between
  binary floating-point numbers and their decimal literals
  ([float.__repr__], [float(...)]), and the lower-casing of code points
  outside ASCII ([str.lower]). *)

Inductive pyfloat (F : Type) :=
| NaN | Infinity | NegInfinity | Finite (x : F).
Arguments NaN {F}.
Arguments Infinity {F}.
Arguments NegInfinity {F}.
Arguments Finite {F} x.

Class Runtime := {
finite : Type;
float_repr : finite -> pystr;
float_of_literal : pystr -> pyfloat finite;
lower_nonascii : pystr -> nat -> pystr
}.

Definition chr (a : ascii) : Z := Z.of_N (N_of_ascii a).
Arguments chr a%_char.

(** ** The [json] module: [dumps]/[dump] with [ensure_ascii=False, indent=2],
  and [loads]/[load] *)

Module Json.
Section WithRuntime.
Context {RT : Runtime}.

(** The Python values [json.loads] can produce. A [dict] keeps its
    insertion order, so it is an association list. *)
#[warnings="-register-all"]
Inductive value :=
| PyNone
| PyBool (b : bool)
| PyInt (z : Z)
| PyFloat (x : pyfloat finite)
| PyStr (s : pystr)
| PyList (l : list value)
| PyDict (d : list (pystr * value)).

(** *** Encoding *)

Fixpoint uint_digits (u : Decimal.uint) : pystr :=
  match u with
  | Decimal.Nil => []
  | Decimal.D0 u => 48 :: uint_digits u
  | Decimal.D1 u => 49 :: uint_digits u
  | Decimal.D2 u => 50 :: uint_digits u
  | Decimal.D3 u => 51 :: uint_digits u
  | Decimal.D4 u => 52 :: uint_digits u
  | Decimal.D5 u => 53 :: uint_digits u
  | Decimal.D6 u => 54 :: uint_digits u
  | Decimal.D7 u => 55 :: uint_digits u
  | Decimal.D8 u => 56 :: uint_digits u
  | Decimal.D9 u => 57 :: uint_digits u
  end.

(** [int.__repr__] *)
Definition int_repr (z : Z) : pystr :=
  (if z <? 0 then [chr "-"] else []) ++ uint_digits (N.to_uint (Z.abs_N z)).

(** [floatstr] of [json.encoder], with [allow_nan=True] *)
Definition floatstr (x : pyfloat finite) : pystr :=
  match x with
  | NaN => py "NaN"
  | Infinity => py "Infinity"
  | NegInfinity => py "-Infinity"
  | Finite f => float_repr f
  end.

Definition hex_digit (n : Z) : Z := if n <? 10 then 48 + n else 87 + n.

(** [ESCAPE_DCT] of [json.encoder]: only the quote, the backslash and the
    control characters below U+0020 are replaced. *)
Definition escape_char (c : Z) : pystr :=
  if c =? chr "\" then [chr "\"; chr "\"]
  else if c =? 34 then [chr "\"; 34]
  else if c =? 8 then [chr "\"; chr "b"]
  else if c =? 12 then [chr "\"; chr "f"]
  else if c =? 10 then [chr "\"; chr "n"]
  else if c =? 13 then [chr "\"; chr "r"]
  else if c =? 9 then [chr "\"; chr "t"]
  else if between 0 31 c then
    [chr "\"; chr "u"; chr "0"; chr "0"; hex_digit (c / 16); hex_digit (c mod 16)]
  else [c].

(** [py_encode_basestring] *)
Definition encode_basestring (s : pystr) : pystr :=
  34 :: concat (map escape_char s) ++ [34].

Definition indent_unit : pystr := [32; 32].

Definition newline_indent (level : nat) : pystr :=
  10 :: concat (replicate level indent_unit).

Definition item_separator : pystr := [chr ","].
Definition key_separator : pystr := [chr ":"; 32].

(** The values [_iterencode] emits as one chunk. *)
Definition atom (o : value) : option pystr :=
  match o with
  | PyStr s => Some (encode_basestring s)
  | PyNone => Some (py "null")
  | PyBool true => Some (py "true")
  | PyBool false => Some (py "false")
  | PyInt z => Some (int_repr z)
  | PyFloat x => Some (floatstr x)
  | PyList _ | PyDict _ => None
  end.

(** [_iterencode(o, level)]: the chunks, in the order they are yielded. *)
Fixpoint iterencode (o : value) (level : nat) {struct o} : list pystr :=
  match o with
  | PyStr s => [encode_basestring s]
  | PyNone => [py "null"]
  | PyBool true => [py "true"]
  | PyBool false => [py "false"]
  | PyInt z => [int_repr z]
  | PyFloat x => [floatstr x]
  | PyList [] => [py "[]"]
  | PyList lst =>
      let nl := newline_indent (S level) in
      (fix items (l : list value) (buf : pystr) {struct l} : list pystr :=
         match l with
         | [] => []
         | v :: l' =>
             match atom v with
             | Some t => [buf ++ t]
             | None => buf :: iterencode v (S level)
             end ++ items l' (item_separator ++ nl)
         end) lst (chr "[" :: nl)
      ++ [newline_indent level; [chr "]"]]
  | PyDict [] => [py "{}"]
  | PyDict dct =>
      let nl := newline_indent (S level) in
      [chr "{"] :: nl ::
      (fix items (l : list (pystr * value)) (first : bool) {struct l}
         : list pystr :=
         match l with
         | [] => []
         | (k, v) :: l' =>
             (if first then [] else [item_separator ++ nl])
             ++ encode_basestring k :: key_separator :: iterencode v (S level)
             ++ items l' false
         end) dct true
      ++ [newline_indent level; [chr "}"]]
  end.

(** [json.dumps(o, ensure_ascii=False, indent=2)] *)
Definition dumps (o : value) : pystr := concat (iterencode o 0).

(** *** Decoding *)

Inductive scan (A : Type) :=
| Scanned (a : A) (rest : pystr) (idx : Z)
| StopIteration (idx : Z)
| DecodeError (msg : pystr) (idx : Z)
| Exhausted.
Arguments Scanned {A} a rest idx.
Arguments StopIteration {A} idx.
Arguments DecodeError {A} msg idx.
Arguments Exhausted {A}.

Definition is_whitespace (c : Z) : bool :=
  (c =? 32) || (c =? 9) || (c =? 10) || (c =? 13).

Fixpoint skip_ws (s : pystr) (idx : Z) : pystr * Z :=
  match s with
  | c :: s' => if is_whitespace c then skip_ws s' (idx + 1) else (s, idx)
  | [] => (s, idx)
  end.

Definition is_digit (c : Z) : bool := between 48 57 c.

Fixpoint span_digits (s : pystr) : pystr * pystr :=
  match s with
  | c :: s' =>
      if is_digit c then let '(d, r) := span_digits s' in (c :: d, r)
      else ([], s)
  | [] => ([], [])
  end.

Fixpoint digits_uint (ds : pystr) : Decimal.uint :=
  match ds with
  | [] => Decimal.Nil
  | d :: ds' =>
      let u := digits_uint ds' in
      match d - 48 with
      | 0 => Decimal.D0 u | 1 => Decimal.D1 u | 2 => Decimal.D2 u
      | 3 => Decimal.D3 u | 4 => Decimal.D4 u | 5 => Decimal.D5 u
      | 6 => Decimal.D6 u | 7 => Decimal.D7 u | 8 => Decimal.D8 u
      | _ => Decimal.D9 u
      end
  end.

(** [int(literal)] on a literal matched by the number scanner *)
Definition int_of_literal (lit : pystr) : Z :=
  match lit with
  | 45 :: ds => - Z.of_N (N.of_uint (digits_uint ds))
  | ds => Z.of_N (N.of_uint (digits_uint ds))
  end.

(** The number scanner: an optional minus sign; a zero, or a non-zero
    digit followed by digits; optionally a dot and digits; optionally an
    exponent mark, a sign and digits. Returns the integer part (with its
    sign), the fraction, the exponent and the rest of the text. *)
Definition match_number (s : pystr) : option (pystr * pystr * pystr * pystr) :=
  let '(sign, s1) :=
    match s with
    | 45 :: s' => ([45], s')
    | _ => ([], s)
    end in
  let int_part :=
    match s1 with
    | c :: s2 =>
        if between 49 57 c then
          let '(d, r) := span_digits s2 in Some (c :: d, r)
        else if c =? 48 then Some ([c], s2)
        else None
    | [] => None
    end in
  match int_part with
  | None => None
  | Some (ip, s2) =>
      let '(frac, s3) :=
        match s2 with
        | 46 :: c :: s' =>
            if is_digit c then
              let '(d, r) := span_digits s' in (46 :: c :: d, r)
            else ([], s2)
        | _ => ([], s2)
        end in
      let '(ex, s4) :=
        match s3 with
        | e :: s' =>
            if (e =? chr "e") || (e =? chr "E") then
              let '(sg, s'') :=
                match s' with
                | c :: d :: r =>
                    if ((c =? chr "-") || (c =? chr "+")) && is_digit d
                    then ([c], d :: r) else ([], s')
                | _ => ([], s')
                end in
              match span_digits s'' with
              | ([], _) => ([], s3)
              | (d, r) => (e :: sg ++ d, r)
              end
            else ([], s3)
        | [] => ([], s3)
        end in
      Some (sign ++ ip, frac, ex, s4)
  end.

Definition len (s : pystr) : Z := Z.of_nat (length s).

Definition hex_value (c : Z) : option Z :=
  if between 48 57 c then Some (c - 48)
  else if between 97 102 c then Some (c - 87)
  else if between 65 70 c then Some (c - 55)
  else None.

(** Four hexadecimal digits at the head of [s]. *)
Definition hex4 (s : pystr) : option (Z * pystr) :=
  match s with
  | a :: b :: c :: d :: r =>
      match hex_value a, hex_value b, hex_value c, hex_value d with
      | Some x, Some y, Some z, Some w =>
          Some (((x * 16 + y) * 16 + z) * 16 + w, r)
      | _, _, _, _ => None
      end
  | _ => None
  end.

Definition backslash (c : Z) : option Z :=
  if c =? 34 then Some 34
  else if c =? chr "\" then Some (chr "\")
  else if c =? chr "/" then Some (chr "/")
  else if c =? chr "b" then Some 8
  else if c =? chr "f" then Some 12
  else if c =? chr "n" then Some 10
  else if c =? chr "r" then Some 13
  else if c =? chr "t" then Some 9
  else None.

(** [scanstring(s, end, strict=True)]: [s] is what follows the opening
    quote, at index [idx]; [begin] is the index of that quote. *)
Fixpoint scanstring (fuel : nat) (begin : Z) (s : pystr) (idx : Z)
  : scan pystr :=
  let unterminated :=
    DecodeError (py "Unterminated string starting at") begin in
  let push (c : Z) (r : scan pystr) : scan pystr :=
    match r with
    | Scanned t rest i => Scanned (c :: t) rest i
    | other => other
    end in
  match fuel with
  | O => Exhausted
  | S fuel' =>
      match s with
      | [] => unterminated
      | c :: s' =>
          if c =? 34 then Scanned [] s' (idx + 1)
          else if c =? chr "\" then
            match s' with
            | [] => unterminated
            | e :: s'' =>
                if e =? chr "u" then
                  match hex4 s'' with
                  | None => DecodeError (py "Invalid \uXXXX escape") (idx + 1)
                  | Some (uni, r) =>
                      if between 55296 56319 uni && (6 <=? len r) then
                        match r with
                        | 92 :: 117 :: r' =>
                            match hex4 r' with
                            | None =>
                                DecodeError (py "Invalid \uXXXX escape") (idx + 7)
                            | Some (uni2, r'') =>
                                if between 56320 57343 uni2 then
                                  push (65536 + (uni - 55296) * 1024
                                        + (uni2 - 56320))
                                    (scanstring fuel' begin r'' (idx + 12))
                                else push uni (scanstring fuel' begin r (idx + 6))
                            end
                        | _ => push uni (scanstring fuel' begin r (idx + 6))
                        end
                      else push uni (scanstring fuel' begin r (idx + 6))
                  end
                else
                  match backslash e with
                  | Some c' => push c' (scanstring fuel' begin s'' (idx + 2))
                  | None => DecodeError (py "Invalid \escape") idx
                  end
            end
          else if c <=? 31 then
            DecodeError (py "Invalid control character at") idx
          else push c (scanstring fuel' begin s' (idx + 1))
      end
  end.

(** [PyDict_SetItem]: a repeated key keeps its place and takes the new
    value. *)
Fixpoint dict_set (d : list (pystr * value)) (k : pystr) (v : value)
  : list (pystr * value) :=
  match d with
  | [] => [(k, v)]
  | (k', v') :: d' =>
      if str_eqb k' k then (k', v) :: d' else (k', v') :: dict_set d' k v
  end.

(** [scan_once], with the object and array loops of the scanner. The fuel
    bounds the number of nested calls and loop rounds; two of them in a
    row consume input, so twice the length of the text is enough (see
    [loads]). *)
Fixpoint scan_once (fuel : nat) (s : pystr) (idx : Z) {struct fuel}
  : scan value :=
  match fuel with
  | O => Exhausted
  | S fuel' =>
      match s with
      | [] => StopIteration idx
      | c :: s' =>
          if c =? 34 then
            match scanstring (length s) idx s' (idx + 1) with
            | Scanned t rest i => Scanned (PyStr t) rest i
            | StopIteration i => StopIteration i
            | DecodeError m i => DecodeError m i
            | Exhausted => Exhausted
            end
          else if c =? chr "{" then
            let '(s1, i1) := skip_ws s' (idx + 1) in
            match s1 with
            | 125 :: rest => Scanned (PyDict []) rest (i1 + 1)
            | _ => parse_object fuel' [] s1 i1
            end
          else if c =? chr "[" then
            let '(s1, i1) := skip_ws s' (idx + 1) in
            match s1 with
            | 93 :: rest => Scanned (PyList []) rest (i1 + 1)
            | _ => parse_array fuel' [] s1 i1
            end
          else if is_prefix (py "null") s then
            Scanned PyNone (drop 4 s) (idx + 4)
          else if is_prefix (py "true") s then
            Scanned (PyBool true) (drop 4 s) (idx + 4)
          else if is_prefix (py "false") s then
            Scanned (PyBool false) (drop 5 s) (idx + 5)
          else if is_prefix (py "NaN") s then
            Scanned (PyFloat NaN) (drop 3 s) (idx + 3)
          else if is_prefix (py "Infinity") s then
            Scanned (PyFloat Infinity) (drop 8 s) (idx + 8)
          else if is_prefix (py "-Infinity") s then
            Scanned (PyFloat NegInfinity) (drop 9 s) (idx + 9)
          else
            match match_number s with
            | None => StopIteration idx
            | Some (ip, frac, ex, rest) =>
                let lit := ip ++ frac ++ ex in
                Scanned
                  (match frac, ex with
                   | [], [] => PyInt (int_of_literal ip)
                   | _, _ => PyFloat (float_of_literal lit)
                   end)
                  rest (idx + len lit)
            end
      end
  end

(** One round of the loop of [_parse_object]: [s] is at a key. *)
with parse_object (fuel : nat) (acc : list (pystr * value))
       (s : pystr) (idx : Z) {struct fuel} : scan value :=
  match fuel with
  | O => Exhausted
  | S fuel' =>
      match s with
      | 34 :: s' =>
          match scanstring (length s) idx s' (idx + 1) with
          | Scanned key s1 i1 =>
              let '(s2, i2) := skip_ws s1 i1 in
              match s2 with
              | 58 :: s3 =>
                  let '(s4, i4) := skip_ws s3 (i2 + 1) in
                  match scan_once fuel' s4 i4 with
                  | Scanned v s5 i5 =>
                      let acc' := dict_set acc key v in
                      let '(s6, i6) := skip_ws s5 i5 in
                      match s6 with
                      | 125 :: rest => Scanned (PyDict acc') rest (i6 + 1)
                      | 44 :: s7 =>
                          let '(s8, i8) := skip_ws s7 (i6 + 1) in
                          parse_object fuel' acc' s8 i8
                      | _ => DecodeError (py "Expecting ',' delimiter") i6
                      end
                  | other => other
                  end
              | _ => DecodeError (py "Expecting ':' delimiter") i2
              end
          | StopIteration i => StopIteration i
          | DecodeError m i => DecodeError m i
          | Exhausted => Exhausted
          end
      | _ =>
          DecodeError
            (py "Expecting property name enclosed in double quotes") idx
      end
  end

(** One round of the loop of [_parse_array]: [s] is at an element. *)
with parse_array (fuel : nat) (acc : list value)
       (s : pystr) (idx : Z) {struct fuel} : scan value :=
  match fuel with
  | O => Exhausted
  | S fuel' =>
      match scan_once fuel' s idx with
      | Scanned v s1 i1 =>
          let acc' := acc ++ [v] in
          let '(s2, i2) := skip_ws s1 i1 in
          match s2 with
          | 93 :: rest => Scanned (PyList acc') rest (i2 + 1)
          | 44 :: s3 =>
              let '(s4, i4) := skip_ws s3 (i2 + 1) in
              parse_array fuel' acc' s4 i4
          | _ => DecodeError (py "Expecting ',' delimiter") i2
          end
      | other => other
      end
  end.

(** [JSONDecodeError(msg, doc, pos)]: its [str] names line and column. *)
Fixpoint line_col (doc : pystr) (pos : nat) (line col : Z) : Z * Z :=
  match pos, doc with
  | S pos', c :: doc' =>
      if c =? 10 then line_col doc' pos' (line + 1) 1
      else line_col doc' pos' line (col + 1)
  | _, _ => (line, col)
  end.

Definition decode_error (msg doc : pystr) (pos : Z) : exn :=
  let '(l, c) := line_col doc (Z.to_nat pos) 1 1 in
  mk_exn JSONDecodeError
    (msg ++ py ": line " ++ int_repr l ++ py " column " ++ int_repr c
         ++ py " (char " ++ int_repr pos ++ py ")").

(** [json.loads(s)] for a [str] *)
Definition loads (s : pystr) : result value :=
  match s with
  | 65279 :: _ =>
      Raise (decode_error (py "Unexpected UTF-8 BOM (decode using utf-8-sig)") s 0)
  | _ =>
      let '(s1, i1) := skip_ws s 0 in
      match scan_once (2 * length s + 2) s1 i1 with
      | Scanned v rest i =>
          let '(r2, i2) := skip_ws rest i in
          match r2 with
          | [] => Ok v
          | _ => Raise (decode_error (py "Extra data") s i2)
          end
      | StopIteration i => Raise (decode_error (py "Expecting value") s i)
      | DecodeError m i => Raise (decode_error m s i)
      | Exhausted =>
          Raise (mk_exn RecursionError
                   (py "maximum recursion depth exceeded"))
      end
  end.

End WithRuntime.
End Json.

(** ** [pathlib]: pure POSIX paths *)

Module Pathlib.
Section WithRuntime.
Context {RT : Runtime}.

Record Path := mk_path { root : pystr; parts : list pystr }.

Definition slash : Z := chr "/".

Definition is_component (x : pystr) : bool :=
  negb (str_eqb x []) && negb (str_eqb x [chr "."]).

(** [Path(s)]: empty and [.] components are dropped; exactly two leading
    slashes are kept apart from one or from three and more. *)
Definition Path_of (s : pystr) : Path :=
  {| root :=
       match s with
       | 47 :: 47 :: 47 :: _ => [slash]
       | 47 :: 47 :: _ => [slash; slash]
       | 47 :: _ => [slash]
       | _ => []
       end;
     parts := List.filter is_component (split_on slash s) |}.

(** [str(p)], also what [open] and [os.mkdir] receive for a [Path] *)
Definition Path_str (p : Path) : pystr :=
  match root p, parts p with
  | [], [] => [chr "."]
  | r, ps => r ++ join [slash] ps
  end.

(** [p / s] *)
Definition truediv (p : Path) (s : pystr) : Path :=
  let q := Path_of s in
  match root q with
  | [] => {| root := root p; parts := parts p ++ parts q |}
  | _ => q
  end.

(** [p.name] *)
Definition name (p : Path) : pystr := List.last (parts p) [].

(** [str.rfind] of one character: the index of its last occurrence. *)
Fixpoint rfind_from (c : Z) (s : pystr) (i : nat) (found : option nat)
  : option nat :=
  match s with
  | [] => found
  | x :: s' => rfind_from c s' (S i) (if x =? c then Some i else found)
  end.

Definition rfind (c : Z) (s : pystr) : option nat := rfind_from c s 0 None.

(** [p.suffix]: from the last dot of the name, unless that dot opens or
    closes the name. *)
Definition suffix (p : Path) : pystr :=
  let n := name p in
  match rfind (chr ".") n with
  | Some i =>
      if (0 <? i)%nat && (i <? length n - 1)%nat then drop i n else []
  | None => []
  end.

(** [str.lower]: ASCII letters are folded here, every other code point by
    the interpreter ([lower_nonascii] sees the string and the index, as
    the lower case of a letter can depend on its neighbours). *)
Definition ascii_lower (c : Z) : Z := if between 65 90 c then c + 32 else c.

Definition lower (s : pystr) : pystr :=
  concat (imap (fun i c =>
                  if between 0 127 c then [ascii_lower c]
                  else lower_nonascii s i) s).

End WithRuntime.
End Pathlib.
Export Pathlib.

(** ** The file system

  A tree of directories and regular files, kept as a finite map from
  locations (the names leading from the root) to nodes. Path strings are
  resolved the POSIX way, one component after the other; there are no
  symbolic links and no permissions. *)

Module FS.

Inductive node :=
| Dir
| File (data : bytes).

Record filesystem := mk_fs {
  nodes : gmap (list pystr) node;
  cwd : list pystr
}.

Definition node_at (fs : filesystem) (loc : list pystr) : option node :=
  match loc with
  | [] => Some Dir
  | _ => nodes fs !! loc
  end.

Inductive errno := ENOENT | ENOTDIR.

(** Walk [names] from the directory [cur]. Looking anything up in [cur],
    even [.], requires [cur] to be a directory. *)
Fixpoint walk (fs : filesystem) (cur : list pystr) (names : list pystr)
  : errno + list pystr :=
  match names with
  | [] => inr cur
  | n :: rest =>
      match node_at fs cur with
      | Some Dir =>
          if str_eqb n [] || str_eqb n [chr "."] then walk fs cur rest
          else if str_eqb n [chr "."; chr "."]
          then walk fs (removelast cur) rest
          else walk fs (cur ++ [n]) rest
      | Some (File _) => inl ENOTDIR
      | None => inl ENOENT
      end
  end.

Definition resolve (fs : filesystem) (path : pystr) : errno + list pystr :=
  match path with
  | [] => inl ENOENT
  | c :: _ => walk fs (if c =? 47 then [] else cwd fs) (split_on 47 path)
  end.

(** What the interpreter refuses before the system is asked: a NUL, or a
    code point the file-system encoding (UTF-8 with [surrogateescape])
    cannot express. *)
Definition fs_encodable (c : Z) : bool :=
  between 0 1114111 c && (negb (is_surrogate c) || between 56448 56575 c).

Definition quoted (path : pystr) : pystr := 39 :: path ++ [39].

Definition refuse (path : pystr) : option exn :=
  if existsb (Z.eqb 0) path
  then Some (mk_exn ValueError (py "embedded null byte"))
  else if forallb fs_encodable path then None
  else Some (mk_exn UnicodeEncodeError
               (py "'utf-8' codec can't encode characters: surrogates not allowed")).

Definition os_error (e : errno) (path : pystr) : exn :=
  match e with
  | ENOENT =>
      mk_exn FileNotFoundError
        (py "[Errno 2] No such file or directory: " ++ quoted path)
  | ENOTDIR =>
      mk_exn NotADirectoryError
        (py "[Errno 20] Not a directory: " ++ quoted path)
  end.

Definition is_a_directory (path : pystr) : exn :=
  mk_exn IsADirectoryError (py "[Errno 21] Is a directory: " ++ quoted path).

Definition file_exists (path : pystr) : exn :=
  mk_exn FileExistsError (py "[Errno 17] File exists: " ++ quoted path).

(** [os.path.exists]: any failure to stat the path counts as absence. *)
Definition exists_ (fs : filesystem) (path : pystr) : bool :=
  match refuse path, resolve fs path with
  | None, inr loc =>
      match node_at fs loc with Some _ => true | None => false end
  | _, _ => false
  end.

(** [os.path.isdir], [Path.is_dir] *)
Definition is_dir (fs : filesystem) (path : pystr) : bool :=
  match refuse path, resolve fs path with
  | None, inr loc =>
      match node_at fs loc with Some Dir => true | _ => false end
  | _, _ => false
  end.

(** [open(path, "rb").read()] *)
Definition read_bytes (fs : filesystem) (path : pystr) : result bytes :=
  match refuse path with
  | Some e => Raise e
  | None =>
      match resolve fs path with
      | inl e => Raise (os_error e path)
      | inr loc =>
          match node_at fs loc with
          | None => Raise (os_error ENOENT path)
          | Some Dir => Raise (is_a_directory path)
          | Some (File d) => Ok d
          end
      end
  end.

(** [open(path, "w")] or [open(path, "wb")]: the file is created or
    emptied; the location it lives at is returned. *)
Definition open_w (fs : filesystem) (path : pystr)
  : result (list pystr) * filesystem :=
  match refuse path with
  | Some e => (Raise e, fs)
  | None =>
      match resolve fs path with
      | inl e => (Raise (os_error e path), fs)
      | inr loc =>
          match node_at fs loc with
          | Some Dir => (Raise (is_a_directory path), fs)
          | _ => (Ok loc, mk_fs (<[loc := File []]> (nodes fs)) (cwd fs))
          end
      end
  end.

(** Appending to the file opened at [loc]. *)
Definition append (fs : filesystem) (loc : list pystr) (d : bytes)
  : filesystem :=
  match nodes fs !! loc with
  | Some (File old) => mk_fs (<[loc := File (old ++ d)]> (nodes fs)) (cwd fs)
  | _ => fs
  end.

(** [Path(path).mkdir(exist_ok=True)] *)
Definition mkdir_exist_ok (fs : filesystem) (path : pystr)
  : result unit * filesystem :=
  match refuse path with
  | Some e => (Raise e, fs)
  | None =>
      match resolve fs path with
      | inl e => (Raise (os_error e path), fs)
      | inr loc =>
          match node_at fs loc with
          | None => (Ok tt, mk_fs (<[loc := Dir]> (nodes fs)) (cwd fs))
          | Some Dir => (Ok tt, fs)
          | Some (File _) => (Raise (file_exists path), fs)
          end
      end
  end.

End FS.
Export FS.

(** ** The outside world: environment, inference service, streams *)

Module World.

(** What is sent to the inference service. *)
Inductive request_content :=
| Text (text : pystr)
| TextAndImage (text : pystr) (image_url : pystr).

Record chat_message := mk_message { role : pystr; content_of : request_content }.

Record chat_request := mk_chat {
  chat_model : pystr;
  messages : list chat_message;
  temperature : pystr;
  response_format : option pystr
}.

Record speech_request := mk_speech {
  speech_model : pystr;
  voice : pystr;
  input : pystr;
  speech_format : pystr
}.

(** What comes back. An attribute that is [None] is [None] here. *)
Record message := mk_reply { content : option pystr }.
Record choice := mk_choice { message_of : option message }.
Record completion := mk_completion { choices : option (list choice) }.
Record speech := mk_audio { audio_content : option bytes }.

(** The service is an opaque request/response boundary: a call answers
    or raises. *)
Record service := mk_service {
  chat_completions_create : chat_request -> result completion;
  audio_speech_create : speech_request -> result speech
}.

(** The process environment ([os.environ], after [load_dotenv()]) and the
    service the client talks to. *)
Record host := mk_host {
  environ : gmap pystr pystr;
  openai : service
}.

Inductive event :=
| ClientCreated (api_key : pystr)
| ChatRequest (r : chat_request)
| SpeechRequest (r : speech_request).

Record world := mk_world {
  files : filesystem;
  network : list event;
  stdout : list pystr;
  stderr : list pystr
}.

(** *** Computations that may raise and that change the world *)

Definition M (A : Type) : Type := world -> result A * world.

Definition ret {A} (a : A) : M A := fun w => (Ok a, w).

Definition raise {A} (c : exn_class) (msg : pystr) : M A :=
  fun w => (Raise (mk_exn c msg), w).

Definition bind {A B} (m : M A) (k : A -> M B) : M B :=
  fun w =>
    match m w with
    | (Ok a, w') => k a w'
    | (Raise e, w') => (Raise e, w')
    end.

(** [try: body except Exception as e: handler(e)] *)
Definition try_except {A} (body : M A) (handler : exn -> M A) : M A :=
  fun w =>
    match body w with
    | (Ok a, w') => (Ok a, w')
    | (Raise e, w') =>
        if isinstance e Exception then handler e w' else (Raise e, w')
    end.

Definition lift {A} (r : result A) : M A := fun w => (r, w).

End World.
Export World.

Notation "'let!' x ':=' m 'in' k" := (bind m (fun x => k))
(at level 10, x pattern, m at level 100, k at level 200).
Notation "'do!' m 'in' k" := (bind m (fun _ => k))
(at level 10, m at level 100, k at level 200).

Module IO.

Definition cannot_encode : exn :=
  mk_exn UnicodeEncodeError
    (py "'utf-8' codec can't encode characters: surrogates not allowed").

(** [print(s)]: standard output is a UTF-8 text stream with the strict
    error handler, so a string that UTF-8 cannot encode is refused. *)
Definition print (s : pystr) : M unit :=
  fun w =>
    match utf8_encode s with
    | Some _ =>
        (Ok tt, mk_world (files w) (network w) (stdout w ++ [s]) (stderr w))
    | None => (Raise cannot_encode, w)
    end.

(** [print(s, file=sys.stderr)]: standard error replaces what it cannot
    encode and never refuses. *)
Definition eprint (s : pystr) : M unit :=
  fun w => (Ok tt, mk_world (files w) (network w) (stdout w) (stderr w ++ [s])).

Definition emit (ev : event) : M unit :=
  fun w => (Ok tt, mk_world (files w) (network w ++ [ev]) (stdout w) (stderr w)).

Definition os_path_exists (path : pystr) : M bool :=
  fun w => (Ok (exists_ (files w) path), w).

Definition open_rb_read (path : pystr) : M bytes :=
  fun w => (read_bytes (files w) path, w).

Definition mkdir (path : pystr) : M unit :=
  fun w =>
    let '(r, fs') := mkdir_exist_ok (files w) path in
    (r, mk_world fs' (network w) (stdout w) (stderr w)).

Definition open_for_writing (path : pystr) : M (list pystr) :=
  fun w =>
    let '(r, fs') := open_w (files w) path in
    (r, mk_world fs' (network w) (stdout w) (stderr w)).

Definition write_bytes (loc : list pystr) (d : bytes) : M unit :=
  fun w =>
    (Ok tt, mk_world (append (files w) loc d) (network w) (stdout w) (stderr w)).

(** [f.write(chunk)] on a file opened with [encoding="utf-8"] *)
Definition write_str (loc : list pystr) (chunk : pystr) : M unit :=
  match utf8_encode chunk with
  | Some d => write_bytes loc d
  | None => lift (Raise cannot_encode)
  end.

Fixpoint write_chunks (loc : list pystr) (chunks : list pystr) : M unit :=
  match chunks with
  | [] => ret tt
  | c :: cs => do! write_str loc c in write_chunks loc cs
  end.

(** Universal newlines, as applied when a text file is read. *)
Fixpoint universal_newlines (s : pystr) : pystr :=
  match s with
  | 13 :: 10 :: s' => 10 :: universal_newlines s'
  | 13 :: s' => 10 :: universal_newlines s'
  | c :: s' => c :: universal_newlines s'
  | [] => []
  end.

(** [open(path, "r", encoding="utf-8").read()] *)
Definition open_r_read (path : pystr) : M pystr :=
  let! d := open_rb_read path in
  match utf8_decode d with
  | Some s => ret (universal_newlines s)
  | None =>
      raise UnicodeDecodeError (py "'utf-8' codec can't decode bytes")
  end.

End IO.
Export IO.

(** ** [base64.b64encode] *)

Module Base64.

Definition b64_char (n : Z) : Z :=
  if n <? 26 then 65 + n
  else if n <? 52 then 71 + n
  else if n <? 62 then n - 4
  else if n =? 62 then chr "+"
  else chr "/".

Fixpoint b64encode (d : bytes) : pystr :=
  match d with
  | a :: b :: c :: r =>
      b64_char (a / 4) :: b64_char (a mod 4 * 16 + b / 16)
      :: b64_char (b mod 16 * 4 + c / 64) :: b64_char (c mod 64)
      :: b64encode r
  | [a; b] =>
      [b64_char (a / 4); b64_char (a mod 4 * 16 + b / 16);
       b64_char (b mod 16 * 4); chr "="]
  | [a] => [b64_char (a / 4); b64_char (a mod 4 * 16); chr "="; chr "="]
  | [] => []
  end.

End Base64.
Export Base64.

(** ** The fixed instruction texts

  In the two literals below a backtick stands for the double quote of the
  Python text. *)

Module Prompts.

Definition with_quotes (s : pystr) : pystr :=
  map (fun c => if c =? 96 then 34 else c) s.

Definition SYSTEM_PROMPT : pystr := with_quotes (py "Ты ассистент по анализу изображений почтовых марок и справочному описанию филателистических объектов.

Твоя задача:
1. Проанализировать изображение почтовой марки и извлечь из него основную визуально доступную информацию.
2. Дополнить результат кратким справочным описанием марки на основе общедоступных знаний и открытых источников.
3. Чётко разделять:
   - данные, полученные строго из изображения;
   - справочную информацию, которая может требовать проверки по каталогу.

Правила работы:
1. Используй ТОЛЬКО информацию, которую можно увидеть на изображении, для полей визуального анализа.
2. Справочную информацию формируй ТОЛЬКО как вероятностную и описательную.
3. НЕ выдумывай каталожные номера, тиражи и цены.
4. Если в каких-то данных есть сомнения — явно укажи это.
5. Всегда отмечай, что справочная информация не заменяет данные каталогов.
6. Верни результат СТРОГО в формате JSON, без пояснений и текста вне JSON.

Извлеки визуально доступные данные (если они есть на изображении):

- country — страна или территория выпуска
- postal_type — тип почты (например: обычная, авиапочта и т.п.)
- denomination — номинал и валюта
- year_or_period — год или период выпуска (если можно определить)
- subject — сюжет или тематика изображения
- visible_text — весь читаемый текст на марке одной строкой
- colors — основные доминирующие цвета
- condition_notes — визуальные замечания о состоянии (если применимо)
- uncertainties — список пунктов, где есть сомнения или ограничения анализа
- confidence — общая оценка уверенности распознавания от 0 до 1

Дополнительно сформируй справочный блок reference_info:

- description — краткое текстовое описание марки и события, которому она посвящена
- historical_context — общий исторический или тематический контекст выпуска
- purpose — предполагаемое назначение выпуска (памятный, спортивный, рекламный и т.п.)
- info_source — всегда указывай значение `open sources`
- verification_note — обязательная пометка о необходимости сверки с филателистическими каталогами

Формат ответа:

{
  `country`: `...`,
  `postal_type`: `...`,
  `denomination`: `...`,
  `year_or_period`: `...`,
  `subject`: `...`,
  `visible_text`: `...`,
  `colors`: [`...`, `...`],
  `condition_notes`: `...`,
  `uncertainties`: [`...`],
  `confidence`: 0.0,
  `reference_info`: {
    `description`: `...`,
    `historical_context`: `...`,
    `purpose`: `...`,
    `info_source`: `open sources`,
    `verification_note`: `Информация требует сверки с филателистическими каталогами`
  }
}
").

Definition VOICE_SCRIPT_PROMPT : pystr := py "Ты создаёшь текст для голосового описания почтовой марки на русском языке.

Требования к тексту:
1. Дружелюбный, спокойный стиль, как голосовой помощник филателиста
2. Без канцелярита, без рекламы
3. 4-7 коротких фраз, общая длительность 20-40 секунд
4. Связный, живой текст, НЕ сухой перечень полей
5. НЕ выдумывай каталожные номера, тиражи, цены, редкость
6. Если есть uncertainties - обязательно упомяни их в конце одной фразой
7. Если есть reference_info - используй её, но обязательно проговори, что справочная часть из открытых источников и требует сверки с каталогом (кратко, одним предложением)

На основе следующих данных о марке создай текст для озвучки:

{stamp_data}

Верни ТОЛЬКО текст для озвучки, без пояснений и метаданных.".

End Prompts.
Export Prompts.

(** ** [json_to_voice.py] *)

Module JsonToVoice.
Section Script.
Context {RT : Runtime} (h : host).

Definition getenv (key : pystr) : option pystr := environ h !! key.

Definition getenv_default (key default_ : pystr) : pystr :=
  default default_ (environ h !! key).

(** Truth value of an optional string: [None] and [""] are false. *)
Definition truthy (s : option pystr) : bool :=
  match s with
  | None | Some [] => false
  | Some _ => true
  end.

Definition no_api_key : pystr :=
  py "OPENAI_API_KEY не найден в переменных окружения. Проверьте файл .env".
Definition no_model : pystr :=
  py "OPENAI_MODEL не найден в переменных окружения. Проверьте файл .env".
Definition no_tts_model : pystr :=
  py "OPENAI_TTS_MODEL не найден в переменных окружения. Проверьте файл .env".
Definition no_tts_voice : pystr :=
  py "OPENAI_TTS_VOICE не найден в переменных окружения. Проверьте файл .env".
Definition empty_choices : pystr := py "API вернул пустой список choices".
Definition no_message : pystr := py "API вернул ответ без message".
Definition empty_script : pystr := py "Модель вернула пустой текст для озвучки".
Definition no_audio : pystr := py "Не удалось сгенерировать аудио".

(** [OpenAI(api_key=api_key)] *)
Definition OpenAI (api_key : pystr) : M unit := emit (ClientCreated api_key).

(** [client.chat.completions.create(...)] *)
Definition chat_create (r : chat_request) : M completion :=
  do! emit (ChatRequest r) in lift (chat_completions_create (openai h) r).

(** [client.audio.speech.create(...)] *)
Definition speech_create (r : speech_request) : M speech :=
  do! emit (SpeechRequest r) in lift (audio_speech_create (openai h) r).

Definition load_json_result (json_path : pystr) : M Json.value :=
  let! found := os_path_exists json_path in
  if negb found then
    raise FileNotFoundError (py "JSON-файл не найден: " ++ json_path)
  else
    let! text := open_r_read json_path in
    lift (Json.loads text).

Definition generate_voice_script (stamp_data : Json.value)
    (api_key model : option pystr) : M pystr :=
  if negb (truthy api_key) then raise ValueError no_api_key
  else if negb (truthy model) then raise ValueError no_model
  else
    let data_str := Json.dumps stamp_data in
    do! OpenAI (default [] api_key) in
    let! response :=
      chat_create
        {| chat_model := default [] model;
           messages :=
             [ mk_message (py "system") (Text VOICE_SCRIPT_PROMPT);
               mk_message (py "user")
                 (Text (py "Данные о марке:" ++ [10] ++ data_str)) ];
           temperature := py "0.2";
           response_format := None |} in
    match choices response with
    | None | Some [] => raise ValueError empty_choices
    | Some (first :: _) =>
        match message_of first with
        | None => raise ValueError no_message
        | Some m =>
            if negb (truthy (content m)) then raise ValueError empty_script
            else ret (strip (default [] (content m)))
        end
    end.

Definition generate_audio (voice_script : pystr) (api_key : option pystr)
    (tts_model tts_voice tts_format : pystr) : M bytes :=
  if negb (truthy api_key) then raise ValueError no_api_key
  else if negb (truthy (Some tts_model)) then raise ValueError no_tts_model
  else if negb (truthy (Some tts_voice)) then raise ValueError no_tts_voice
  else
    do! OpenAI (default [] api_key) in
    let! response :=
      speech_create
        {| speech_model := tts_model; voice := tts_voice;
           input := voice_script; speech_format := tts_format |} in
    match audio_content response with
    | None | Some [] => raise ValueError no_audio
    | Some audio_data => ret audio_data
    end.

Definition json_to_voice (json_path output_dir : pystr) : M (pystr * pystr) :=
  let api_key := getenv (py "OPENAI_API_KEY") in
  let model := getenv (py "OPENAI_MODEL") in
  let tts_model := getenv_default (py "OPENAI_TTS_MODEL") (py "tts-1") in
  let tts_voice := getenv_default (py "OPENAI_TTS_VOICE") (py "alloy") in
  let tts_format := getenv_default (py "OPENAI_TTS_FORMAT") (py "mp3") in
  if negb (truthy api_key) then raise ValueError no_api_key
  else if negb (truthy model) then raise ValueError no_model
  else
    let! stamp_data := load_json_result json_path in
    let! voice_script := generate_voice_script stamp_data api_key model in
    let! audio_data :=
      generate_audio voice_script api_key tts_model tts_voice tts_format in
    let output_path := Path_of output_dir in
    do! mkdir (Path_str output_path) in
    let script_file := truediv output_path (py "voice_script.txt") in
    do! (let! f := open_for_writing (Path_str script_file) in
         write_str f voice_script) in
    let audio_file := truediv output_path (py "result." ++ tts_format) in
    do! (let! f := open_for_writing (Path_str audio_file) in
         write_bytes f audio_data) in
    ret (Path_str script_file, Path_str audio_file).

(** The command-line entry point; the result is the exit status. *)
Definition main (json_path output_dir : pystr) : world -> Z * world :=
  fun w =>
    match
      (let! (script_file, audio_file) := json_to_voice json_path output_dir in
       do! print (py "✓ Текст озвучки сохранен: " ++ script_file) in
       print (py "✓ Аудиофайл сохранен: " ++ audio_file)) w
    with
    | (Ok _, w') => (0, w')
    | (Raise e, w') =>
        if isinstance e FileNotFoundError then
          (1, snd (eprint (py "Ошибка: " ++ str_of e) w'))
        else if isinstance e ValueError then
          (1, snd (eprint (py "Ошибка конфигурации: " ++ str_of e) w'))
        else
          (1, snd (eprint (py "Неожиданная ошибка: " ++ str_of e) w'))
    end.

End Script.
End JsonToVoice.

(** ** [analyze_stamp.py] *)

Module AnalyzeStamp.
Section Script.
Context {RT : Runtime} (h : host).

Import JsonToVoice.

Definition image_not_found : pystr := py "Файл изображения не найден: ".
Definition empty_answer : pystr := py "Модель вернула пустой ответ".

(** [encode_image(image_path)] *)
Definition encode_image (image_path : pystr) : M pystr :=
  let! data := open_rb_read image_path in
  ret (b64encode data).

Definition mime_types : gmap pystr pystr :=
  list_to_map
    [ (py ".jpg", py "image/jpeg");
      (py ".jpeg", py "image/jpeg");
      (py ".png", py "image/png");
      (py ".gif", py "image/gif");
      (py ".webp", py "image/webp") ].

(** The MIME type chosen for the request (the three statements that
    follow the encoding of the image). *)
Definition mime_type_of (image_path : pystr) : pystr :=
  let image_ext := lower (suffix (Path_of image_path)) in
  default (py "image/jpeg") (mime_types !! image_ext).

Definition analysis_request (model mime_type base64_image : pystr)
  : chat_request :=
  {| chat_model := model;
     messages :=
       [ mk_message (py "system") (Text SYSTEM_PROMPT);
         mk_message (py "user")
           (TextAndImage
              (py "Проанализируй это изображение почтовой марки и верни результат в формате JSON.")
              (py "data:" ++ mime_type ++ py ";base64," ++ base64_image)) ];
     temperature := py "0.1";
     response_format := Some (py "json_object") |}.

Definition analyze_stamp (image_path : pystr) : M pystr :=
  let api_key := getenv h (py "OPENAI_API_KEY") in
  let model := getenv h (py "OPENAI_MODEL") in
  if negb (truthy api_key) then raise ValueError no_api_key
  else if negb (truthy model) then raise ValueError no_model
  else
    let! found := os_path_exists image_path in
    if negb found then
      raise FileNotFoundError (image_not_found ++ image_path)
    else
      let! base64_image := encode_image image_path in
      let mime_type := mime_type_of image_path in
      do! OpenAI (default [] api_key) in
      let! response :=
        chat_create h
          (analysis_request (default [] model) mime_type base64_image) in
      match choices response with
      | None | Some [] => raise ValueError empty_choices
      | Some (first :: _) =>
          match message_of first with
          | None => raise ValueError no_message
          | Some m =>
              if negb (truthy (content m)) then raise ValueError empty_answer
              else ret (default [] (content m))
          end
      end.

Definition output_dir : Path := Path_of (py "output").
Definition output_file : Path := truediv output_dir (py "result.json").

(** The statements of [main] between the call of [analyze_stamp] and the
    [--tts] branch: validate, show and save the answer. *)
Definition persist (result : pystr) : M Json.value :=
  let! result_json := lift (Json.loads result) in
  do! print ([10] ++ py "Результат анализа:") in
  do! print (Json.dumps result_json) in
  do! mkdir (Path_str output_dir) in
  do! (let! f := open_for_writing (Path_str output_file) in
       write_chunks f (Json.iterencode result_json 0)) in
  do! print ([10] ++ py "Результат сохранен в: " ++ Path_str output_file) in
  ret result_json.

(** The [--tts] branch: the body of its [try], the message of its
    [except Exception], and the two together. *)
Definition narrate_body : M unit :=
  do! print ([10] ++ py "Генерирую голосовое описание...") in
  let! (script_file, audio_file) :=
    json_to_voice h (Path_str output_file) (Path_str output_dir) in
  do! print (py "✓ Текст озвучки сохранен: " ++ script_file) in
  print (py "✓ Аудиофайл сохранен: " ++ audio_file).

Definition warning (e : exn) : pystr :=
  py "Предупреждение: Не удалось сгенерировать голосовое описание: "
  ++ str_of e.

Definition narrate : M unit :=
  try_except narrate_body (fun e => eprint (warning e)).

(** The [except] clauses of [main], tried in the order they are written.
    [result] is the local variable of that name, unbound ([None]) while
    [analyze_stamp] has not returned. *)
Definition handlers (result : option pystr) (e : exn) : M Z :=
  if isinstance e FileNotFoundError then
    do! eprint (py "Ошибка: " ++ str_of e) in ret 1
  else if isinstance e ValueError then
    do! eprint (py "Ошибка конфигурации: " ++ str_of e) in ret 1
  else if isinstance e JSONDecodeError then
    do! eprint (py "Ошибка: Не удалось распарсить JSON ответ от модели: "
                ++ str_of e) in
    match result with
    | Some r => do! eprint (py "Ответ модели: " ++ r) in ret 1
    | None => ret 1
    end
  else
    do! eprint (py "Неожиданная ошибка: " ++ str_of e) in ret 1.

(** [main()] for the arguments [image_path] and [--tts]; the result is
    the exit status of the process. *)
Definition main (image_path : pystr) (tts : bool) : world -> Z * world :=
  fun w =>
    let finish (r : result Z * world) : Z * world :=
      match r with
      | (Ok code, w') => (code, w')
      | (Raise _, w') => (1, w')
      end in
    match
      (do! print (py "Анализирую изображение: " ++ image_path) in
       analyze_stamp image_path) w
    with
    | (Raise e, w1) => finish (handlers None e w1)
    | (Ok result, w1) =>
        match
          (do! persist result in
           if tts then narrate else ret tt) w1
        with
        | (Raise e, w2) => finish (handlers (Some result) e w2)
        | (Ok _, w2) => (0, w2)
        end
    end.

End Script.
End AnalyzeStamp.

Arguments py : simpl never.

(** ** The error taxonomy of the specification, read on the exceptions of
  the code *)

Module Taxonomy.

Import JsonToVoice AnalyzeStamp.

Definition FileNotFound (e : exn) : Prop := cls e = FileNotFoundError.

Definition ConfigurationError (e : exn) : Prop :=
  cls e = ValueError /\
  In (str_of e) [no_api_key; no_model; no_tts_model; no_tts_voice].

Definition EmptyResponse (e : exn) : Prop :=
  cls e = ValueError /\
  In (str_of e) [empty_choices; no_message; empty_answer; empty_script].

Definition EmptyAudio (e : exn) : Prop :=
  cls e = ValueError /\ str_of e = no_audio.

Definition MalformedResponse (e : exn) : Prop := cls e = JSONDecodeError.

(** A value of the environment is missing when it is unset or empty. *)
Definition missing (h : host) (key : pystr) : Prop :=
  truthy (getenv h key) = false.

(** An answer of the chat endpoint with no choices, no message or no
    content. *)
Definition empty_completion (r : completion) : Prop :=
  match choices r with
  | None | Some [] => True
  | Some (first :: _) =>
      match message_of first with
      | None => True
      | Some m => truthy (content m) = false
      end
  end.

End Taxonomy.
Export Taxonomy.

(** ** A concrete interpreter

  Used wherever a statement is evaluated on explicit inputs: a finite
  float is identified with the literal that denotes it, and code points
  outside ASCII are their own lower case. *)

Module TextRuntime.

Definition is_float_literal (s : pystr) : bool :=
  match Json.match_number s with
  | Some (_, frac, ex, []) => negb (str_eqb frac [] && str_eqb ex [])
  | _ => false
  end.

Definition literal : Type := { s : pystr | is_float_literal s = true }.

Definition parse_literal (s : pystr) : pyfloat literal :=
  match bool_dec (is_float_literal s) true with
  | left H => Finite (exist _ s H)
  | right _ => NaN
  end.

Definition runtime : Runtime :=
  {| finite := literal;
     float_repr := fun x => proj1_sig x;
     float_of_literal := parse_literal;
     lower_nonascii :=
       fun s i => match s !! i with Some c => [c] | None => [] end |}.

End TextRuntime.

(** ** Vocabulary for the statements *)

Module Observations.

Import JsonToVoice AnalyzeStamp.

Definition sending (w : world) (evs : list event) : world :=
  mk_world (files w) (network w ++ evs) (stdout w) (stderr w).

Definition printing (w : world) (lines : list pystr) : world :=
  mk_world (files w) (network w) (stdout w ++ lines) (stderr w).

Definition complaining (w : world) (lines : list pystr) : world :=
  mk_world (files w) (network w) (stdout w) (stderr w ++ lines).


(** The checks both chat calls make on the envelope of the answer;
    [complaint] is the message for an empty content. *)
Definition first_content (complaint : pystr) (r : completion) : result pystr :=
  match choices r with
  | None | Some [] => Raise (mk_exn ValueError empty_choices)
  | Some (first :: _) =>
      match message_of first with
      | None => Raise (mk_exn ValueError no_message)
      | Some m =>
          if negb (truthy (content m))
          then Raise (mk_exn ValueError complaint)
          else Ok (default [] (content m))
      end
  end.

(** [json_to_voice] in two stages. [prepare] is everything it does before
    it writes: the configuration checks, the loading of the record, the
    narration and the synthesis. [store_voice] is the rest: the directory
    and the two files. *)
Definition prepare {RT : Runtime} (h : host) (json_path : pystr)
  : M (pystr * bytes) :=
  let api_key := getenv h (py "OPENAI_API_KEY") in
  let model := getenv h (py "OPENAI_MODEL") in
  let tts_model := getenv_default h (py "OPENAI_TTS_MODEL") (py "tts-1") in
  let tts_voice := getenv_default h (py "OPENAI_TTS_VOICE") (py "alloy") in
  let tts_format := getenv_default h (py "OPENAI_TTS_FORMAT") (py "mp3") in
  if negb (truthy api_key) then raise ValueError no_api_key
  else if negb (truthy model) then raise ValueError no_model
  else
    let! stamp_data := load_json_result json_path in
    let! voice_script := generate_voice_script h stamp_data api_key model in
    let! audio_data :=
      generate_audio h voice_script api_key tts_model tts_voice tts_format in
    ret (voice_script, audio_data).

Definition store_voice (h : host) (output_dir voice_script : pystr)
    (audio_data : bytes) : M (pystr * pystr) :=
  let tts_format := getenv_default h (py "OPENAI_TTS_FORMAT") (py "mp3") in
  let output_path := Path_of output_dir in
  do! mkdir (Path_str output_path) in
  let script_file := truediv output_path (py "voice_script.txt") in
  do! (let! f := open_for_writing (Path_str script_file) in
       write_str f voice_script) in
  let audio_file := truediv output_path (py "result." ++ tts_format) in
  do! (let! f := open_for_writing (Path_str audio_file) in
       write_bytes f audio_data) in
  ret (Path_str script_file, Path_str audio_file).

(** A computation that leaves the file system alone. *)
Definition keeps_files {A} (m : M A) : Prop :=
  forall w, files (snd (m w)) = files w.

(** Two file systems with the same working directory and the same
    directories (their regular files may differ). *)
Definition same_dirs (a b : filesystem) : Prop :=
  cwd a = cwd b /\
  forall loc, node_at a loc = Some Dir <-> node_at b loc = Some Dir.

(** The text [s] shows up in one of the lines. *)
Definition mentioned (s : pystr) (lines : list pystr) : bool :=
  existsb (contains s) lines.

End Observations.
Export Observations.

(** ** Sample hosts and worlds for the evaluated statements *)

Module Samples.

Definition configured : gmap pystr pystr :=
  list_to_map
    [ (py "OPENAI_API_KEY", py "sk-test"); (py "OPENAI_MODEL", py "gpt-4.1") ].

Definition answer (text : pystr) : completion :=
  mk_completion (Some [mk_choice (Some (mk_reply (Some text)))]).

(** A service that answers every chat request with [text] and every
    speech request with [audio]. *)
Definition stub (text : pystr) (audio : bytes) : service :=
  mk_service (fun _ => Ok (answer text)) (fun _ => Ok (mk_audio (Some audio))).

(** A service whose analysis answers [analysis] and whose narration
    answers [narration]; the two requests differ in their response
    format. *)
Definition stub2 (analysis narration : completion) (audio : bytes) : service :=
  mk_service
    (fun r => match response_format r with
              | Some _ => Ok analysis
              | None => Ok narration
              end)
    (fun _ => Ok (mk_audio (Some audio))).

(** A working directory [/home] that holds one image, [stamp.png]. *)
Definition disk : filesystem :=
  mk_fs (list_to_map [ ([py "home"], Dir);
                       ([py "home"; py "stamp.png"], File [137; 80; 78; 71]) ])
        [py "home"].

Definition fresh : world := mk_world disk [] [] [].

(** An environment with nothing set, and one with key and model. *)
Definition unconfigured : host := mk_host ∅ (stub (py "{}") [1]).
Definition ready : host := mk_host configured (stub (py "{}") [1]).

(** A service that answers the analysis with an empty list of choices. *)
Definition silent : host :=
  mk_host configured
    (mk_service (fun _ => Ok (mk_completion (Some [])))
                (fun _ => Ok (mk_audio (Some [1])))).

(** A service that answers the analysis with a small record, the narration
    with a greeting and the synthesis with three octets; [format] is the
    value of [OPENAI_TTS_FORMAT], if any. *)
Definition record_text : pystr :=
  with_quotes (py "{`country`: `France`, `confidence`: 0.9}").

Definition narrator (format : option pystr) : host :=
  mk_host
    (match format with
     | Some f => <[py "OPENAI_TTS_FORMAT" := f]> configured
     | None => configured
     end)
    (stub2 (answer record_text) (answer (py " Bonjour ! ")) [73; 68; 51]).

(** [fresh] after an analysis: [output/result.json] is there. *)
Definition analysed : world :=
  mk_world
    (mk_fs (<[[py "home"; py "output"] := Dir]>
              (<[[py "home"; py "output"; py "result.json"] := File (octets "{}")]>
                 (nodes disk)))
           [py "home"])
    [] [] [].

(** [fresh] with a directory standing where the audio file should go. *)
Definition cluttered : world :=
  mk_world
    (mk_fs (<[[py "home"; py "output"] := Dir]>
              (<[[py "home"; py "output"; py "result.mp3"] := Dir]>
                 (nodes disk)))
           [py "home"])
    [] [] [].

(** A narration service that answers with an empty content. *)
Definition speechless : host :=
  mk_host configured
    (stub2 (answer record_text) (answer []) [73; 68; 51]).

(** A service that answers the analysis with text that is not JSON. *)
Definition garbled : host := mk_host configured (stub (py "not json") [1]).

End Samples.


(** ** The parts of the encoder and of the scanner, by name

    The loops of [iterencode], the stages of [match_number], the step of
    [scanstring] and the body of [loads], as definitions of their own;
    they are shown below to be what the functions above are made of. *)

Arguments Json.Scanned {A} a rest idx.
Arguments Json.StopIteration {A} idx.
Arguments Json.DecodeError {A} msg idx.
Arguments Json.Exhausted {A}.

Module JsonParts.
Section WithRuntime.
Context {RT : Runtime}.
Import Json.

(** The loop of [_iterencode_list]: [buf] is what precedes the next
    element, and is yielded together with it when the element is one
    chunk. [enc] encodes a nested element. *)
Fixpoint list_items (enc : value -> list pystr) (separator : pystr)
    (l : list value) (buf : pystr) {struct l} : list pystr :=
  match l with
  | [] => []
  | v :: l' =>
      match atom v with
      | Some t => [buf ++ t]
      | None => buf :: enc v
      end ++ list_items enc separator l' separator
  end.

(** The loop of [_iterencode_dict]. *)
Fixpoint dict_items (enc : value -> list pystr) (separator : pystr)
    (l : list (pystr * value)) (first : bool) {struct l} : list pystr :=
  match l with
  | [] => []
  | (k, v) :: l' =>
      (if first then [] else [separator])
      ++ encode_basestring k :: key_separator :: enc v
      ++ dict_items enc separator l' false
  end.

(** The three stages of the number scanner, each handing the rest of the
    text to the next: the integer part with its sign, the fraction, the
    exponent. *)
Definition int_stage (s : pystr) : option (pystr * pystr) :=
  let '(sign, s1) :=
    match s with
    | 45 :: s' => ([45], s')
    | _ => ([], s)
    end in
  match s1 with
  | c :: s2 =>
      if between 49 57 c then
        let '(d, r) := span_digits s2 in Some (sign ++ c :: d, r)
      else if c =? 48 then Some (sign ++ [c], s2)
      else None
  | [] => None
  end.

Definition frac_stage (s : pystr) : pystr * pystr :=
  match s with
  | 46 :: c :: s' =>
      if is_digit c then
        let '(d, r) := span_digits s' in (46 :: c :: d, r)
      else ([], s)
  | _ => ([], s)
  end.

Definition exp_sign (s : pystr) : pystr * pystr :=
  match s with
  | c :: d :: r =>
      if ((c =? chr "-") || (c =? chr "+")) && is_digit d
      then ([c], d :: r) else ([], s)
  | _ => ([], s)
  end.

Definition exp_stage (s : pystr) : pystr * pystr :=
  match s with
  | e :: s' =>
      if (e =? chr "e") || (e =? chr "E") then
        let '(sg, s'') := exp_sign s' in
        match span_digits s'' with
        | ([], _) => ([], s)
        | (d, r) => (e :: sg ++ d, r)
        end
      else ([], s)
  | [] => ([], s)
  end.

(** One more character in front of what the rest of the scan gives. *)
Definition push (c : Z) (r : scan pystr) : scan pystr :=
  match r with
  | Scanned t rest i => Scanned (c :: t) rest i
  | other => other
  end.

(** [JSONDecoder.decode(s)]: the value must be followed by white space
    only. *)
Definition decode (s : pystr) : result value :=
  let '(s1, i1) := skip_ws s 0 in
  match scan_once (2 * length s + 2) s1 i1 with
  | Scanned v rest i =>
      let '(r2, i2) := skip_ws rest i in
      match r2 with
      | [] => Ok v
      | _ => Raise (decode_error (py "Extra data") s i2)
      end
  | StopIteration i => Raise (decode_error (py "Expecting value") s i)
  | DecodeError m i => Raise (decode_error m s i)
  | Exhausted =>
      Raise (mk_exn RecursionError (py "maximum recursion depth exceeded"))
  end.

End WithRuntime.
End JsonParts.
Export JsonParts.

(** ** The persisted format, in the words of the specification

    [result.json] is the record pretty-printed with two spaces per nesting
    level, its strings between double quotes with nothing escaped but the
    quote, the backslash and the control characters. [pretty] is that
    description; the code's encoder is compared with it below. *)

Module JsonSpec.
Section WithRuntime.
Context {RT : Runtime}.
Import Json.

Definition needs_escape (c : Z) : bool :=
  (c =? 34) || (c =? chr "\") || between 0 31 c.

Definition escaped (s : pystr) : pystr :=
  concat (map (fun c => if needs_escape c then escape_char c else [c]) s).

Definition quote_string (s : pystr) : pystr := 34 :: escaped s ++ [34].

Definition line_break (level : nat) : pystr := 10 :: replicate (2 * level) 32.

Fixpoint pretty (level : nat) (o : value) {struct o} : pystr :=
  match o with
  | PyNone => py "null"
  | PyBool true => py "true"
  | PyBool false => py "false"
  | PyInt z => int_repr z
  | PyFloat x => floatstr x
  | PyStr s => quote_string s
  | PyList [] => py "[]"
  | PyList l =>
      [chr "["] ++ line_break (S level)
      ++ join (chr "," :: line_break (S level)) (map (pretty (S level)) l)
      ++ line_break level ++ [chr "]"]
  | PyDict [] => py "{}"
  | PyDict d =>
      [chr "{"] ++ line_break (S level)
      ++ join (chr "," :: line_break (S level))
           (map (fun kv => quote_string (fst kv) ++ [chr ":"; 32]
                           ++ pretty (S level) (snd kv)) d)
      ++ line_break level ++ [chr "}"]
  end.

(** The values the decoder produces: code points are not negative and the
    keys of a [dict] are distinct. *)
Definition valid_str (s : pystr) : Prop := Forall (fun c => 0 <= c) s.

Fixpoint well_formed (o : value) {struct o} : Prop :=
  match o with
  | PyStr s => valid_str s
  | PyList l => fold_right (fun x acc => well_formed x /\ acc) True l
  | PyDict d =>
      NoDup (map fst d) /\
      fold_right (fun kv acc => valid_str (fst kv) /\ well_formed (snd kv) /\ acc)
        True d
  | _ => True
  end.

(** The number of scanner steps a value costs. *)
Fixpoint weight (o : value) {struct o} : nat :=
  match o with
  | PyList l => S (fold_right (fun x acc => S (weight x) + acc)%nat 0%nat l)
  | PyDict d => S (fold_right (fun kv acc => S (weight (snd kv)) + acc)%nat 0%nat d)
  | _ => 1%nat
  end.

(** What a value can open with: never white space, a closing bracket or a
    byte-order mark. *)
Definition opens (c : Z) : Prop :=
  is_whitespace c = false /\ c <> 93 /\ c <> 65279.

Definition all_digits (s : pystr) : Prop :=
  Forall (fun c => is_digit c = true) s.

(** What may follow a number for the scanner to stop there. *)
Definition is_number_char (c : Z) : bool :=
  is_digit c || (c =? chr ".") || (c =? chr "e") || (c =? chr "E")
  || (c =? chr "+") || (c =? chr "-").

Definition number_stop (rest : pystr) : Prop :=
  match rest with
  | [] => True
  | c :: _ => is_number_char c = false
  end.

(** What is assumed of the interpreter's floats: [repr] of a finite float
    is a number literal with a fraction or an exponent, and reading it
    gives that float back. *)
Definition float_laws : Prop :=
  (forall x : finite, float_of_literal (float_repr x) = Finite x) /\
  (forall x : finite,
      exists ip frac ex,
        match_number (float_repr x) = Some (ip, frac, ex, []) /\
        (frac <> [] \/ ex <> [])).

(** The text of the elements of a list after the first, each behind its
    comma and line break; a member of an object; the members after the
    first. *)
Definition more_items (level : nat) (l : list value) : pystr :=
  concat (map (fun t => (chr "," :: line_break (S level)) ++ t)
              (map (pretty (S level)) l)).

Definition member (level : nat) (kv : pystr * value) : pystr :=
  quote_string (fst kv) ++ [chr ":"; 32] ++ pretty (S level) (snd kv).

Definition more_members (level : nat) (d : list (pystr * value)) : pystr :=
  concat (map (fun t => (chr "," :: line_break (S level)) ++ t)
              (map (member level) d)).

(** A text without carriage returns: universal newlines leave it alone. *)
Definition no_cr (s : pystr) : Prop := Forall (fun c => c <> 13) s.

(** A value reads back: its text, followed by something that cannot
    continue a number, is scanned as the value, with that something left
    over, as soon as the fuel covers the weight of the value. *)
Definition reads_back (v : value) : Prop :=
  well_formed v ->
  forall level fuel rest idx,
    (weight v <= fuel)%nat -> number_stop rest ->
    exists idx',
      scan_once fuel (pretty level v ++ rest) idx = Scanned v rest idx'.

End WithRuntime.
End JsonSpec.
Export JsonSpec.

(** ** The requests of the narration tool *)

Module Requests.
Section WithRuntime.
Context {RT : Runtime}.
Import JsonToVoice.

(** The chat request [generate_voice_script] sends for a record. *)
Definition narration_request (model : pystr) (stamp_data : Json.value)
  : chat_request :=
  {| chat_model := model;
     messages :=
       [ mk_message (py "system") (Text VOICE_SCRIPT_PROMPT);
         mk_message (py "user")
           (Text (py "Данные о марке:" ++ [10] ++ Json.dumps stamp_data)) ];
     temperature := py "0.2";
     response_format := None |}.

(** The code points [str.strip] removes. *)
Definition blank (s : pystr) : Prop := Forall (fun c => isspace c = true) s.

(** The octets of [bytes]. *)
Definition octet (b : Z) : Prop := 0 <= b <= 255.

(** The alphabet of Base64, and its padding. *)
Definition b64_symbol (c : Z) : bool :=
  between 65 90 c || between 97 122 c || between 48 57 c
  || (c =? chr "+") || (c =? chr "/").

End WithRuntime.
End Requests.
Export Requests.

(** * Properties *)

(** ** Running the monad *)

Section MonadFacts.

Lemma bind_ok {A B} (m : M A) (k : A -> M B) w a w' :
  m w = (Ok a, w') -> bind m k w = k a w'.
Proof. unfold bind. intros ->. reflexivity. Qed.

Lemma bind_raise {A B} (m : M A) (k : A -> M B) w e w' :
  m w = (Raise e, w') -> bind m k w = (Raise e, w').
Proof. unfold bind. intros ->. reflexivity. Qed.

Lemma bind_eq {A B} (m : M A) (k : A -> M B) w :
  bind m k w
  = match m w with
    | (Ok a, w') => k a w'
    | (Raise e, w') => (Raise e, w')
    end.
Proof. reflexivity. Qed.

Lemma print_eq s w :
  print s w
  = match utf8_encode s with
    | Some _ => (Ok tt, printing w [s])
    | None => (Raise cannot_encode, w)
    end.
Proof. reflexivity. Qed.

Lemma every_class_is_an_exception (e : exn) : isinstance e Exception = true.
Proof. destruct e as [[] msg]; reflexivity. Qed.

End MonadFacts.

(** ** Configuration and existence checks of the analyzer *)

Section AnalyzerChecks.
Context {RT : Runtime}.
Import JsonToVoice AnalyzeStamp.

Lemma read_bytes_exists fs path d :
  read_bytes fs path = Ok d -> exists_ fs path = true.
Proof.
  unfold read_bytes, exists_. destruct (refuse path); [discriminate|].
  destruct (resolve fs path) as [e|loc]; [discriminate|].
  destruct (node_at fs loc) as [[|d']|]; try discriminate. reflexivity.
Qed.

(** C4. Whenever the API key or the model is missing from the
    environment (unset or empty), [analyze_stamp] raises the
    configuration error and leaves the world as it found it: no client
    was created, no request was sent. *)
Theorem analyze_stamp_missing_config (h : host) (image_path : pystr) (w : world) :
  missing h (py "OPENAI_API_KEY") \/ missing h (py "OPENAI_MODEL") ->
  exists e,
    fst (analyze_stamp h image_path w) = Raise e /\
    ConfigurationError e /\
    network (snd (analyze_stamp h image_path w)) = network w /\
    snd (analyze_stamp h image_path w) = w.
Proof.
  unfold missing, analyze_stamp. intros [H|H].
  - rewrite H. simpl. eexists. split; [reflexivity|].
    split; [|split; reflexivity]. split; [reflexivity|]. simpl. auto.
  - rewrite H. simpl.
    destruct (truthy (getenv h (py "OPENAI_API_KEY"))); simpl;
      (eexists; split; [reflexivity|]; split; [|split; reflexivity];
       split; [reflexivity|]; simpl; auto).
Qed.

(** C3, as the code has it. With the API key and the model both set, a
    path that does not exist makes [analyze_stamp] raise
    [FileNotFoundError] with the world untouched (no client, no request);
    with one of them missing, the configuration error comes first. *)
Theorem analyze_stamp_missing_image (h : host) (image_path : pystr) (w : world) :
  exists_ (files w) image_path = false ->
  (truthy (getenv h (py "OPENAI_API_KEY")) = true ->
   truthy (getenv h (py "OPENAI_MODEL")) = true ->
   analyze_stamp h image_path w
   = (Raise (mk_exn FileNotFoundError (image_not_found ++ image_path)), w))
  /\
  (missing h (py "OPENAI_API_KEY") \/ missing h (py "OPENAI_MODEL") ->
   exists e,
     analyze_stamp h image_path w = (Raise e, w) /\ ConfigurationError e).
Proof.
  intros Hno. split.
  - intros Hk Hm. unfold analyze_stamp. rewrite Hk, Hm. simpl.
    unfold bind, os_path_exists. rewrite Hno. reflexivity.
  - intros Hmiss.
    destruct (analyze_stamp_missing_config h image_path w Hmiss)
      as (e & He & Hc & _ & Hw).
    exists e. split; [|exact Hc].
    destruct (analyze_stamp h image_path w) as [r w']. simpl in *.
    congruence.
Qed.

End AnalyzerChecks.

Section AnalyzerChecksEvaluated.
Import JsonToVoice AnalyzeStamp Samples.
#[local] Existing Instance TextRuntime.runtime.

Lemma analyze_stamp_missing_config_witness :
  missing unconfigured (py "OPENAI_API_KEY") /\
  exists e,
    fst (analyze_stamp unconfigured (py "stamp.png") fresh) = Raise e /\
    ConfigurationError e /\
    network (snd (analyze_stamp unconfigured (py "stamp.png") fresh))
    = network fresh /\
    snd (analyze_stamp unconfigured (py "stamp.png") fresh) = fresh.
Proof.
  split; [reflexivity|].
  apply (analyze_stamp_missing_config unconfigured (py "stamp.png") fresh).
  left. reflexivity.
Defined.

(** C3 as stated does not hold: a path that does not exist, in an
    environment without the API key, gets the configuration error, not
    [FileNotFoundError]. *)
Lemma missing_image_without_key :
  ~ (forall (h : host) (image_path : pystr) (w : world),
        exists_ (files w) image_path = false ->
        exists e w',
          analyze_stamp h image_path w = (Raise e, w') /\ FileNotFound e).
Proof.
  intros claim.
  destruct (claim unconfigured (py "missing.png") fresh eq_refl)
    as (e & w' & Hrun & Hcls).
  vm_compute in Hrun. inversion Hrun; subst e. discriminate Hcls.
Qed.

Lemma analyze_stamp_missing_image_witness :
  exists_ (files fresh) (py "missing.png") = false /\
  analyze_stamp ready (py "missing.png") fresh
  = (Raise (mk_exn FileNotFoundError (image_not_found ++ py "missing.png")),
     fresh).
Proof.
  split; [reflexivity|].
  apply (analyze_stamp_missing_image ready (py "missing.png") fresh eq_refl);
    reflexivity.
Defined.

End AnalyzerChecksEvaluated.

(** ** The narration tool checks its configuration first *)

Section NarrationChecks.
Context {RT : Runtime}.
Import JsonToVoice.

(** C10. In [json_to_voice] the configuration is checked before the
    input file. For every [json_path], existing or not: with the API key
    or the model missing the call raises the configuration error (which
    is not a [FileNotFoundError]) and touches nothing; a
    [FileNotFoundError] therefore only ever comes out with both values
    present; and with both present a [json_path] that does not exist is
    reported as such. *)
Theorem json_to_voice_checks_config_first
    (h : host) (json_path output_dir : pystr) (w : world) :
  (missing h (py "OPENAI_API_KEY") \/ missing h (py "OPENAI_MODEL") ->
   exists e,
     json_to_voice h json_path output_dir w = (Raise e, w) /\
     ConfigurationError e /\ ~ FileNotFound e)
  /\
  (forall e w',
     json_to_voice h json_path output_dir w = (Raise e, w') ->
     FileNotFound e ->
     truthy (getenv h (py "OPENAI_API_KEY")) = true /\
     truthy (getenv h (py "OPENAI_MODEL")) = true)
  /\
  (truthy (getenv h (py "OPENAI_API_KEY")) = true ->
   truthy (getenv h (py "OPENAI_MODEL")) = true ->
   exists_ (files w) json_path = false ->
   json_to_voice h json_path output_dir w
   = (Raise (mk_exn FileNotFoundError (py "JSON-файл не найден: " ++ json_path)),
      w)).
Proof.
  assert (Hmiss :
    missing h (py "OPENAI_API_KEY") \/ missing h (py "OPENAI_MODEL") ->
    exists e,
      json_to_voice h json_path output_dir w = (Raise e, w) /\
      ConfigurationError e /\ ~ FileNotFound e).
  { unfold missing, json_to_voice. intros [H|H].
    - rewrite H. simpl. eexists. split; [reflexivity|]. split.
      + split; [reflexivity|]. simpl. auto.
      + unfold FileNotFound. simpl. discriminate.
    - rewrite H. simpl.
      destruct (truthy (getenv h (py "OPENAI_API_KEY"))); simpl;
        (eexists; split; [reflexivity|]; split;
         [split; [reflexivity|]; simpl; auto
         |unfold FileNotFound; simpl; discriminate]). }
  split; [exact Hmiss|]. split.
  - intros e w' Hrun Hfnf.
    destruct (truthy (getenv h (py "OPENAI_API_KEY"))) eqn:Hk.
    + destruct (truthy (getenv h (py "OPENAI_MODEL"))) eqn:Hm; [auto|].
      destruct (Hmiss (or_intror Hm)) as (e0 & Hrun0 & _ & Hnot).
      rewrite Hrun0 in Hrun. inversion Hrun; subst. contradiction.
    + destruct (Hmiss (or_introl Hk)) as (e0 & Hrun0 & _ & Hnot).
      rewrite Hrun0 in Hrun. inversion Hrun; subst. contradiction.
  - intros Hk Hm Hno. unfold json_to_voice. rewrite Hk, Hm. simpl.
    unfold bind at 1. unfold load_json_result.
    unfold bind at 1. unfold os_path_exists. rewrite Hno. reflexivity.
Qed.

End NarrationChecks.

Section NarrationChecksEvaluated.
Import JsonToVoice Samples.
#[local] Existing Instance TextRuntime.runtime.

Lemma json_to_voice_checks_config_first_witness :
  (missing unconfigured (py "OPENAI_API_KEY") /\
   exists_ (files fresh) (py "nowhere.json") = false) /\
  exists e,
    json_to_voice unconfigured (py "nowhere.json") (py "output") fresh
    = (Raise e, fresh) /\
    ConfigurationError e /\ ~ FileNotFound e.
Proof.
  split; [split; reflexivity|].
  apply (json_to_voice_checks_config_first
           unconfigured (py "nowhere.json") (py "output") fresh).
  left. reflexivity.
Defined.

End NarrationChecksEvaluated.

(** ** What the analyzer sends and how it reads the answer *)

Section AnalyzerAnswer.
Context {RT : Runtime}.
Import JsonToVoice AnalyzeStamp.

Lemma sending_sending w a b : sending (sending w a) b = sending w (a ++ b).
Proof. unfold sending. simpl. rewrite <- app_assoc. reflexivity. Qed.

(** With key, model and a readable image, [analyze_stamp] creates one
    client, sends one request carrying the chosen MIME type and the
    encoded image, and validates the envelope of the answer. *)
Lemma analyze_stamp_reaches_service h image_path w key model data :
  getenv h (py "OPENAI_API_KEY") = Some key -> key <> [] ->
  getenv h (py "OPENAI_MODEL") = Some model -> model <> [] ->
  read_bytes (files w) image_path = Ok data ->
  let request :=
    analysis_request model (mime_type_of image_path) (b64encode data) in
  let w' := sending w [ClientCreated key; ChatRequest request] in
  analyze_stamp h image_path w
  = match chat_completions_create (openai h) request with
    | Ok response => (first_content empty_answer response, w')
    | Raise e => (Raise e, w')
    end.
Proof.
  intros Hk Hkne Hm Hmne Hread request w'.
  unfold analyze_stamp. rewrite Hk, Hm.
  destruct key as [|k0 key']; [congruence|].
  destruct model as [|m0 model']; [congruence|].
  cbn [truthy negb default from_option id].
  unfold bind at 1. unfold os_path_exists at 1.
  rewrite (read_bytes_exists _ _ _ Hread). cbn [negb].
  unfold bind at 1. unfold encode_image, bind at 1, open_rb_read.
  rewrite Hread. unfold ret at 1.
  unfold bind at 1. unfold OpenAI, emit at 1.
  unfold bind at 1. unfold chat_create, bind at 1, emit at 1, lift.
  fold request.
  assert (Hw : mk_world (files w)
                 ((network w ++ [ClientCreated (k0 :: key')])
                  ++ [ChatRequest request]) (stdout w) (stderr w) = w').
  { unfold w', sending. rewrite <- app_assoc. reflexivity. }
  destruct (chat_completions_create (openai h) request) as [response|e];
    cbn [files network stdout stderr]; rewrite Hw; [|reflexivity].
  unfold first_content, raise, ret.
  destruct (choices response) as [[|first rest]|]; try reflexivity.
  destruct (message_of first) as [m|]; [|reflexivity].
  destruct (negb (truthy (content m))); reflexivity.
Qed.

End AnalyzerAnswer.

Section EmptyAnswer.
Context {RT : Runtime}.
Import JsonToVoice AnalyzeStamp.

Lemma first_content_empty complaint r :
  empty_completion r ->
  exists msg,
    first_content complaint r = Raise (mk_exn ValueError msg) /\
    In msg [empty_choices; no_message; complaint].
Proof.
  unfold empty_completion, first_content.
  destruct (choices r) as [[|first rest]|].
  - intros _. eexists. split; [reflexivity|]. simpl. auto.
  - destruct (message_of first) as [m|].
    + intros ->. eexists. split; [reflexivity|]. simpl. auto.
    + intros _. eexists. split; [reflexivity|]. simpl. auto.
  - intros _. eexists. split; [reflexivity|]. simpl. auto.
Qed.

(** Handling a [ValueError] in [main]: one line on standard error, exit
    status 1, nothing else changes. *)
Lemma handlers_value_error result e w :
  isinstance e FileNotFoundError = false ->
  isinstance e ValueError = true ->
  handlers result e w
  = (Ok 1, complaining w [py "Ошибка конфигурации: " ++ str_of e]).
Proof. unfold handlers. intros -> ->. reflexivity. Qed.

Lemma handlers_keep_files result e w :
  files (snd (handlers result e w)) = files w.
Proof.
  unfold handlers.
  destruct (isinstance e FileNotFoundError); [reflexivity|].
  destruct (isinstance e ValueError); [reflexivity|].
  destruct (isinstance e JSONDecodeError); [|reflexivity].
  destruct result; reflexivity.
Qed.

Lemma handlers_exit_1 result e w : fst (handlers result e w) = Ok 1.
Proof.
  unfold handlers.
  destruct (isinstance e FileNotFoundError); [reflexivity|].
  destruct (isinstance e ValueError); [reflexivity|].
  destruct (isinstance e JSONDecodeError); [|reflexivity].
  destruct result; reflexivity.
Qed.

(** When [analyze_stamp] raises, [main] exits with status 1 and the file
    system is the one [analyze_stamp] left. *)
Lemma main_when_analysis_fails h image_path tts w :
  forall e w',
    analyze_stamp h image_path
      (printing w [py "Анализирую изображение: " ++ image_path])
    = (Raise e, w') ->
    fst (main h image_path tts w) = 1 /\
    files (snd (main h image_path tts w)) = files w \/
    fst (main h image_path tts w) = 1 /\
    files (snd (main h image_path tts w)) = files w'.
Proof.
  intros e w' Hrun. unfold main.
  rewrite bind_eq, print_eq.
  destruct (utf8_encode (py "Анализирую изображение: " ++ image_path)).
  - right. rewrite Hrun.
    pose proof (handlers_exit_1 None e w') as H1.
    pose proof (handlers_keep_files None e w') as H2.
    destruct (handlers None e w') as [r w2]. simpl in *. subst r. auto.
  - left.
    match goal with |- context [handlers None ?e0 w] =>
      pose proof (handlers_exit_1 None e0 w) as H1;
      pose proof (handlers_keep_files None e0 w) as H2;
      destruct (handlers None e0 w) as [r w2] end.
    simpl in *. subst r. auto.
Qed.

(** C7. When the analysis service answers with an empty list of choices,
    with a choice that has no message, or with a message without
    content, [analyze_stamp] raises the empty-response error, and
    neither it nor [main] (which then exits with status 1) writes any
    file. *)
Theorem empty_response_writes_nothing
    (h : host) (image_path : pystr) (tts : bool) (w : world)
    (key model : pystr) (data : bytes) (response : completion) :
  getenv h (py "OPENAI_API_KEY") = Some key -> key <> [] ->
  getenv h (py "OPENAI_MODEL") = Some model -> model <> [] ->
  read_bytes (files w) image_path = Ok data ->
  chat_completions_create (openai h)
    (analysis_request model (mime_type_of image_path) (b64encode data))
  = Ok response ->
  empty_completion response ->
  (exists e,
     fst (analyze_stamp h image_path w) = Raise e /\
     EmptyResponse e /\
     files (snd (analyze_stamp h image_path w)) = files w)
  /\ fst (main h image_path tts w) = 1
  /\ files (snd (main h image_path tts w)) = files w.
Proof.
  intros Hk Hkne Hm Hmne Hread Hans Hempty.
  destruct (first_content_empty empty_answer response Hempty)
    as (msg & Hfirst & Hmsg).
  assert (Hany : forall w0, files w0 = files w ->
            exists w1, analyze_stamp h image_path w0
                       = (Raise (mk_exn ValueError msg), w1)
                       /\ files w1 = files w).
  { intros w0 Hfs.
    rewrite (analyze_stamp_reaches_service h image_path w0 key model data);
      auto; [|rewrite Hfs; exact Hread].
    rewrite Hans, Hfirst. eexists. split; [reflexivity|]. exact Hfs. }
  split.
  - destruct (Hany w eq_refl) as (w1 & Hrun & Hfs). rewrite Hrun.
    exists (mk_exn ValueError msg). simpl. split; [reflexivity|].
    split; [|exact Hfs]. split; [reflexivity|].
    simpl in *. intuition.
  - destruct (Hany (printing w [py "Анализирую изображение: " ++ image_path])
                eq_refl) as (w1 & Hrun & Hfs).
    destruct (main_when_analysis_fails h image_path tts w _ _ Hrun)
      as [[H1 H2]|[H1 H2]]; split; auto; congruence.
Qed.

End EmptyAnswer.

Section EmptyAnswerEvaluated.
Import JsonToVoice AnalyzeStamp Samples.
#[local] Existing Instance TextRuntime.runtime.

Lemma empty_response_writes_nothing_witness :
  empty_completion (mk_completion (Some [])) /\
  (exists e,
     fst (analyze_stamp silent (py "stamp.png") fresh) = Raise e /\
     EmptyResponse e /\
     files (snd (analyze_stamp silent (py "stamp.png") fresh)) = files fresh)
  /\ fst (main silent (py "stamp.png") true fresh) = 1
  /\ files (snd (main silent (py "stamp.png") true fresh)) = files fresh.
Proof.
  split; [exact I|].
  apply (empty_response_writes_nothing silent (py "stamp.png") true fresh
           (py "sk-test") (py "gpt-4.1") [137; 80; 78; 71]
           (mk_completion (Some [])));
    try reflexivity; try discriminate; try exact I.
Defined.

End EmptyAnswerEvaluated.

(** ** An answer that is not JSON *)

Section MalformedAnswer.
Context {RT : Runtime}.
Import JsonToVoice AnalyzeStamp.

(** [json.JSONDecodeError] derives from [ValueError], and the clause for
    [ValueError] is written first: the clause for [JSONDecodeError],
    which would print the answer of the model, is never entered. *)
Lemma decode_error_handled_as_value_error result e w :
  cls e = JSONDecodeError ->
  handlers result e w
  = (Ok 1, complaining w [py "Ошибка конфигурации: " ++ str_of e]).
Proof.
  intros H. apply handlers_value_error; unfold isinstance; rewrite H;
    reflexivity.
Qed.

(** Whatever the analysis returned, if it does not parse, [main] exits
    with status 1, writes no file, and prints one line, the one of the
    [ValueError] clause. *)
Lemma main_malformed_answer h image_path tts w raw w1 e :
  (do! print (py "Анализирую изображение: " ++ image_path) in
   analyze_stamp h image_path) w = (Ok raw, w1) ->
  Json.loads raw = Raise e -> cls e = JSONDecodeError ->
  main h image_path tts w
  = (1, complaining w1 [py "Ошибка конфигурации: " ++ str_of e]).
Proof.
  intros Hrun Hloads Hcls. unfold main. rewrite Hrun.
  rewrite bind_eq. unfold persist. rewrite bind_eq. unfold lift.
  rewrite Hloads. rewrite decode_error_handled_as_value_error by exact Hcls.
  reflexivity.
Qed.

End MalformedAnswer.

Section MalformedAnswerEvaluated.
Import JsonToVoice AnalyzeStamp Samples.
#[local] Existing Instance TextRuntime.runtime.

(** C1, on the code. The service answers [not json]. [main] exits with
    status 1 and leaves the file system alone, but the failure is
    reported by the clause for [ValueError], as a configuration error:
    standard error holds that one line, and the answer of the model is
    nowhere in it. *)
Theorem malformed_answer_hides_the_raw_text :
  let run := main garbled (py "stamp.png") false fresh in
  Json.loads (py "not json")
  = Raise (mk_exn JSONDecodeError
             (py "Expecting value: line 1 column 1 (char 0)")) /\
  fst run = 1 /\
  files (snd run) = files fresh /\
  stderr (snd run)
  = [py "Ошибка конфигурации: Expecting value: line 1 column 1 (char 0)"] /\
  mentioned (py "not json") (stderr (snd run)) = false /\
  mentioned (py "Ответ модели") (stderr (snd run)) = false.
Proof. vm_compute. repeat split. Qed.

End MalformedAnswerEvaluated.

(** ** The MIME type of the image *)

Section MimeType.
Context {RT : Runtime}.
Import JsonToVoice AnalyzeStamp.

Lemma mime_types_other (ext : pystr) :
  ~ In ext [py ".jpg"; py ".jpeg"; py ".png"; py ".gif"; py ".webp"] ->
  mime_types !! ext = None.
Proof.
  intros Hnot. unfold mime_types. cbn [list_to_map foldr uncurry fst snd].
  rewrite !lookup_insert_ne; [apply lookup_empty|..];
    intros <-; apply Hnot; simpl; auto 6.
Qed.

(** C5. The MIME type sent with the image is chosen by the lower-cased
    suffix of the path: [.jpg] and [.jpeg] give [image/jpeg], [.png] gives
    [image/png], [.gif] gives [image/gif], [.webp] gives [image/webp], and
    every other suffix (or none) gives [image/jpeg]; the choice never
    fails. *)
Theorem mime_type_by_extension (image_path : pystr) :
  let ext := lower (suffix (Path_of image_path)) in
  (ext = py ".jpg" \/ ext = py ".jpeg" ->
   mime_type_of image_path = py "image/jpeg") /\
  (ext = py ".png" -> mime_type_of image_path = py "image/png") /\
  (ext = py ".gif" -> mime_type_of image_path = py "image/gif") /\
  (ext = py ".webp" -> mime_type_of image_path = py "image/webp") /\
  (~ In ext [py ".jpg"; py ".jpeg"; py ".png"; py ".gif"; py ".webp"] ->
   mime_type_of image_path = py "image/jpeg").
Proof.
  intros ext. unfold mime_type_of. fold ext.
  repeat split.
  - intros [-> | ->]; reflexivity.
  - intros ->. reflexivity.
  - intros ->. reflexivity.
  - intros ->. reflexivity.
  - intros Hnot. rewrite (mime_types_other ext Hnot). reflexivity.
Qed.

(** Lower-casing is the ASCII one on ASCII text, so the suffix is matched
    whatever the case of its letters. *)
Lemma lower_ascii (s : pystr) :
  Forall (fun c => between 0 127 c = true) s -> lower s = map ascii_lower s.
Proof.
  unfold lower. generalize s at 2 as whole.
  assert (G : forall (t whole : pystr) (n : nat),
             Forall (fun c => between 0 127 c = true) t ->
             concat (imap (fun i c =>
                             if between 0 127 c then [ascii_lower c]
                             else lower_nonascii whole (n + i)) t)
             = map ascii_lower t).
  { induction t as [|c t IH]; intros whole n Hall; [reflexivity|].
    inversion Hall as [|? ? Hc Ht]; subst.
    cbn [imap concat map]. rewrite Hc.
    rewrite <- (IH whole (S n) Ht). cbn [app]. f_equal. f_equal.
    apply imap_ext. intros i x _. simpl.
    replace (n + S i)%nat with (S (n + i)) by lia. reflexivity. }
  intros whole Hall. apply (G s whole 0%nat Hall).
Qed.

End MimeType.

Section MimeTypeEvaluated.
Import JsonToVoice AnalyzeStamp Samples.
#[local] Existing Instance TextRuntime.runtime.

Lemma mime_type_by_extension_witness :
  lower (suffix (Path_of (py "scans/1871/STAMP.PnG"))) = py ".png" /\
  mime_type_of (py "scans/1871/STAMP.PnG") = py "image/png".
Proof.
  split; [reflexivity|].
  apply (mime_type_by_extension (py "scans/1871/STAMP.PnG")). reflexivity.
Defined.

Example mime_jpeg_upper : mime_type_of (py "a/b/STAMP.JPG") = py "image/jpeg".
Proof. reflexivity. Qed.

Example mime_webp : mime_type_of (py "/tmp/x.y.WebP") = py "image/webp".
Proof. reflexivity. Qed.

Example mime_gif : mime_type_of (py "stamp.gif") = py "image/gif".
Proof. reflexivity. Qed.

Example mime_unknown_extension : mime_type_of (py "stamp.tiff") = py "image/jpeg".
Proof. reflexivity. Qed.

Example mime_no_extension : mime_type_of (py "stamp") = py "image/jpeg".
Proof. reflexivity. Qed.

(** A leading dot opens a hidden file, not a suffix. *)
Example mime_hidden_file : mime_type_of (py "album/.png") = py "image/jpeg".
Proof. reflexivity. Qed.

(** The suffix is the one of the last component only. *)
Example mime_directory_with_dot : mime_type_of (py "album.png/stamp") = py "image/jpeg".
Proof. reflexivity. Qed.

End MimeTypeEvaluated.

(** ** The file system *)

Section FileSystemFacts.

Lemma same_dirs_refl fs : same_dirs fs fs.
Proof. split; [reflexivity|]. intros loc. reflexivity. Qed.

Lemma same_dirs_trans a b c : same_dirs a b -> same_dirs b c -> same_dirs a c.
Proof.
  intros [Hab Hab'] [Hbc Hbc']. split; [congruence|].
  intros loc. rewrite Hab'. apply Hbc'.
Qed.

(** A walk that succeeds only ever looks at directories, so it succeeds
    alike wherever the directories are the same. *)
Lemma walk_same_dirs a b names :
  same_dirs a b ->
  forall cur loc, walk a cur names = inr loc -> walk b cur names = inr loc.
Proof.
  intros [_ Hdirs]. induction names as [|n rest IH]; intros cur loc Hwalk.
  - exact Hwalk.
  - cbn [walk] in *.
    destruct (node_at a cur) as [[|d]|] eqn:Hcur; try discriminate.
    apply Hdirs in Hcur. rewrite Hcur.
    destruct (str_eqb n [] || str_eqb n [chr "."]); [auto|].
    destruct (str_eqb n [chr "."; chr "."]); auto.
Qed.

Lemma resolve_same_dirs a b path loc :
  same_dirs a b -> resolve a path = inr loc -> resolve b path = inr loc.
Proof.
  intros Hsame. unfold resolve. destruct path as [|c path]; [discriminate|].
  rewrite <- (proj1 Hsame). apply walk_same_dirs. exact Hsame.
Qed.

(** Storing a regular file where no directory was changes no directory. *)
Lemma same_dirs_store_file fs loc d :
  node_at fs loc <> Some Dir ->
  same_dirs fs (mk_fs (<[loc := File d]> (nodes fs)) (cwd fs)).
Proof.
  intros Hnot. split; [reflexivity|]. intros l.
  destruct l as [|x l]; [reflexivity|].
  unfold node_at. cbn [nodes].
  destruct (decide (loc = x :: l)) as [->|Hne].
  - rewrite lookup_insert_eq. split; [|discriminate].
    intros H. exfalso. apply Hnot. exact H.
  - rewrite lookup_insert_ne by exact Hne. reflexivity.
Qed.

(** What a successful [open] for writing did. *)
Lemma open_w_ok fs path loc fs' :
  open_w fs path = (Ok loc, fs') ->
  refuse path = None /\ resolve fs path = inr loc /\
  node_at fs loc <> Some Dir /\ loc <> [] /\
  fs' = mk_fs (<[loc := File []]> (nodes fs)) (cwd fs).
Proof.
  unfold open_w. destruct (refuse path); [discriminate|].
  destruct (resolve fs path) as [e|l]; [discriminate|].
  destruct (node_at fs l) as [[|d]|] eqn:Hnode; try discriminate;
    intros H; inversion H; subst; repeat split; try congruence;
    intros ->; discriminate.
Qed.

(** A failed [open] for writing changes nothing. *)
Lemma open_w_raise fs path e fs' : open_w fs path = (Raise e, fs') -> fs' = fs.
Proof.
  unfold open_w. destruct (refuse path); [congruence|].
  destruct (resolve fs path) as [e'|l]; [congruence|].
  destruct (node_at fs l) as [[|d]|]; congruence.
Qed.

Lemma append_fresh fs loc d :
  append (mk_fs (<[loc := File []]> (nodes fs)) (cwd fs)) loc d
  = mk_fs (<[loc := File d]> (nodes fs)) (cwd fs).
Proof.
  unfold append. cbn [nodes cwd]. rewrite lookup_insert_eq.
  rewrite insert_insert_eq. reflexivity.
Qed.

Lemma append_stored fs loc old d :
  append (mk_fs (<[loc := File old]> (nodes fs)) (cwd fs)) loc d
  = mk_fs (<[loc := File (old ++ d)]> (nodes fs)) (cwd fs).
Proof.
  unfold append. cbn [nodes cwd]. rewrite lookup_insert_eq.
  rewrite insert_insert_eq. reflexivity.
Qed.

(** Reading back through the path a file was opened with. *)
Lemma read_back fs path loc d :
  refuse path = None -> resolve fs path = inr loc ->
  node_at fs loc <> Some Dir -> loc <> [] ->
  forall fs2,
    same_dirs (mk_fs (<[loc := File d]> (nodes fs)) (cwd fs)) fs2 ->
    nodes fs2 !! loc = Some (File d) ->
    read_bytes fs2 path = Ok d.
Proof.
  intros Href Hres Hnot Hne fs2 Hsame Hnode.
  unfold read_bytes. rewrite Href.
  rewrite (resolve_same_dirs fs fs2 path loc); [| |exact Hres].
  - destruct loc as [|x l]; [congruence|]. cbn [node_at]. rewrite Hnode.
    reflexivity.
  - eapply same_dirs_trans; [|exact Hsame].
    apply same_dirs_store_file. exact Hnot.
Qed.

End FileSystemFacts.

(** ** Computations that only read *)

Section KeepsFiles.
Context {RT : Runtime}.
Import JsonToVoice AnalyzeStamp.

Lemma keeps_ret {A} (a : A) : keeps_files (ret a).
Proof. intros w. reflexivity. Qed.

Lemma keeps_raise {A} c msg : keeps_files (@raise A c msg).
Proof. intros w. reflexivity. Qed.

Lemma keeps_lift {A} (r : result A) : keeps_files (lift r).
Proof. intros w. reflexivity. Qed.

Lemma keeps_emit ev : keeps_files (emit ev).
Proof. intros w. reflexivity. Qed.

Lemma keeps_print s : keeps_files (print s).
Proof. intros w. unfold print. destruct (utf8_encode s); reflexivity. Qed.

Lemma keeps_eprint s : keeps_files (eprint s).
Proof. intros w. reflexivity. Qed.

Lemma keeps_bind {A B} (m : M A) (k : A -> M B) :
  keeps_files m -> (forall a, keeps_files (k a)) -> keeps_files (bind m k).
Proof.
  intros Hm Hk w. rewrite bind_eq. specialize (Hm w).
  destruct (m w) as [[a|e] w1]; simpl in *; [|exact Hm].
  rewrite Hk. exact Hm.
Qed.

Lemma keeps_exists path : keeps_files (os_path_exists path).
Proof. intros w. reflexivity. Qed.

Lemma keeps_read path : keeps_files (open_rb_read path).
Proof. intros w. reflexivity. Qed.

Lemma keeps_read_text path : keeps_files (open_r_read path).
Proof.
  unfold open_r_read. apply keeps_bind; [apply keeps_read|].
  intros d. destruct (utf8_decode d); [apply keeps_ret|apply keeps_raise].
Qed.

Lemma keeps_load json_path : keeps_files (load_json_result json_path).
Proof.
  unfold load_json_result. apply keeps_bind; [apply keeps_exists|].
  intros found. destruct (negb found); [apply keeps_raise|].
  apply keeps_bind; [apply keeps_read_text|]. intros t. apply keeps_lift.
Qed.

Lemma keeps_chat h r : keeps_files (chat_create h r).
Proof.
  unfold chat_create. apply keeps_bind; [apply keeps_emit|].
  intros _. apply keeps_lift.
Qed.

Lemma keeps_voice_script h data key model :
  keeps_files (generate_voice_script h data key model).
Proof.
  unfold generate_voice_script.
  destruct (negb (truthy key)); [apply keeps_raise|].
  destruct (negb (truthy model)); [apply keeps_raise|].
  apply keeps_bind; [apply keeps_emit|]. intros _.
  apply keeps_bind; [apply keeps_chat|]. intros r.
  destruct (choices r) as [[|first rest]|]; try apply keeps_raise.
  destruct (message_of first) as [m|]; [|apply keeps_raise].
  destruct (negb (truthy (content m))); [apply keeps_raise|apply keeps_ret].
Qed.

Lemma keeps_audio h script key tts_model tts_voice tts_format :
  keeps_files (generate_audio h script key tts_model tts_voice tts_format).
Proof.
  unfold generate_audio.
  destruct (negb (truthy key)); [apply keeps_raise|].
  destruct (negb (truthy (Some tts_model))); [apply keeps_raise|].
  destruct (negb (truthy (Some tts_voice))); [apply keeps_raise|].
  apply keeps_bind; [apply keeps_emit|]. intros _.
  apply keeps_bind.
  - unfold speech_create. apply keeps_bind; [apply keeps_emit|].
    intros _. apply keeps_lift.
  - intros r. destruct (audio_content r) as [[|b d]|];
      try apply keeps_raise. apply keeps_ret.
Qed.

(** Everything [json_to_voice] does before it writes leaves the file
    system alone. *)
Lemma keeps_prepare h json_path : keeps_files (prepare h json_path).
Proof.
  unfold prepare.
  destruct (negb (truthy (getenv h (py "OPENAI_API_KEY"))));
    [apply keeps_raise|].
  destruct (negb (truthy (getenv h (py "OPENAI_MODEL"))));
    [apply keeps_raise|].
  apply keeps_bind; [apply keeps_load|]. intros data.
  apply keeps_bind; [apply keeps_voice_script|]. intros script.
  apply keeps_bind; [apply keeps_audio|]. intros audio. apply keeps_ret.
Qed.

Lemma keeps_analyze h image_path : keeps_files (analyze_stamp h image_path).
Proof.
  unfold analyze_stamp.
  destruct (negb (truthy (getenv h (py "OPENAI_API_KEY"))));
    [apply keeps_raise|].
  destruct (negb (truthy (getenv h (py "OPENAI_MODEL"))));
    [apply keeps_raise|].
  apply keeps_bind; [apply keeps_exists|]. intros found.
  destruct (negb found); [apply keeps_raise|].
  apply keeps_bind.
  { unfold encode_image. apply keeps_bind; [apply keeps_read|].
    intros d. apply keeps_ret. }
  intros b64. apply keeps_bind; [apply keeps_emit|]. intros _.
  apply keeps_bind; [apply keeps_chat|]. intros r.
  destruct (choices r) as [[|first rest]|]; try apply keeps_raise.
  destruct (message_of first) as [m|]; [|apply keeps_raise].
  destruct (negb (truthy (content m))); [apply keeps_raise|apply keeps_ret].
Qed.

(** [json_to_voice] is [prepare] followed by [store_voice]. *)
Lemma json_to_voice_stages h json_path output_dir w :
  json_to_voice h json_path output_dir w
  = (let! (voice_script, audio_data) := prepare h json_path in
     store_voice h output_dir voice_script audio_data) w.
Proof.
  unfold json_to_voice, prepare.
  destruct (negb (truthy (getenv h (py "OPENAI_API_KEY")))); [reflexivity|].
  destruct (negb (truthy (getenv h (py "OPENAI_MODEL")))); [reflexivity|].
  rewrite !bind_eq.
  destruct (load_json_result json_path w) as [[data|e] w1]; [|reflexivity].
  rewrite !bind_eq.
  destruct (generate_voice_script h data _ _ w1) as [[script|e] w2];
    [|reflexivity].
  rewrite !bind_eq.
  destruct (generate_audio h script _ _ _ _ w2) as [[audio|e] w3];
    reflexivity.
Qed.

(** When [prepare] raises, so does [json_to_voice], with the same
    exception and the same world, whose files are untouched. *)
Lemma json_to_voice_when_prepare_raises h json_path output_dir w e w' :
  prepare h json_path w = (Raise e, w') ->
  json_to_voice h json_path output_dir w = (Raise e, w') /\
  files w' = files w.
Proof.
  intros Hprep. rewrite json_to_voice_stages, bind_eq, Hprep.
  split; [reflexivity|].
  pose proof (keeps_prepare h json_path w) as Hk. rewrite Hprep in Hk.
  exact Hk.
Qed.

End KeepsFiles.

(** ** The audio file and its name *)

Section AudioFile.
Context {RT : Runtime}.
Import JsonToVoice AnalyzeStamp.

Lemma bind_inv_ok {A B} (m : M A) (k : A -> M B) w b w' :
  bind m k w = (Ok b, w') ->
  exists a w1, m w = (Ok a, w1) /\ k a w1 = (Ok b, w').
Proof.
  rewrite bind_eq. destruct (m w) as [[a|e] w1]; [|discriminate].
  intros H. exists a, w1. auto.
Qed.

(** Opening a file for writing and writing bytes to it. *)
Lemma write_file_bytes path d w w' :
  (let! f := open_for_writing path in write_bytes f d) w = (Ok tt, w') ->
  read_bytes (files w') path = Ok d /\
  network w' = network w /\ stdout w' = stdout w /\ stderr w' = stderr w /\
  same_dirs (files w) (files w').
Proof.
  intros Hrun. apply bind_inv_ok in Hrun as (loc & w1 & Hopen & Hwrite).
  unfold open_for_writing in Hopen.
  destruct (open_w (files w) path) as [r fs1] eqn:Hw.
  inversion Hopen; subst r w1; clear Hopen.
  apply open_w_ok in Hw as (Href & Hres & Hnot & Hne & ->).
  unfold write_bytes in Hwrite. cbn [files network stdout stderr] in Hwrite.
  rewrite append_fresh in Hwrite. inversion Hwrite; subst w'; clear Hwrite.
  cbn [files network stdout stderr].
  split; [|split; [reflexivity|split; [reflexivity|split; [reflexivity|]]]].
  - eapply read_back; eauto using same_dirs_refl.
    cbn [nodes]. apply lookup_insert_eq.
  - apply same_dirs_store_file. exact Hnot.
Qed.

Lemma generate_audio_ok h script key tts_model tts_voice tts_format w audio w' :
  generate_audio h script key tts_model tts_voice tts_format w = (Ok audio, w') ->
  let request := mk_speech tts_model tts_voice script tts_format in
  (exists r, audio_speech_create (openai h) request = Ok r /\
             audio_content r = Some audio) /\
  In (SpeechRequest request) (network w').
Proof.
  unfold generate_audio.
  destruct (negb (truthy key)); [discriminate|].
  destruct (negb (truthy (Some tts_model))); [discriminate|].
  destruct (negb (truthy (Some tts_voice))); [discriminate|].
  intros Hrun.
  apply bind_inv_ok in Hrun as ([] & w1 & _ & Hrun).
  apply bind_inv_ok in Hrun as (r & w2 & Hcall & Hrun).
  unfold speech_create in Hcall.
  apply bind_inv_ok in Hcall as ([] & w3 & Hemit & Hcall).
  unfold emit in Hemit. inversion Hemit; subst w3; clear Hemit.
  unfold lift in Hcall. inversion Hcall as [[Hr Hw2]]; clear Hcall.
  destruct (audio_content r) as [[|b d]|] eqn:Haudio; try discriminate.
  inversion Hrun; subst audio w'; clear Hrun.
  split.
  - exists r. auto.
  - rewrite <- Hw2. cbn [network]. apply in_or_app. right. left. reflexivity.
Qed.





End AudioFile.

Section AudioFileEvaluated.
Import JsonToVoice AnalyzeStamp Samples.
#[local] Existing Instance TextRuntime.runtime.



End AudioFileEvaluated.

(** ** The optional narration branch *)

Section NarrationBranch.
Context {RT : Runtime}.
Import JsonToVoice AnalyzeStamp.

Lemma announcement_prints w :
  print ([10] ++ py "Генерирую голосовое описание...") w
  = (Ok tt, printing w [[10] ++ py "Генерирую голосовое описание..."]).
Proof.
  rewrite print_eq.
  destruct (utf8_encode ([10] ++ py "Генерирую голосовое описание...")) eqn:E;
    [reflexivity|]. vm_compute in E. discriminate E.
Qed.

(** C2, as the code has it. With [--tts], once the analysis has succeeded
    and the record is persisted:
    - whatever exception the narration branch raises, [main] reports it as
      a warning on standard error and exits with status 0;
    - if the exception comes from the stages that precede the writing (the
      loading of the record, the narration, for instance an empty content,
      or the synthesis), the file system is the one the persister left:
      [result.json] stays as persisted, and neither [voice_script.txt] nor
      an audio file is produced. *)
Theorem narration_failure_is_a_warning
    (h : host) (image_path result : pystr) (w w1 w2 : world) (v : Json.value) :
  (do! print (py "Анализирую изображение: " ++ image_path) in
   analyze_stamp h image_path) w = (Ok result, w1) ->
  persist result w1 = (Ok v, w2) ->
  (forall e w3,
     narrate_body h w2 = (Raise e, w3) ->
     main h image_path true w = (0, complaining w3 [warning e]))
  /\
  (forall e w3,
     prepare h (Path_str output_file)
       (printing w2 [[10] ++ py "Генерирую голосовое описание..."])
     = (Raise e, w3) ->
     main h image_path true w = (0, complaining w3 [warning e]) /\
     files w3 = files w2 /\
     files (snd (main h image_path true w)) = files w2).
Proof.
  intros Hrun Hpersist.
  assert (Hwarn : forall e w3,
            narrate_body h w2 = (Raise e, w3) ->
            main h image_path true w = (0, complaining w3 [warning e])).
  { intros e w3 Hbody. unfold main. rewrite Hrun.
    rewrite bind_eq, Hpersist. unfold narrate, try_except. rewrite Hbody.
    rewrite every_class_is_an_exception. reflexivity. }
  split; [exact Hwarn|].
  intros e w3 Hprep.
  destruct (json_to_voice_when_prepare_raises h (Path_str output_file)
              (Path_str output_dir) _ e w3 Hprep) as [Hvoice Hfiles].
  assert (Hbody : narrate_body h w2 = (Raise e, w3)).
  { unfold narrate_body. rewrite bind_eq, announcement_prints.
    rewrite bind_eq, Hvoice. reflexivity. }
  rewrite (Hwarn e w3 Hbody). split; [reflexivity|].
  split; exact Hfiles.
Qed.

End NarrationBranch.

Section NarrationBranchEvaluated.
Import JsonToVoice AnalyzeStamp Samples.
#[local] Existing Instance TextRuntime.runtime.

(** C2 as stated does not hold for every failure of the branch. With a
    directory standing at [output/result.mp3], the narration and the
    synthesis succeed, [voice_script.txt] is written, and opening the audio
    file fails: the run ends with the warning and exit status 0, and
    [voice_script.txt] has been produced. *)
Lemma voice_script_outlives_a_failed_audio_write :
  ~ (forall (h : host) (image_path : pystr) (w : world),
        let run := main h image_path true w in
        fst run = 0 ->
        mentioned (py "Предупреждение") (stderr (snd run)) = true ->
        exists_ (files w) (py "output/voice_script.txt") = false ->
        exists_ (files (snd run)) (py "output/voice_script.txt") = false).
Proof.
  intros claim.
  specialize (claim (narrator None) (py "stamp.png") cluttered).
  cbv zeta in claim.
  assert (H : exists_ (files (snd (main (narrator None) (py "stamp.png") true
                                     cluttered)))
                (py "output/voice_script.txt") = true)
    by (vm_compute; reflexivity).
  rewrite claim in H; [discriminate H|vm_compute; reflexivity..].
Qed.

Lemma narration_failure_is_a_warning_witness :
  let w1 := snd ((do! print (py "Анализирую изображение: " ++ py "stamp.png") in
                  analyze_stamp speechless (py "stamp.png")) fresh) in
  let w2 := snd (persist record_text w1) in
  let run := main speechless (py "stamp.png") true fresh in
  fst run = 0 /\
  stderr (snd run) = [warning (mk_exn ValueError empty_script)] /\
  files (snd run) = files w2 /\
  exists_ (files (snd run)) (py "output/result.json") = true /\
  exists_ (files (snd run)) (py "output/voice_script.txt") = false /\
  exists_ (files (snd run)) (py "output/result.mp3") = false.
Proof.
  intros w1 w2 run.
  pose (v := match fst (persist record_text w1) with
             | Ok v => v
             | Raise _ => Json.PyNone
             end).
  pose (w3 := snd (prepare speechless (Path_str output_file)
                     (printing w2 [[10] ++ py "Генерирую голосовое описание..."]))).
  destruct (narration_failure_is_a_warning speechless (py "stamp.png")
              record_text fresh w1 w2 v) as [_ Hprep].
  { vm_compute. reflexivity. }
  { vm_compute. reflexivity. }
  destruct (Hprep (mk_exn ValueError empty_script) w3) as (Hmain & _ & Hfiles).
  { vm_compute. reflexivity. }
  fold run in Hmain, Hfiles.
  split; [rewrite Hmain; reflexivity|].
  split; [rewrite Hmain; vm_compute; reflexivity|].
  split; [exact Hfiles|].
  rewrite Hfiles. repeat split; vm_compute; reflexivity.
Defined.

End NarrationBranchEvaluated.

(** ** The UTF-8 codec *)

Section Utf8.

Lemma between_true lo hi x : between lo hi x = true <-> lo <= x <= hi.
Proof. unfold between. rewrite andb_true_iff, !Z.leb_le. tauto. Qed.

Lemma between_false lo hi x : between lo hi x = false <-> x < lo \/ hi < x.
Proof. unfold between. rewrite andb_false_iff, !Z.leb_gt. tauto. Qed.

Ltac ranges :=
  repeat match goal with
    | H : between _ _ _ = true |- _ => apply between_true in H
    | H : between _ _ _ = false |- _ => apply between_false in H
    | H : (_ <? _) = true |- _ => apply Z.ltb_lt in H
    | H : (_ <? _) = false |- _ => apply Z.ltb_ge in H
    | H : (_ =? _) = true |- _ => apply Z.eqb_eq in H
    | H : (_ =? _) = false |- _ => apply Z.eqb_neq in H
    end.

Ltac decide_between :=
  match goal with
  | |- context [between ?lo ?hi ?x] =>
      let E := fresh "E" in
      destruct (between lo hi x) eqn:E
  | |- context [?a =? ?b] =>
      let E := fresh "E" in
      destruct (a =? b) eqn:E
  end.

(** Decoding undoes the encoding of one code point. *)
Lemma utf8_decode_char c b rest :
  utf8_encode_char c = Some b ->
  utf8_decode (b ++ rest) = cons c <$> utf8_decode rest.
Proof.
  unfold utf8_encode_char, is_surrogate.
  destruct (c <? 0) eqn:H0; [discriminate|].
  destruct (c <? 128) eqn:H1.
  { intros [= <-]. cbn [app utf8_decode].
    replace (between 0 127 c) with true; [reflexivity|].
    symmetry. apply between_true. ranges. lia. }
  destruct (c <? 2048) eqn:H2.
  { intros [= <-]. ranges. cbn [app utf8_decode].
    pose proof (Z.div_mod c 64 ltac:(lia)) as Hdm.
    pose proof (Z.mod_pos_bound c 64 ltac:(lia)) as Hm.
    assert (Hq : 2 <= c / 64 <= 31) by lia.
    replace (between 0 127 (192 + c / 64)) with false
      by (symmetry; apply between_false; lia).
    replace (between 194 223 (192 + c / 64)) with true
      by (symmetry; apply between_true; lia).
    unfold is_cont.
    replace (between 128 191 (128 + c mod 64)) with true
      by (symmetry; apply between_true; lia).
    replace ((192 + c / 64 - 192) * 64 + (128 + c mod 64 - 128)) with c by lia.
    reflexivity. }
  destruct (c <? 65536) eqn:H3.
  { destruct (between 55296 57343 c) eqn:Hs; [discriminate|].
    intros [= <-]. ranges. cbn [app utf8_decode].
    pose proof (Z.div_mod c 64 ltac:(lia)) as Hdm.
    pose proof (Z.mod_pos_bound c 64 ltac:(lia)) as Hm.
    pose proof (Z.div_mod (c / 64) 64 ltac:(lia)) as Hdm2.
    pose proof (Z.mod_pos_bound (c / 64) 64 ltac:(lia)) as Hm2.
    assert (Hqq : c / 4096 = c / 64 / 64)
      by (rewrite Z.div_div by lia; reflexivity).
    assert (Hq : 0 <= c / 4096 <= 15) by lia.
    replace (between 0 127 (224 + c / 4096)) with false
      by (symmetry; apply between_false; lia).
    replace (between 194 223 (224 + c / 4096)) with false
      by (symmetry; apply between_false; lia).
    replace (between 224 239 (224 + c / 4096)) with true
      by (symmetry; apply between_true; lia).
    unfold is_cont.
    replace (between 128 191 (128 + c mod 64)) with true
      by (symmetry; apply between_true; lia).
    replace (between (if 224 + c / 4096 =? 224 then 160 else 128)
               (if 224 + c / 4096 =? 237 then 159 else 191)
               (128 + (c / 64) mod 64)) with true.
    2:{ symmetry. apply between_true.
        destruct (224 + c / 4096 =? 224) eqn:Ea;
          destruct (224 + c / 4096 =? 237) eqn:Eb; ranges; lia. }
    cbn [andb].
    replace ((224 + c / 4096 - 224) * 4096 + (128 + (c / 64) mod 64 - 128) * 64
             + (128 + c mod 64 - 128)) with c by lia.
    reflexivity. }
  destruct (c <? 1114112) eqn:H4; [|discriminate].
  intros [= <-]. ranges. cbn [app utf8_decode].
  assert (Hqq : c / 4096 = c / 64 / 64)
    by (rewrite Z.div_div by lia; reflexivity).
  assert (Hqqq : c / 262144 = c / 64 / 64 / 64)
    by (rewrite !Z.div_div by lia; reflexivity).
  rewrite Hqqq, Hqq.
  pose proof (Z.div_mod c 64 ltac:(lia)) as Hdm.
  pose proof (Z.mod_pos_bound c 64 ltac:(lia)) as Hm.
  pose proof (Z.div_mod (c / 64) 64 ltac:(lia)) as Hdm2.
  pose proof (Z.mod_pos_bound (c / 64) 64 ltac:(lia)) as Hm2.
  pose proof (Z.div_mod (c / 64 / 64) 64 ltac:(lia)) as Hdm3.
  pose proof (Z.mod_pos_bound (c / 64 / 64) 64 ltac:(lia)) as Hm3.
  assert (Hq : 0 <= c / 64 / 64 / 64 <= 4) by lia.
  unfold is_cont.
  destruct (240 + c / 64 / 64 / 64 =? 240) eqn:Ea;
    destruct (240 + c / 64 / 64 / 64 =? 244) eqn:Eb; ranges;
    try (exfalso; lia);
    repeat match goal with
      | |- context [between ?lo ?hi ?x] =>
          first [ replace (between lo hi x) with true
                    by (symmetry; apply between_true; lia)
                | replace (between lo hi x) with false
                    by (symmetry; apply between_false; lia) ]
      end;
    cbn [andb];
    match goal with
    | |- cons ?v <$> _ = _ => replace v with c by lia
    end; reflexivity.
Qed.

(** Decoding undoes encoding. *)
Lemma utf8_decode_encode s d : utf8_encode s = Some d -> utf8_decode d = Some s.
Proof.
  revert d. induction s as [|c s IH]; intros d.
  - intros [= <-]. reflexivity.
  - cbn [utf8_encode].
    destruct (utf8_encode_char c) as [b|] eqn:Hc; [|discriminate].
    destruct (utf8_encode s) as [bs|] eqn:Hs; [|discriminate].
    intros [= <-]. rewrite (utf8_decode_char c b bs Hc).
    rewrite (IH bs eq_refl). reflexivity.
Qed.

Lemma utf8_encode_app a b da db :
  utf8_encode a = Some da -> utf8_encode b = Some db ->
  utf8_encode (a ++ b) = Some (da ++ db).
Proof.
  revert da. induction a as [|c a IH]; intros da.
  - intros [= <-] Hb. exact Hb.
  - cbn [utf8_encode app].
    destruct (utf8_encode_char c) as [x|]; [|discriminate].
    destruct (utf8_encode a) as [y|]; [|discriminate].
    intros [= <-] Hb. rewrite (IH y eq_refl Hb). rewrite app_assoc. reflexivity.
Qed.

(** A text without carriage returns is read as it is. *)
Lemma universal_newlines_id s : ~ In 13 s -> universal_newlines s = s.
Proof.
  induction s as [|c s IH]; intros Hnot; [reflexivity|].
  assert (Hne : c <> 13) by (intros ->; apply Hnot; left; reflexivity).
  assert (Hs : universal_newlines s = s)
    by (apply IH; intros H; apply Hnot; right; exact H).
  cbn [universal_newlines].
  destruct c as [|p|p]; try (rewrite Hs; reflexivity).
  do 4 (try destruct p as [p|p|]); try (rewrite Hs; reflexivity).
  congruence.
Qed.

End Utf8.

(** ** The encoder writes the persisted format *)

Section Encoder.
Context {RT : Runtime}.
Import Json.

(** Induction over values, with the hypothesis for every element of a
    list and every value of a dict. *)
Lemma value_induction (P : value -> Prop) :
  P PyNone -> (forall b, P (PyBool b)) -> (forall z, P (PyInt z)) ->
  (forall x, P (PyFloat x)) -> (forall s, P (PyStr s)) ->
  (forall l, Forall P l -> P (PyList l)) ->
  (forall d, Forall (fun kv => P (snd kv)) d -> P (PyDict d)) ->
  forall v, P v.
Proof.
  intros Hnone Hbool Hint Hfloat Hstr Hlist Hdict.
  fix IH 1. intros [ | b | z | x | s | l | d ].
  - exact Hnone.
  - apply Hbool.
  - apply Hint.
  - apply Hfloat.
  - apply Hstr.
  - apply Hlist. induction l as [|v l IHl]; constructor; [apply IH|exact IHl].
  - apply Hdict. induction d as [|[k v] d IHd]; constructor;
      [apply IH|exact IHd].
Qed.

Lemma two_spaces n : concat (replicate n indent_unit) = replicate (2 * n) 32.
Proof.
  induction n as [|n IH]; [reflexivity|].
  replace (2 * S n)%nat with (S (S (2 * n))) by lia.
  cbn [replicate concat]. rewrite IH. reflexivity.
Qed.

Lemma newline_indent_line_break level : newline_indent level = line_break level.
Proof. unfold newline_indent, line_break. rewrite two_spaces. reflexivity. Qed.

(** The encoder's table leaves alone every code point that is not the
    quote, the backslash or a control character; in particular everything
    outside ASCII. *)
Lemma escape_char_plain c : needs_escape c = false -> escape_char c = [c].
Proof.
  unfold needs_escape, escape_char. intros H.
  apply orb_false_iff in H as [H Hctl]. apply orb_false_iff in H as [Hq Hb].
  rewrite Hb, Hq.
  destruct (c =? 8) eqn:E8;
    [apply Z.eqb_eq in E8; subst; discriminate Hctl|].
  destruct (c =? 12) eqn:E12;
    [apply Z.eqb_eq in E12; subst; discriminate Hctl|].
  destruct (c =? 10) eqn:E10;
    [apply Z.eqb_eq in E10; subst; discriminate Hctl|].
  destruct (c =? 13) eqn:E13;
    [apply Z.eqb_eq in E13; subst; discriminate Hctl|].
  destruct (c =? 9) eqn:E9;
    [apply Z.eqb_eq in E9; subst; discriminate Hctl|].
  rewrite Hctl. reflexivity.
Qed.

Lemma non_ascii_needs_no_escape c : 128 <= c -> needs_escape c = false.
Proof.
  intros H. unfold needs_escape.
  rewrite !orb_false_iff. repeat split.
  - apply Z.eqb_neq. lia.
  - apply Z.eqb_neq. unfold chr. simpl. lia.
  - apply between_false. lia.
Qed.

Lemma encode_basestring_quote_string s : encode_basestring s = quote_string s.
Proof.
  unfold encode_basestring, quote_string, escaped. do 3 f_equal.
  apply map_ext. intros c.
  destruct (needs_escape c) eqn:E; [reflexivity|apply escape_char_plain, E].
Qed.

Lemma atom_some v t level :
  atom v = Some t -> iterencode v level = [t] /\ pretty level v = t.
Proof.
  destruct v as [ | [|] | z | x | s | l | d ]; cbn [atom]; try discriminate;
    intros [= <-]; (split; [reflexivity|]); try reflexivity.
  cbn [pretty]. symmetry. apply encode_basestring_quote_string.
Qed.

Lemma list_items_text (enc : value -> list pystr) (txt : value -> pystr)
    (sep : pystr) (l : list value) (buf : pystr) :
  Forall (fun v => match atom v with
                   | Some t => txt v = t
                   | None => concat (enc v) = txt v
                   end) l ->
  concat (list_items enc sep l buf)
  = match l with
    | [] => []
    | v :: l' => buf ++ txt v ++ concat (map (fun y => sep ++ txt y) l')
    end.
Proof.
  revert buf. induction l as [|v l IH]; intros buf Hall; [reflexivity|].
  inversion Hall as [|? ? Hv Hl]; subst.
  cbn [list_items]. rewrite concat_app, (IH sep Hl).
  assert (Hhead : concat match atom v with
                         | Some t => [buf ++ t]
                         | None => buf :: enc v
                         end = buf ++ txt v).
  { destruct (atom v) as [t|]; cbn [concat].
    - rewrite Hv, app_nil_r. reflexivity.
    - rewrite Hv. reflexivity. }
  rewrite Hhead, <- app_assoc. f_equal. f_equal.
  destruct l as [|y l']; [reflexivity|]. cbn [map concat].
  rewrite <- app_assoc. reflexivity.
Qed.

Lemma dict_items_text (enc : value -> list pystr) (txt : value -> pystr)
    (sep : pystr) (l : list (pystr * value)) :
  Forall (fun kv => concat (enc (snd kv)) = txt (snd kv)) l ->
  forall first,
    concat (dict_items enc sep l first)
    = concat (map (fun kv => (if first then [] else sep)
                             ++ quote_string (fst kv) ++ key_separator
                             ++ txt (snd kv)) (firstn 1 l))
      ++ concat (map (fun kv => sep ++ quote_string (fst kv) ++ key_separator
                                ++ txt (snd kv)) (skipn 1 l)).
Proof.
  induction l as [|[k v] l IH]; intros Hall first; [reflexivity|].
  inversion Hall as [|? ? Hv Hl]; subst. cbn [snd] in Hv.
  cbn [dict_items firstn skipn map concat fst snd].
  rewrite concat_app. cbn [concat]. rewrite concat_app.
  rewrite Hv, (IH Hl false), encode_basestring_quote_string, app_nil_r.
  assert (Hsep : concat (if first then [] else [sep])
                 = if first then [] else sep)
    by (destruct first; [reflexivity|apply app_nil_r]).
  rewrite Hsep, <- !app_assoc. do 4 f_equal.
  destruct l as [|[k' v'] l']; [reflexivity|].
  cbn [firstn skipn map concat fst snd]. rewrite app_nil_r, <- !app_assoc.
  reflexivity.
Qed.

(** The loops of [iterencode] are [list_items] and [dict_items]. *)
Lemma iterencode_list v l level :
  iterencode (PyList (v :: l)) level
  = list_items (fun y => iterencode y (S level))
      (item_separator ++ newline_indent (S level)) (v :: l)
      (chr "[" :: newline_indent (S level))
    ++ [newline_indent level; [chr "]"]].
Proof.
  cbn [iterencode list_items]. do 2 f_equal.
  generalize (item_separator ++ newline_indent (S level)) at 2 4.
  induction l as [|y l IH]; intros buf; [reflexivity|].
  cbn [list_items]. rewrite <- IH. reflexivity.
Qed.

Lemma iterencode_dict kv d level :
  iterencode (PyDict (kv :: d)) level
  = [chr "{"] :: newline_indent (S level)
    :: dict_items (fun y => iterencode y (S level))
         (item_separator ++ newline_indent (S level)) (kv :: d) true
    ++ [newline_indent level; [chr "}"]].
Proof.
  destruct kv as [k v]. cbn [iterencode dict_items app]. do 6 f_equal.
  generalize false at 2 3.
  induction d as [|[k' y] d IH]; intros first; [reflexivity|].
  cbn [dict_items]. rewrite <- IH. reflexivity.
Qed.

(** The chunks [json.dump] writes, put end to end, are the pretty-printed
    record of the specification. *)
Lemma iterencode_pretty v :
  forall level, concat (iterencode v level) = pretty level v.
Proof.
  induction v as [ | b | z | x | s | l IH | d IH ] using value_induction;
    intros level.
  - reflexivity.
  - destruct b; reflexivity.
  - cbn [iterencode pretty concat]. apply app_nil_r.
  - cbn [iterencode pretty concat]. apply app_nil_r.
  - cbn [iterencode pretty concat]. rewrite app_nil_r.
    apply encode_basestring_quote_string.
  - destruct l as [|v l]; [reflexivity|].
    rewrite iterencode_list. cbn [pretty]. rewrite concat_app.
    rewrite (list_items_text _ (pretty (S level))).
    + rewrite !newline_indent_line_break. cbn [concat app join map].
      unfold item_separator. rewrite map_map, <- !app_assoc. reflexivity.
    + eapply Forall_impl; [exact IH|]. intros y Hy. cbn beta.
      destruct (atom y) as [t|] eqn:Ha; [|apply Hy].
      apply (atom_some y t (S level) Ha).
  - destruct d as [|[k v] d]; [reflexivity|].
    rewrite iterencode_dict. cbn [pretty]. cbn [concat]. rewrite concat_app.
    rewrite (dict_items_text _ (pretty (S level))).
    + rewrite !newline_indent_line_break.
      cbn [firstn skipn map concat app join fst snd].
      unfold item_separator, key_separator.
      rewrite map_map, !app_nil_r, <- !app_assoc. reflexivity.
    + eapply Forall_impl; [exact IH|]. intros kv Hkv. apply Hkv.
Qed.

Lemma dumps_pretty v : dumps v = pretty 0 v.
Proof. apply iterencode_pretty. Qed.

End Encoder.

(** ** Numbers: what [int.__repr__] prints, the scanner reads back *)

Section Numbers.
Import Json.

Lemma digits_uint_uint_digits u : digits_uint (uint_digits u) = u.
Proof. induction u; cbn [uint_digits digits_uint]; rewrite ?IHu; reflexivity. Qed.

Lemma uint_digits_all_digits u : all_digits (uint_digits u).
Proof. induction u; cbn [uint_digits]; constructor; auto. Qed.

(** The decimal digits of a natural number: a single zero, or digits that
    start with a non-zero one. *)
Lemma to_uint_shape n :
  uint_digits (N.to_uint n) = [48] \/
  exists c ds, uint_digits (N.to_uint n) = c :: ds /\
               between 49 57 c = true /\ all_digits ds.
Proof.
  pose proof (DecimalN.Unsigned.to_of (N.to_uint n)) as Hnorm.
  rewrite DecimalN.Unsigned.of_to in Hnorm.
  set (u := N.to_uint n) in *. unfold Decimal.unorm in Hnorm.
  destruct (Decimal.nzhead u) eqn:Hnz.
  - left. rewrite Hnorm. reflexivity.
  - exfalso. exact (DecimalFacts.nzhead_nonzero u _ Hnz).
  - right. rewrite Hnorm. eexists _, _. split; [reflexivity|].
    split; [reflexivity|apply uint_digits_all_digits].
  - right. rewrite Hnorm. eexists _, _. split; [reflexivity|].
    split; [reflexivity|apply uint_digits_all_digits].
  - right. rewrite Hnorm. eexists _, _. split; [reflexivity|].
    split; [reflexivity|apply uint_digits_all_digits].
  - right. rewrite Hnorm. eexists _, _. split; [reflexivity|].
    split; [reflexivity|apply uint_digits_all_digits].
  - right. rewrite Hnorm. eexists _, _. split; [reflexivity|].
    split; [reflexivity|apply uint_digits_all_digits].
  - right. rewrite Hnorm. eexists _, _. split; [reflexivity|].
    split; [reflexivity|apply uint_digits_all_digits].
  - right. rewrite Hnorm. eexists _, _. split; [reflexivity|].
    split; [reflexivity|apply uint_digits_all_digits].
  - right. rewrite Hnorm. eexists _, _. split; [reflexivity|].
    split; [reflexivity|apply uint_digits_all_digits].
  - right. rewrite Hnorm. eexists _, _. split; [reflexivity|].
    split; [reflexivity|apply uint_digits_all_digits].
Qed.

Lemma number_stop_digit rest :
  number_stop rest ->
  match rest with [] => True | c :: _ => is_digit c = false end.
Proof.
  destruct rest as [|c rest]; [trivial|]. unfold number_stop, is_number_char.
  rewrite !orb_false_iff. tauto.
Qed.

(** Scanning digits does not look past the first character that is not
    one. *)
Lemma span_digits_app s rest d r :
  span_digits s = (d, r) ->
  match rest with [] => True | c :: _ => is_digit c = false end ->
  span_digits (s ++ rest) = (d, r ++ rest).
Proof.
  revert d r. induction s as [|c s IH]; intros d r.
  - cbn [span_digits app]. intros [= <- <-] Hstop.
    destruct rest as [|c rest]; [reflexivity|].
    cbn [span_digits]. rewrite Hstop. reflexivity.
  - cbn [span_digits app]. destruct (is_digit c).
    + destruct (span_digits s) as [d' r'] eqn:Hs. intros [= <- <-] Hstop.
      rewrite (IH d' r' eq_refl Hstop). reflexivity.
    + intros [= <- <-] _. reflexivity.
Qed.

Lemma span_digits_split s d r : span_digits s = (d, r) -> s = d ++ r /\ all_digits d.
Proof.
  revert d r. induction s as [|c s IH]; intros d r.
  - intros [= <- <-]. split; [reflexivity|constructor].
  - cbn [span_digits]. destruct (is_digit c) eqn:Hc.
    + destruct (span_digits s) as [d' r'] eqn:Hs. intros [= <- <-].
      destruct (IH d' r' eq_refl) as [-> Hall]. split; [reflexivity|].
      constructor; assumption.
    + intros [= <- <-]. split; [reflexivity|constructor].
Qed.

Lemma span_all_digits ds : all_digits ds -> span_digits ds = (ds, []).
Proof.
  induction 1 as [|c ds Hc Hall IH]; [reflexivity|].
  cbn [span_digits]. rewrite Hc, IH. reflexivity.
Qed.

Lemma int_stage_app s rest ip r :
  int_stage s = Some (ip, r) -> number_stop rest ->
  int_stage (s ++ rest) = Some (ip, r ++ rest).
Proof.
  intros H Hstop. apply number_stop_digit in Hstop.
  unfold int_stage in *.
  assert (G : forall sign s1,
             match s1 with
             | c :: s2 =>
                 if between 49 57 c then
                   let '(d, r) := span_digits s2 in Some (sign ++ c :: d, r)
                 else if c =? 48 then Some (sign ++ [c], s2) else None
             | [] => None
             end = Some (ip, r) ->
             match s1 ++ rest with
             | c :: s2 =>
                 if between 49 57 c then
                   let '(d, r) := span_digits s2 in Some (sign ++ c :: d, r)
                 else if c =? 48 then Some (sign ++ [c], s2) else None
             | [] => None
             end = Some (ip, r ++ rest)).
  { intros sign [|c s2]; [discriminate|]. cbn [app].
    destruct (between 49 57 c).
    - destruct (span_digits s2) as [d r'] eqn:Hs. intros [= <- <-].
      rewrite (span_digits_app s2 rest d r' Hs Hstop). reflexivity.
    - destruct (c =? 48); [|discriminate]. intros [= <- <-]. reflexivity. }
  destruct s as [|c s]; [discriminate|].
  destruct (Z.eqb_spec c 45) as [->|Hne].
  - cbn [app]. apply (G [45] s). exact H.
  - assert (E : forall t, match c :: t with
                          | 45 :: s' => ([45], s')
                          | _ => ([], c :: t)
                          end = ([], c :: t)).
    { intros t. destruct c as [|p|p]; try reflexivity.
      do 6 (destruct p as [p|p|]; try reflexivity). congruence. }
    cbn [app]. rewrite E in *. apply (G [] (c :: s)). exact H.
Qed.

Lemma frac_stage_app s rest frac r :
  frac_stage s = (frac, r) -> number_stop rest ->
  frac_stage (s ++ rest) = (frac, r ++ rest).
Proof.
  intros H Hstop. pose proof (number_stop_digit rest Hstop) as Hdig.
  destruct s as [|c s].
  - cbn in H. inversion H; subst. cbn [app].
    destruct rest as [|x rest]; [reflexivity|].
    unfold number_stop, is_number_char in Hstop.
    rewrite !orb_false_iff in Hstop.
    destruct Hstop as [[[[[_ Hdot] _] _] _] _].
    apply Z.eqb_neq in Hdot. unfold frac_stage.
    destruct x as [|p|p]; try reflexivity.
    do 6 (destruct p as [p|p|]; try reflexivity). exfalso. apply Hdot. reflexivity.
  - destruct (Z.eqb_spec c 46) as [->|Hne].
    + destruct s as [|d s].
      * cbn in H. inversion H; subst. cbn [app].
        destruct rest as [|x rest]; [reflexivity|].
        cbn [frac_stage]. rewrite Hdig. reflexivity.
      * cbn [frac_stage app] in *. destruct (is_digit d).
        -- destruct (span_digits s) as [ds r'] eqn:Hs.
           rewrite (span_digits_app s rest ds r' Hs Hdig).
           inversion H; subst. reflexivity.
        -- inversion H; subst. reflexivity.
    + assert (E : forall t, frac_stage (c :: t) = ([], c :: t)).
      { intros t. unfold frac_stage. destruct c as [|p|p]; try reflexivity.
        do 6 (destruct p as [p|p|]; try reflexivity). congruence. }
      rewrite E in H. inversion H; subst. cbn [app]. apply E.
Qed.

Lemma exp_stage_app s rest ex r :
  exp_stage s = (ex, r) -> number_stop rest ->
  exp_stage (s ++ rest) = (ex, r ++ rest).
Proof.
  intros H Hstop. pose proof (number_stop_digit rest Hstop) as Hdig.
  destruct s as [|e s].
  - cbn in H. inversion H; subst. cbn [app].
    destruct rest as [|x rest]; [reflexivity|].
    unfold number_stop, is_number_char in Hstop.
    rewrite !orb_false_iff in Hstop.
    destruct Hstop as [[[[[_ _] He] HE] _] _].
    cbn [exp_stage]. rewrite He, HE. reflexivity.
  - cbn [exp_stage app] in *.
    destruct ((e =? chr "e") || (e =? chr "E")); [|inversion H; subst; reflexivity].
    assert (Hsign : forall sg t, exp_sign s = (sg, t) ->
                                 exp_sign (s ++ rest) = (sg, t ++ rest)).
    { intros sg t. unfold exp_sign. destruct s as [|c [|d r0]].
      - intros [= <- <-]. cbn [app].
        destruct rest as [|x [|y rest']]; try reflexivity.
        unfold number_stop, is_number_char in Hstop.
        rewrite !orb_false_iff in Hstop.
        destruct Hstop as [[[[[_ _] _] _] Hplus] Hminus].
        rewrite Hminus, Hplus. reflexivity.
      - intros [= <- <-]. cbn [app].
        destruct rest as [|x rest']; [reflexivity|].
        rewrite Hdig, andb_false_r. reflexivity.
      - cbn [app].
        destruct (((c =? chr "-") || (c =? chr "+")) && is_digit d);
          intros [= <- <-]; reflexivity. }
    destruct (exp_sign s) as [sg t] eqn:Hsg.
    rewrite (Hsign sg t eq_refl).
    destruct (span_digits t) as [ds r'] eqn:Hs.
    rewrite (span_digits_app t rest ds r' Hs Hdig).
    destruct ds; inversion H; subst; reflexivity.
Qed.

(** [match_number] is its three stages, one after the other. *)
Lemma match_number_stages s :
  match_number s
  = match int_stage s with
    | None => None
    | Some (ip, s2) =>
        let '(frac, s3) := frac_stage s2 in
        let '(ex, s4) := exp_stage s3 in
        Some (ip, frac, ex, s4)
    end.
Proof.
  unfold match_number, int_stage.
  destruct (match s with
            | 45 :: s' => ([45], s')
            | _ => ([], s)
            end) as [sign s1].
  destruct s1 as [|c s2]; [reflexivity|].
  destruct (between 49 57 c).
  - destruct (span_digits s2) as [d r]. reflexivity.
  - destruct (c =? 48); reflexivity.
Qed.

(** A number literal is scanned alike when something that cannot continue
    it follows. *)
Lemma match_number_app s rest ip frac ex r :
  match_number s = Some (ip, frac, ex, r) -> number_stop rest ->
  match_number (s ++ rest) = Some (ip, frac, ex, r ++ rest).
Proof.
  rewrite !match_number_stages. intros H Hstop.
  destruct (int_stage s) as [[ip' s2]|] eqn:Hi; [|discriminate].
  rewrite (int_stage_app s rest ip' s2 Hi Hstop).
  destruct (frac_stage s2) as [frac' s3] eqn:Hf.
  rewrite (frac_stage_app s2 rest frac' s3 Hf Hstop).
  destruct (exp_stage s3) as [ex' s4] eqn:He.
  rewrite (exp_stage_app s3 rest ex' s4 He Hstop).
  inversion H; subst. reflexivity.
Qed.

Lemma is_digit_number_char c : is_digit c = true -> is_number_char c = true.
Proof. intros H. unfold is_number_char. rewrite H. reflexivity. Qed.

Lemma all_digits_number_chars ds :
  all_digits ds -> Forall (fun c => is_number_char c = true) ds.
Proof.
  intros H. eapply Forall_impl; [exact H|]. intros c. apply is_digit_number_char.
Qed.

(** What the first stage accepts: the text it took, made of number
    characters, opening with a digit or with a minus sign and a digit. *)
Lemma int_stage_split s ip r :
  int_stage s = Some (ip, r) ->
  s = ip ++ r /\ Forall (fun c => is_number_char c = true) ip /\
  ((exists c t, ip = c :: t /\ is_digit c = true) \/
   (exists c t, ip = 45 :: c :: t /\ is_digit c = true)).
Proof.
  unfold int_stage.
  assert (G : forall s1 sign,
             match s1 with
             | c :: s2 =>
                 if between 49 57 c then
                   let '(d, r) := span_digits s2 in Some (sign ++ c :: d, r)
                 else if c =? 48 then Some (sign ++ [c], s2) else None
             | [] => None
             end = Some (ip, r) ->
             exists c t, ip = sign ++ c :: t /\ s1 = c :: t ++ r /\
                         is_digit c = true /\ all_digits t).
  { intros [|c s2] sign; [discriminate|].
    destruct (between 49 57 c) eqn:Hc.
    - destruct (span_digits s2) as [d r'] eqn:Hs. intros [= <- <-].
      destruct (span_digits_split s2 d r' Hs) as [-> Hall].
      exists c, d. repeat split; auto.
      apply between_true in Hc. apply between_true. lia.
    - destruct (Z.eqb_spec c 48) as [->|]; [|discriminate].
      intros [= <- <-]. exists 48, []. repeat split; auto. constructor. }
  destruct s as [|c0 s]; [discriminate|].
  destruct (Z.eqb_spec c0 45) as [->|Hne].
  - intros H. destruct (G s [45] H) as (c & t & -> & -> & Hc & Hall).
    split; [reflexivity|]. split.
    + constructor; [reflexivity|]. constructor; [apply is_digit_number_char, Hc|].
      apply all_digits_number_chars, Hall.
    + right. exists c, t. auto.
  - assert (E : match c0 :: s with
                | 45 :: s' => ([45], s')
                | _ => ([], c0 :: s)
                end = ([], c0 :: s)).
    { destruct c0 as [|p|p]; try reflexivity.
      do 6 (destruct p as [p|p|]; try reflexivity). congruence. }
    rewrite E. intros H.
    destruct (G (c0 :: s) [] H) as (c & t & -> & Hs & Hc & Hall).
    split; [exact Hs|]. split.
    + constructor; [apply is_digit_number_char, Hc|].
      apply all_digits_number_chars, Hall.
    + left. exists c, t. auto.
Qed.

Lemma frac_stage_split s frac r :
  frac_stage s = (frac, r) ->
  s = frac ++ r /\ Forall (fun c => is_number_char c = true) frac.
Proof.
  destruct s as [|c s]; [intros [= <- <-]; split; [reflexivity|constructor]|].
  destruct (Z.eqb_spec c 46) as [->|Hne].
  - destruct s as [|d s]; [intros [= <- <-]; split; [reflexivity|constructor]|].
    cbn [frac_stage]. destruct (is_digit d) eqn:Hd.
    + destruct (span_digits s) as [ds r'] eqn:Hs. intros [= <- <-].
      destruct (span_digits_split s ds r' Hs) as [-> Hall].
      split; [reflexivity|]. constructor; [reflexivity|].
      constructor; [apply is_digit_number_char, Hd|].
      apply all_digits_number_chars, Hall.
    + intros [= <- <-]. split; [reflexivity|constructor].
  - assert (E : frac_stage (c :: s) = ([], c :: s)).
    { unfold frac_stage. destruct c as [|p|p]; try reflexivity.
      do 6 (destruct p as [p|p|]; try reflexivity). congruence. }
    rewrite E. intros [= <- <-]. split; [reflexivity|constructor].
Qed.

Lemma exp_stage_split s ex r :
  exp_stage s = (ex, r) ->
  s = ex ++ r /\ Forall (fun c => is_number_char c = true) ex.
Proof.
  destruct s as [|e s]; [intros [= <- <-]; split; [reflexivity|constructor]|].
  cbn [exp_stage]. destruct ((e =? chr "e") || (e =? chr "E")) eqn:He;
    [|intros [= <- <-]; split; [reflexivity|constructor]].
  assert (Hsign : forall sg t, exp_sign s = (sg, t) ->
                    s = sg ++ t /\ Forall (fun c => is_number_char c = true) sg).
  { intros sg t. unfold exp_sign. destruct s as [|c [|d r0]];
      try (intros [= <- <-]; split; [reflexivity|constructor]).
    destruct (((c =? chr "-") || (c =? chr "+")) && is_digit d) eqn:Hc;
      intros [= <- <-]; (split; [reflexivity|]); [|constructor].
    constructor; [|constructor]. apply andb_true_iff in Hc as [Hc _].
    unfold is_number_char. apply orb_true_iff in Hc as [Hc|Hc]; rewrite Hc;
      rewrite ?orb_true_r; reflexivity. }
  destruct (exp_sign s) as [sg t] eqn:Hsg.
  destruct (Hsign sg t eq_refl) as [-> Hsgc].
  destruct (span_digits t) as [ds r'] eqn:Hs.
  destruct (span_digits_split t ds r' Hs) as [-> Hall].
  destruct ds as [|d ds]; intros [= <- <-]; (split; [|try constructor]).
  - reflexivity.
  - cbn [app]. rewrite <- !app_assoc. reflexivity.
  - unfold is_number_char. apply orb_true_iff in He as [He|He]; rewrite He;
      rewrite ?orb_true_r; reflexivity.
  - apply Forall_app. split; [exact Hsgc|].
    apply all_digits_number_chars, Hall.
Qed.

Lemma match_number_split s ip frac ex r :
  match_number s = Some (ip, frac, ex, r) ->
  s = (ip ++ frac ++ ex) ++ r /\
  Forall (fun c => is_number_char c = true) (ip ++ frac ++ ex) /\
  ((exists c t, ip = c :: t /\ is_digit c = true) \/
   (exists c t, ip = 45 :: c :: t /\ is_digit c = true)).
Proof.
  rewrite match_number_stages.
  destruct (int_stage s) as [[ip' s2]|] eqn:Hi; [|discriminate].
  destruct (frac_stage s2) as [frac' s3] eqn:Hf.
  destruct (exp_stage s3) as [ex' s4] eqn:He.
  intros [= <- <- <- <-].
  destruct (int_stage_split s ip' s2 Hi) as (-> & Hci & Hhead).
  destruct (frac_stage_split s2 frac' s3 Hf) as (-> & Hcf).
  destruct (exp_stage_split s3 ex' s4 He) as (-> & Hce).
  split; [rewrite <- !app_assoc; reflexivity|]. split; [|exact Hhead].
  apply Forall_app. split; [exact Hci|]. apply Forall_app. split; assumption.
Qed.

End Numbers.

(** ** Integers *)

Section Integers.
Import Json.

Lemma is_digit_range c : is_digit c = true <-> 48 <= c <= 57.
Proof. apply between_true. Qed.

Lemma not_minus_head c t :
  c <> 45 ->
  match c :: t with
  | 45 :: s' => ([45], s')
  | _ => ([], c :: t)
  end = ([] : pystr, c :: t).
Proof.
  intros Hne. destruct c as [|p|p]; try reflexivity.
  do 6 (destruct p as [p|p|]; try reflexivity). congruence.
Qed.

Lemma int_stage_digits (minus : bool) (ds : pystr) :
  (ds = [48] \/
   exists c t, ds = c :: t /\ between 49 57 c = true /\ all_digits t) ->
  int_stage ((if minus then [45] else []) ++ ds)
  = Some ((if minus then [45] else []) ++ ds, []).
Proof.
  intros Hshape.
  assert (G : forall sign,
             match ds with
             | c :: s2 =>
                 if between 49 57 c then
                   let '(d, r) := span_digits s2 in Some (sign ++ c :: d, r)
                 else if c =? 48 then Some (sign ++ [c], s2) else None
             | [] => None
             end = Some (sign ++ ds, [])).
  { intros sign. destruct Hshape as [->|(c & t & -> & Hc & Hall)].
    - reflexivity.
    - rewrite Hc, (span_all_digits t Hall). reflexivity. }
  unfold int_stage. destruct minus; cbn [app].
  - apply (G [45]).
  - destruct ds as [|c t]; [destruct Hshape as [H|(? & ? & H & _)]; discriminate|].
    rewrite not_minus_head; [apply (G [])|].
    destruct Hshape as [[= -> ->]|(c' & t' & [= -> ->] & Hc & _)]; [lia|].
    apply between_true in Hc. lia.
Qed.

Lemma int_repr_cases z :
  int_repr z = (if z <? 0 then [45] else []) ++ uint_digits (N.to_uint (Z.abs_N z)).
Proof. reflexivity. Qed.

(** The scanner takes [int.__repr__] of an integer as an integer literal,
    whole. *)
Lemma match_number_int_repr z :
  match_number (int_repr z) = Some (int_repr z, [], [], []).
Proof.
  rewrite match_number_stages, int_repr_cases.
  rewrite (int_stage_digits (z <? 0) _ (to_uint_shape (Z.abs_N z))).
  reflexivity.
Qed.

(** [int(repr(z)) = z] *)
Lemma int_of_literal_int_repr z : int_of_literal (int_repr z) = z.
Proof.
  rewrite int_repr_cases. destruct (z <? 0) eqn:Hneg.
  - cbn [app int_of_literal]. rewrite digits_uint_uint_digits.
    rewrite DecimalN.Unsigned.of_to. apply Z.ltb_lt in Hneg.
    rewrite N2Z.inj_abs_N. lia.
  - cbn [app]. apply Z.ltb_ge in Hneg.
    assert (E : forall ds, (ds = [48] \/
                 exists c t, ds = c :: t /\ between 49 57 c = true /\ all_digits t) ->
               int_of_literal ds = Z.of_N (N.of_uint (digits_uint ds))).
    { intros ds [->|(c & t & -> & Hc & _)]; [reflexivity|].
      apply between_true in Hc. unfold int_of_literal.
      destruct c as [|p|p]; try reflexivity.
      do 6 (destruct p as [p|p|]; try reflexivity). lia. }
    rewrite (E _ (to_uint_shape (Z.abs_N z))), digits_uint_uint_digits.
    rewrite DecimalN.Unsigned.of_to, N2Z.inj_abs_N. lia.
Qed.

End Integers.

(** ** The scanner on a number *)

Section ScanNumber.
Context {RT : Runtime}.
Import Json.

Lemma is_prefix_other p0 p c s : p0 <> c -> is_prefix (p0 :: p) (c :: s) = false.
Proof. intros H. cbn [is_prefix]. apply Z.eqb_neq in H. rewrite H. reflexivity. Qed.

(** A text that opens with a number literal is scanned as that number. *)
Lemma scan_once_number fuel s idx ip frac ex rest :
  match_number s = Some (ip, frac, ex, rest) ->
  scan_once (S fuel) s idx
  = Scanned (match frac, ex with
             | [], [] => PyInt (int_of_literal ip)
             | _, _ => PyFloat (float_of_literal (ip ++ frac ++ ex))
             end) rest (idx + len (ip ++ frac ++ ex)).
Proof.
  intros Hnum.
  destruct (match_number_split s ip frac ex rest Hnum) as (Hs & _ & Hhead).
  assert (Hopen : exists c t, s = c :: t /\
            (is_digit c = true \/
             c = 45 /\ exists d t', t = d :: t' /\ is_digit d = true)).
  { destruct Hhead as [(c & t & -> & Hc)|(c & t & -> & Hc)]; subst s.
    - exists c, (t ++ (frac ++ ex) ++ rest). rewrite <- !app_assoc. auto.
    - exists 45, (c :: t ++ (frac ++ ex) ++ rest). rewrite <- !app_assoc.
      split; [reflexivity|]. right. split; [reflexivity|]. eauto. }
  destruct Hopen as (c & t & Hst & Hc). rewrite Hst. rewrite Hst in Hnum.
  cbn [scan_once].
  change (py "null") with [110; 117; 108; 108].
  change (py "true") with [116; 114; 117; 101].
  change (py "false") with [102; 97; 108; 115; 101].
  change (py "NaN") with [78; 97; 78].
  change (py "Infinity") with [73; 110; 102; 105; 110; 105; 116; 121].
  change (py "-Infinity") with [45; 73; 110; 102; 105; 110; 105; 116; 121].
  assert (Hrange : 45 <= c <= 57).
  { destruct Hc as [Hc|[-> _]]; [apply is_digit_range in Hc|]; lia. }
  rewrite (proj2 (Z.eqb_neq c 34)) by lia.
  rewrite (proj2 (Z.eqb_neq c (chr "{"))) by (unfold chr; simpl; lia).
  rewrite (proj2 (Z.eqb_neq c (chr "["))) by (unfold chr; simpl; lia).
  rewrite !is_prefix_other by lia.
  assert (Hminus : is_prefix [45; 73; 110; 102; 105; 110; 105; 116; 121] (c :: t)
                   = false).
  { destruct Hc as [Hc|(-> & d & t' & -> & Hd)].
    - apply is_prefix_other. apply is_digit_range in Hc. lia.
    - cbn [is_prefix]. apply is_digit_range in Hd.
      rewrite (proj2 (Z.eqb_neq 73 d)) by lia. reflexivity. }
  rewrite Hminus, Hnum. reflexivity.
Qed.

End ScanNumber.

(** ** Strings: what the encoder quotes, the scanner reads back *)

Section Strings.
Import Json.

(** One escaped character is read back as that character. *)
(** One step of [scanstring], with [push] by name. *)
Lemma scanstring_step fuel begin c s' idx :
  scanstring (S fuel) begin (c :: s') idx
  = if c =? 34 then Scanned [] s' (idx + 1)
    else if c =? chr "\" then
      match s' with
      | [] => DecodeError (py "Unterminated string starting at") begin
      | e :: s'' =>
          if e =? chr "u" then
            match hex4 s'' with
            | None => DecodeError (py "Invalid \uXXXX escape") (idx + 1)
            | Some (uni, r) =>
                if between 55296 56319 uni && (6 <=? len r) then
                  match r with
                  | 92 :: 117 :: r' =>
                      match hex4 r' with
                      | None =>
                          DecodeError (py "Invalid \uXXXX escape") (idx + 7)
                      | Some (uni2, r'') =>
                          if between 56320 57343 uni2 then
                            push (65536 + (uni - 55296) * 1024
                                  + (uni2 - 56320))
                              (scanstring fuel begin r'' (idx + 12))
                          else push uni (scanstring fuel begin r (idx + 6))
                      end
                  | _ => push uni (scanstring fuel begin r (idx + 6))
                  end
                else push uni (scanstring fuel begin r (idx + 6))
            end
          else
            match backslash e with
            | Some c' => push c' (scanstring fuel begin s'' (idx + 2))
            | None => DecodeError (py "Invalid \escape") idx
            end
      end
    else if c <=? 31 then
      DecodeError (py "Invalid control character at") idx
    else push c (scanstring fuel begin s' (idx + 1)).
Proof. reflexivity. Qed.

Lemma scanstring_escape c fuel begin t idx :
  needs_escape c = true ->
  exists k,
    scanstring (S fuel) begin (escape_char c ++ t) idx
    = push c (scanstring fuel begin t (idx + k)).
Proof.
  intros Hesc.
  assert (Hstep : forall k e,
            escape_char c = e ->
            scanstring (S fuel) begin (e ++ t) idx
            = push c (scanstring fuel begin t (idx + k)) ->
            exists k,
              scanstring (S fuel) begin (escape_char c ++ t) idx
              = push c (scanstring fuel begin t (idx + k))).
  { intros k e <- H. exists k. exact H. }
  destruct c as [|p|p]; [| |discriminate Hesc].
  - apply (Hstep 6 [92; 117; 48; 48; 48; 48]); reflexivity.
  - do 7 (try destruct p as [p|p|]); try discriminate Hesc;
      match goal with
      | |- context [escape_char ?c] =>
          let e := eval vm_compute in (escape_char c) in
          first [ apply (Hstep 2 e); reflexivity
                | apply (Hstep 6 e); reflexivity ]
      end.
Qed.

(** One plain character is read back as that character. *)
Lemma scanstring_plain c fuel begin t idx :
  needs_escape c = false -> 0 <= c ->
  scanstring (S fuel) begin (c :: t) idx
  = push c (scanstring fuel begin t (idx + 1)).
Proof.
  unfold needs_escape. intros Hesc Hpos.
  apply orb_false_iff in Hesc as [Hesc Hctl].
  apply orb_false_iff in Hesc as [Hq Hb].
  apply between_false in Hctl.
  cbn [scanstring]. rewrite Hq, Hb.
  rewrite (proj2 (Z.leb_gt c 31)) by lia. reflexivity.
Qed.

Lemma quote_string_escaped s : quote_string s = 34 :: escaped s ++ [34].
Proof. reflexivity. Qed.

(** The body of a quoted string, up to its closing quote, is read back as
    the string. *)
Lemma scanstring_escaped s :
  valid_str s ->
  forall fuel begin rest idx,
    (length s < fuel)%nat ->
    exists idx',
      scanstring fuel begin (escaped s ++ 34 :: rest) idx = Scanned s rest idx'.
Proof.
  induction 1 as [|c s Hc Hs IH]; intros fuel begin rest idx Hfuel.
  - destruct fuel as [|fuel]; [cbn in Hfuel; lia|].
    exists (idx + 1). reflexivity.
  - destruct fuel as [|fuel]; [cbn in Hfuel; lia|].
    cbn [length] in Hfuel. unfold escaped. cbn [map concat].
    fold (escaped s). rewrite <- app_assoc.
    destruct (needs_escape c) eqn:Hesc.
    + destruct (scanstring_escape c fuel begin (escaped s ++ 34 :: rest) idx Hesc)
        as [k Hstep].
      rewrite Hstep.
      destruct (IH fuel begin rest (idx + k)) as [idx' Hrec]; [lia|].
      rewrite Hrec. eauto.
    + cbn [app]. rewrite (scanstring_plain c fuel begin _ idx Hesc Hc).
      destruct (IH fuel begin rest (idx + 1)) as [idx' Hrec]; [lia|].
      rewrite Hrec. eauto.
Qed.

Lemma escaped_length s : (length s <= length (escaped s))%nat.
Proof.
  induction s as [|c s IH]; [reflexivity|].
  unfold escaped. cbn [map concat]. fold (escaped s).
  rewrite length_app. cbn [length].
  assert (1 <= length (if needs_escape c then escape_char c else [c]))%nat.
  { destruct (needs_escape c) eqn:E; [|cbn; lia].
    destruct c as [|p|p]; [vm_compute; lia| |discriminate E].
    do 7 (try destruct p as [p|p|]); try discriminate E; vm_compute; lia. }
  lia.
Qed.

End Strings.

(** ** Reading back what was written *)

Section Whitespace.
Import Json.

Lemma skip_ws_stop c t idx :
  is_whitespace c = false -> skip_ws (c :: t) idx = (c :: t, idx).
Proof. intros H. cbn [skip_ws]. rewrite H. reflexivity. Qed.

Lemma skip_ws_spaces n t idx :
  exists idx', skip_ws (replicate n 32 ++ t) idx = skip_ws t idx'.
Proof.
  revert idx. induction n as [|n IH]; intros idx; [eauto|].
  cbn [replicate app skip_ws]. change (is_whitespace 32) with true.
  cbn iota. apply IH.
Qed.

Lemma skip_ws_line_break level t idx :
  exists idx', skip_ws (line_break level ++ t) idx = skip_ws t idx'.
Proof.
  unfold line_break. cbn [app skip_ws]. change (is_whitespace 10) with true.
  cbn iota. apply skip_ws_spaces.
Qed.

Lemma skip_ws_line_break_stop level c t idx :
  is_whitespace c = false ->
  exists idx', skip_ws (line_break level ++ c :: t) idx = (c :: t, idx').
Proof.
  intros H. destruct (skip_ws_line_break level (c :: t) idx) as [idx' E].
  exists idx'. rewrite E. apply skip_ws_stop, H.
Qed.

End Whitespace.

Section Heads.
Context {RT : Runtime}.
Import Json.

Lemma digit_opens c : 45 <= c <= 57 -> opens c.
Proof.
  intros H. unfold opens, is_whitespace. repeat split; lia.
Qed.

Lemma number_opens s ip frac ex r :
  match_number s = Some (ip, frac, ex, r) ->
  exists c t, s = c :: t /\ opens c.
Proof.
  intros H. destruct (match_number_split s ip frac ex r H) as (-> & _ & Hhead).
  destruct Hhead as [(c & t & -> & Hc)|(c & t & -> & Hc)].
  - exists c. eexists. split; [rewrite <- !app_assoc; reflexivity|].
    apply digit_opens. apply is_digit_range in Hc. lia.
  - exists 45. eexists. split; [rewrite <- !app_assoc; reflexivity|].
    apply digit_opens. lia.
Qed.

Lemma pretty_opens :
  float_laws -> forall v level, exists c t, pretty level v = c :: t /\ opens c.
Proof.
  intros [_ Hshape] v level.
  assert (Hconst : forall c t, is_whitespace c = false -> c <> 93 -> c <> 65279 ->
                     forall s, s = c :: t -> exists c t, s = c :: t /\ opens c).
  { intros c t H1 H2 H3 s ->. exists c, t. unfold opens. auto. }
  destruct v as [ | [|] | z | [ | | | x] | s | [|v l] | [|[k v] d] ].
  - apply (Hconst 110 [117; 108; 108]); try reflexivity; discriminate.
  - apply (Hconst 116 [114; 117; 101]); try reflexivity; discriminate.
  - apply (Hconst 102 [97; 108; 115; 101]); try reflexivity; discriminate.
  - eapply number_opens. apply match_number_int_repr.
  - apply (Hconst 78 [97; 78]); try reflexivity; discriminate.
  - apply (Hconst 73 [110; 102; 105; 110; 105; 116; 121]);
      try reflexivity; discriminate.
  - apply (Hconst 45 [73; 110; 102; 105; 110; 105; 116; 121]);
      try reflexivity; discriminate.
  - destruct (Hshape x) as (ip & frac & ex & Hnum & _).
    eapply number_opens. exact Hnum.
  - apply (Hconst 34 (escaped s ++ [34])); try reflexivity; discriminate.
  - apply (Hconst 91 [93]); try reflexivity; discriminate.
  - eapply (Hconst 91); try reflexivity; discriminate.
  - apply (Hconst 123 [125]); try reflexivity; discriminate.
  - eapply (Hconst 123); try reflexivity; discriminate.
Qed.

End Heads.

Section RoundTrip.
Context {RT : Runtime}.
Import Json.
Hypothesis laws : float_laws.

Lemma reads_back_none : reads_back PyNone.
Proof.
  intros _ level [|fuel] rest idx Hfuel _; [cbn in Hfuel; lia|].
  eexists. reflexivity.
Qed.

Lemma reads_back_bool b : reads_back (PyBool b).
Proof.
  intros _ level [|fuel] rest idx Hfuel _; [cbn in Hfuel; lia|].
  destruct b; eexists; reflexivity.
Qed.

Lemma reads_back_int z : reads_back (PyInt z).
Proof.
  intros _ level [|fuel] rest idx Hfuel Hstop; [cbn in Hfuel; lia|].
  cbn [pretty].
  pose proof (match_number_app _ rest _ _ _ _ (match_number_int_repr z) Hstop)
    as Hnum.
  rewrite (scan_once_number fuel _ idx _ _ _ _ Hnum).
  rewrite int_of_literal_int_repr. eauto.
Qed.

Lemma reads_back_float x : reads_back (PyFloat x).
Proof.
  intros _ level [|fuel] rest idx Hfuel Hstop; [cbn in Hfuel; lia|].
  destruct x as [ | | | x]; try (eexists; reflexivity).
  cbn [pretty floatstr]. destruct laws as [Hround Hshape].
  destruct (Hshape x) as (ip & frac & ex & Hnum & Hfloat).
  destruct (match_number_split _ _ _ _ _ Hnum) as (Hs & _ & _).
  rewrite app_nil_r in Hs.
  pose proof (match_number_app _ rest _ _ _ _ Hnum Hstop) as Hnum'.
  rewrite (scan_once_number fuel _ idx _ _ _ _ Hnum').
  rewrite <- Hs, Hround. cbn [app].
  destruct frac as [|f frac]; [destruct ex as [|e ex]|]; eauto.
  destruct Hfloat; congruence.
Qed.

Lemma reads_back_str s : reads_back (PyStr s).
Proof.
  intros Hwf level [|fuel] rest idx Hfuel _; [cbn in Hfuel; lia|].
  cbn [pretty well_formed] in *. rewrite quote_string_escaped.
  cbn [app scan_once]. change (34 =? 34) with true. cbn iota.
  rewrite <- app_assoc. cbn [app].
  destruct (scanstring_escaped s Hwf
              (length (34 :: escaped s ++ 34 :: rest)) idx rest (idx + 1))
    as [idx' Hscan].
  { cbn [length]. rewrite length_app. pose proof (escaped_length s). lia. }
  rewrite Hscan. eauto.
Qed.

(** [scan_once] at an opening bracket that is not closed at once enters
    the loop of [_parse_array]. *)
Lemma scan_once_array fuel t idx c r i :
  skip_ws t (idx + 1) = (c :: r, i) -> c <> 93 ->
  scan_once (S fuel) (91 :: t) idx = parse_array fuel [] (c :: r) i.
Proof.
  intros E Hne. cbn [scan_once].
  change (91 =? 34) with false. change (91 =? chr "{") with false.
  change (91 =? chr "[") with true. cbn iota. rewrite E.
  destruct c as [|p|p]; try reflexivity.
  do 7 (try destruct p as [p|p|]); try reflexivity. congruence.
Qed.

Lemma scan_once_object fuel t idx r i :
  skip_ws t (idx + 1) = (34 :: r, i) ->
  scan_once (S fuel) (123 :: t) idx = parse_object fuel [] (34 :: r) i.
Proof. intros E. cbn [scan_once]. rewrite E. reflexivity. Qed.

Lemma weight_list x l :
  weight (PyList (x :: l)) = S (weight x + weight (PyList l)).
Proof. cbn [weight fold_right]. lia. Qed.

Lemma weight_dict k x d :
  weight (PyDict ((k, x) :: d)) = S (weight x + weight (PyDict d)).
Proof. cbn [weight fold_right snd]. lia. Qed.

Lemma pretty_list level x l :
  pretty level (PyList (x :: l))
  = 91 :: line_break (S level) ++ pretty (S level) x ++ more_items level l
       ++ line_break level ++ [93].
Proof.
  cbn [pretty map join app]. unfold more_items.
  rewrite <- !app_assoc. reflexivity.
Qed.

Lemma pretty_dict level kv d :
  pretty level (PyDict (kv :: d))
  = 123 :: line_break (S level) ++ member level kv ++ more_members level d
        ++ line_break level ++ [125].
Proof.
  cbn [pretty map join app]. unfold more_members, member.
  rewrite <- !app_assoc. reflexivity.
Qed.

Lemma more_items_cons level y l :
  more_items level (y :: l)
  = 44 :: line_break (S level) ++ pretty (S level) y ++ more_items level l.
Proof.
  unfold more_items. cbn [map concat app]. rewrite <- !app_assoc. reflexivity.
Qed.

Lemma more_members_cons level kv d :
  more_members level (kv :: d)
  = 44 :: line_break (S level) ++ member level kv ++ more_members level d.
Proof.
  unfold more_members. cbn [map concat app]. rewrite <- !app_assoc.
  reflexivity.
Qed.

(** The loop of [_parse_array], from an element on. *)
Lemma parse_array_items l :
  Forall reads_back l -> well_formed (PyList l) ->
  forall x, reads_back x -> well_formed x ->
  forall level fuel acc rest idx,
    (weight x + weight (PyList l) <= fuel)%nat ->
    exists idx',
      parse_array fuel acc
        (pretty (S level) x ++ more_items level l ++ line_break level
           ++ 93 :: rest) idx
      = Scanned (PyList (acc ++ x :: l)) rest idx'.
Proof.
  induction 1 as [|y l Hy Hl IH]; intros Hwf x Hx Hwx level fuel acc rest idx Hfuel.
  - destruct fuel as [|fuel]; [cbn in Hfuel; lia|].
    cbn [parse_array more_items map concat app].
    destruct (Hx Hwx (S level) fuel (line_break level ++ 93 :: rest) idx)
      as [i1 E1]; [cbn in Hfuel; lia|reflexivity|].
    rewrite E1.
    destruct (skip_ws_line_break_stop level 93 rest i1) as [i2 E2];
      [reflexivity|].
    rewrite E2. eauto.
  - destruct fuel as [|fuel]; [cbn in Hfuel; lia|].
    rewrite weight_list in Hfuel. destruct Hwf as [Hwy Hwl].
    cbn [parse_array]. rewrite more_items_cons. cbn [app].
    rewrite <- !app_assoc.
    match goal with
    | |- context [scan_once fuel (pretty (S level) x ++ ?r) idx] =>
        destruct (Hx Hwx (S level) fuel r idx) as [i1 E1];
          [lia|reflexivity|]
    end.
    rewrite E1. rewrite skip_ws_stop by reflexivity.
    destruct (pretty_opens laws y (S level)) as (c & t & Ec & Hc & _).
    match goal with
    | |- context [skip_ws (line_break (S level) ++ pretty (S level) y ++ ?r) ?i] =>
        destruct (skip_ws_line_break_stop (S level) c (t ++ r) i Hc)
          as [i2 E2]
    end.
    rewrite Ec. cbn [app]. rewrite E2.
    destruct (IH Hwl y Hy Hwy level fuel (acc ++ [x]) rest i2) as [i3 E3];
      [lia|].
    rewrite Ec in E3. cbn [app] in E3.
    rewrite E3. rewrite <- app_assoc. eauto.
Qed.

Lemma dict_set_fresh acc k v :
  k ∉ map fst acc -> dict_set acc k v = acc ++ [(k, v)].
Proof.
  induction acc as [|[k' v'] acc IH]; intros Hk; [reflexivity|].
  cbn [dict_set app]. cbn [map fst] in Hk.
  apply not_elem_of_cons in Hk as [Hne Hk].
  unfold str_eqb. rewrite bool_decide_eq_false_2 by congruence.
  rewrite IH by exact Hk. reflexivity.
Qed.

(** The loop of [_parse_object], from a key on. *)
Lemma parse_object_members d :
  Forall (fun kv => reads_back (snd kv)) d ->
  forall k x acc,
    reads_back x -> well_formed x -> valid_str k ->
    NoDup (map fst acc ++ k :: map fst d) ->
    fold_right
      (fun kv rest => valid_str (fst kv) /\ well_formed (snd kv) /\ rest)
      True d ->
    forall level fuel rest idx,
      (weight x + weight (PyDict d) <= fuel)%nat ->
      exists idx',
        parse_object fuel acc
          (member level (k, x) ++ more_members level d ++ line_break level
             ++ 125 :: rest) idx
        = Scanned (PyDict (acc ++ (k, x) :: d)) rest idx'.
Proof.
  induction 1 as [|[k' y] d Hy Hd IH];
    intros k x acc Hx Hwx Hk Hnd Hwd level fuel rest idx Hfuel.
  all: destruct fuel as [|fuel]; [cbn in Hfuel; lia|].
  all: unfold member; cbn [fst snd]; rewrite quote_string_escaped.
  all: cbn [app parse_object]; rewrite <- !app_assoc; cbn [app].
  all: match goal with
       | |- context [scanstring ?f ?b (escaped ?k ++ 34 :: ?r) ?i] =>
           destruct (scanstring_escaped k Hk f b r i) as [i1 E1];
             [cbn [length]; rewrite length_app; pose proof (escaped_length k); lia|]
       end.
  all: rewrite E1; rewrite skip_ws_stop by reflexivity.
  all: destruct (pretty_opens laws x (S level)) as (c & t & Ec & Hc & _).
  all: cbn [skip_ws]; change (is_whitespace 32) with true; cbn iota.
  all: rewrite Ec; cbn [app]; rewrite skip_ws_stop by exact Hc.
  all: assert (Hfresh : forall v, dict_set acc k v = acc ++ [(k, v)])
         by (intros v; apply dict_set_fresh;
             apply NoDup_app in Hnd as (_ & Hnd' & _); intros Hin;
             apply (Hnd' k Hin); left).
  - cbn [more_members map concat app].
    destruct (Hx Hwx (S level) fuel (line_break level ++ 125 :: rest)
                (i1 + 1 + 1)) as [i2 E2]; [cbn in Hfuel; lia|reflexivity|].
    rewrite Ec in E2. cbn [app] in E2. rewrite E2, Hfresh.
    destruct (skip_ws_line_break_stop level 125 rest i2) as [i3 E3];
      [reflexivity|].
    rewrite E3. eauto.
  - rewrite weight_dict in Hfuel. destruct Hwd as (Hk' & Hwy & Hwd).
    cbn [fst snd] in *.
    rewrite more_members_cons. cbn [app]. rewrite <- !app_assoc.
    match goal with
    | |- context [scan_once fuel (c :: t ++ ?r) ?i] =>
        destruct (Hx Hwx (S level) fuel r i) as [i2 E2]; [lia|reflexivity|]
    end.
    rewrite Ec in E2. cbn [app] in E2. rewrite E2, Hfresh.
    rewrite skip_ws_stop by reflexivity.
    match goal with
    | |- context [skip_ws (line_break (S level) ++ member level (k', y) ++ ?r) ?i] =>
        destruct (skip_ws_line_break_stop (S level) 34
                    (escaped k' ++ [34] ++ [58; 32] ++ pretty (S level) y ++ r)
                    i) as [i3 E3]; [reflexivity|]
    end.
    unfold member at 1. cbn [fst snd]. rewrite quote_string_escaped.
    cbn [app] in *. rewrite <- !app_assoc. cbn [app].
    change (chr ":") with 58. cbn iota. rewrite E3.
    destruct (IH k' y (acc ++ [(k, x)]) Hy Hwy Hk') with
      (level := level) (fuel := fuel) (rest := rest) (idx := i3)
      as [i4 E4]; [| exact Hwd | lia |].
    { rewrite map_app. cbn [map fst]. rewrite <- app_assoc. exact Hnd. }
    unfold member at 1 in E4. cbn [fst snd] in E4.
    rewrite quote_string_escaped in E4. cbn [app] in E4.
    rewrite <- !app_assoc in E4. cbn [app] in E4.
    change (chr ":") with 58 in E4.
    rewrite E4. eauto.
Qed.

(** The scanner reads every well-formed value back from its text. *)
Lemma scan_pretty v : reads_back v.
Proof.
  induction v as [ | b | z | x | s | l IH | d IH ] using value_induction.
  - apply reads_back_none.
  - apply reads_back_bool.
  - apply reads_back_int.
  - apply reads_back_float.
  - apply reads_back_str.
  - intros Hwf level fuel rest idx Hfuel _.
    destruct fuel as [|fuel]; [cbn in Hfuel; lia|].
    destruct l as [|x l]; [eexists; reflexivity|].
    rewrite weight_list in Hfuel. destruct Hwf as [Hwx Hwl].
    apply Forall_cons in IH as [Hx Hl].
    rewrite pretty_list. cbn [app]. rewrite <- !app_assoc.
    destruct (pretty_opens laws x (S level)) as (c & t & Ec & Hc & Hc' & _).
    rewrite Ec. cbn [app].
    match goal with
    | |- context [line_break (S level) ++ c :: ?r] =>
        destruct (skip_ws_line_break_stop (S level) c r (idx + 1) Hc)
          as [i1 E1]
    end.
    rewrite (scan_once_array _ _ _ _ _ _ E1 Hc').
    destruct (parse_array_items l Hl Hwl x Hx Hwx level fuel [] rest i1)
      as [i3 E3]; [lia|].
    rewrite Ec in E3. cbn [app] in E3. rewrite E3. eauto.
  - intros Hwf level fuel rest idx Hfuel _.
    destruct fuel as [|fuel]; [cbn in Hfuel; lia|].
    destruct d as [|[k x] d]; [eexists; reflexivity|].
    rewrite weight_dict in Hfuel. destruct Hwf as [Hnd (Hk & Hwx & Hwd)].
    apply Forall_cons in IH as [Hx Hd]. cbn [fst snd] in *.
    rewrite pretty_dict. cbn [app]. rewrite <- !app_assoc.
    assert (exists r, member level (k, x) = 34 :: r) as [r Em]
      by (unfold member; rewrite quote_string_escaped; eexists; reflexivity).
    rewrite Em. cbn [app].
    match goal with
    | |- context [line_break (S level) ++ 34 :: ?r] =>
        destruct (skip_ws_line_break_stop (S level) 34 r (idx + 1))
          as [i1 E1]; [reflexivity|]
    end.
    rewrite (scan_once_object _ _ _ _ _ E1).
    destruct (parse_object_members d Hd k x [] Hx Hwx Hk Hnd Hwd level fuel
                rest i1) as [i3 E3]; [lia|].
    rewrite Em in E3. cbn [app] in E3. rewrite E3. eauto.
Qed.

End RoundTrip.

(** ** What the decoder produces *)

Section Decoded.
Context {RT : Runtime}.
Import Json.

Lemma push_scanned c (x : scan pystr) t r i :
  push c x = Scanned t r i ->
  exists t', t = c :: t' /\ x = Scanned t' r i.
Proof.
  destruct x; cbn [push]; intros H; inversion H; subst. eauto.
Qed.

Lemma hex_value_range c x : hex_value c = Some x -> 0 <= x <= 15.
Proof.
  unfold hex_value, between.
  destruct (48 <=? c) eqn:?, (c <=? 57) eqn:?; cbn [andb];
    [intros H; inversion H; lia|..].
  all: destruct (97 <=? c) eqn:?, (c <=? 102) eqn:?; cbn [andb];
    [intros H; inversion H; lia|..].
  all: destruct (65 <=? c) eqn:?, (c <=? 70) eqn:?; cbn [andb];
    intros H; inversion H; lia.
Qed.

Lemma hex4_range s u r : hex4 s = Some (u, r) -> 0 <= u.
Proof.
  destruct s as [|a [|b [|c [|d s]]]]; try discriminate. cbn [hex4].
  destruct (hex_value a) as [x|] eqn:Hx; [|discriminate].
  destruct (hex_value b) as [y|] eqn:Hy; [|discriminate].
  destruct (hex_value c) as [z|] eqn:Hz; [|discriminate].
  destruct (hex_value d) as [w|] eqn:Hw; [|discriminate].
  apply hex_value_range in Hx, Hy, Hz, Hw.
  intros H. inversion H. lia.
Qed.

Lemma backslash_range e c : backslash e = Some c -> 0 <= c.
Proof.
  unfold backslash.
  repeat match goal with
         | |- context [if ?b then _ else _] => destruct b
         end; intros H; inversion H; vm_compute; discriminate.
Qed.

(** The strings the scanner returns hold no negative code point. *)
Lemma scanstring_valid fuel :
  forall begin s idx t r i,
    scanstring fuel begin s idx = Scanned t r i -> valid_str t.
Proof.
  induction fuel as [|fuel IH]; intros begin s idx t r i H; [discriminate|].
  destruct s as [|c s']; [discriminate|].
  rewrite scanstring_step in H.
  destruct (c =? 34); [inversion H; constructor|].
  destruct (c =? chr "\").
  - destruct s' as [|e s'']; [discriminate|].
    destruct (e =? chr "u").
    + destruct (hex4 s'') as [[uni r0]|] eqn:Hu; [|discriminate].
      pose proof (hex4_range _ _ _ Hu) as Huni.
      assert (Hplain : forall x,
                 push uni x = Scanned t r i ->
                 (forall t', x = Scanned t' r i -> valid_str t') ->
                 valid_str t).
      { intros x Hx Hrec. apply push_scanned in Hx as (t' & -> & Hx).
        constructor; [exact Huni|]. apply Hrec, Hx. }
      destruct (between 55296 56319 uni && (6 <=? len r0)) eqn:Hhigh.
      * destruct r0 as [|b0 r0]; [eapply Hplain; eauto|].
        apply andb_true_iff in Hhigh as [Hhigh _].
        apply between_true in Hhigh.
        assert (Hpair : forall r1 : pystr,
                   match hex4 r1 with
                   | None => DecodeError (py "Invalid \uXXXX escape") (idx + 7)
                   | Some (uni2, r'') =>
                       if between 56320 57343 uni2
                       then push (65536 + (uni - 55296) * 1024 + (uni2 - 56320))
                              (scanstring fuel begin r'' (idx + 12))
                       else push uni (scanstring fuel begin (b0 :: r0) (idx + 6))
                   end = Scanned t r i -> valid_str t).
        { intros r1 Hr1. destruct (hex4 r1) as [[uni2 r2]|]; [|discriminate].
          destruct (between 56320 57343 uni2) eqn:Hlow.
          - apply between_true in Hlow.
            apply push_scanned in Hr1 as (t' & -> & Hx).
            constructor; [lia|]. eapply IH, Hx.
          - eapply Hplain; eauto. }
        destruct b0 as [|p|p]; try (eapply Hplain; eauto; fail).
        do 7 (try destruct p as [p|p|]); try (eapply Hplain; eauto; fail).
        destruct r0 as [|b1 r0]; [eapply Hplain; eauto|].
        destruct b1 as [|p|p]; try (eapply Hplain; eauto; fail).
        do 7 (try destruct p as [p|p|]); try (eapply Hplain; eauto; fail).
        eapply Hpair. exact H.
      * eapply Hplain; eauto.
    + destruct (backslash e) as [c'|] eqn:Hb; [|discriminate].
      apply push_scanned in H as (t' & -> & Hx).
      constructor; [eapply backslash_range, Hb|]. eapply IH, Hx.
  - destruct (c <=? 31) eqn:Hc; [discriminate|].
    apply push_scanned in H as (t' & -> & Hx).
    constructor; [lia|]. eapply IH, Hx.
Qed.

Lemma well_formed_list l :
  well_formed (PyList l) <-> Forall well_formed l.
Proof.
  induction l as [|x l IH]; cbn [well_formed fold_right].
  - split; [constructor|trivial].
  - rewrite Forall_cons. cbn [well_formed] in IH. rewrite IH. reflexivity.
Qed.

Lemma well_formed_dict d :
  well_formed (PyDict d)
  <-> NoDup (map fst d)
      /\ Forall (fun kv => valid_str (fst kv) /\ well_formed (snd kv)) d.
Proof.
  cbn [well_formed]. apply and_iff_compat_l.
  induction d as [|kv d IH]; cbn [fold_right].
  - split; [constructor|trivial].
  - rewrite Forall_cons, IH. tauto.
Qed.

Lemma dict_set_keys d k v :
  map fst (dict_set d k v) = map fst d
  \/ ((k ∉ map fst d) /\ map fst (dict_set d k v) = map fst d ++ [k]).
Proof.
  induction d as [|[k' v'] d IH]; cbn [dict_set map fst app].
  - right. split; [apply not_elem_of_nil|reflexivity].
  - unfold str_eqb. destruct (bool_decide_reflect (k' = k)) as [->|Hne].
    + left. reflexivity.
    + cbn [map fst]. destruct IH as [->|[Hk ->]]; [left; reflexivity|].
      right. split; [|reflexivity].
      apply not_elem_of_cons. split; [congruence|exact Hk].
Qed.

Lemma dict_set_well_formed d k v :
  well_formed (PyDict d) -> valid_str k -> well_formed v ->
  well_formed (PyDict (dict_set d k v)).
Proof.
  rewrite !well_formed_dict. intros [Hnd Hall] Hk Hv. split.
  - destruct (dict_set_keys d k v) as [->|[Hfresh ->]]; [exact Hnd|].
    apply NoDup_app. split; [exact Hnd|]. split.
    + intros x Hx Hin. apply list_elem_of_singleton in Hin. subst x.
      exact (Hfresh Hx).
    + apply NoDup_singleton.
  - clear Hnd. induction d as [|[k' v'] d IH]; cbn [dict_set].
    + constructor; [split; assumption|constructor].
    + apply Forall_cons in Hall as [[Hk' Hv'] Hall].
      unfold str_eqb. destruct (bool_decide (k' = k)).
      * constructor; [split; assumption|exact Hall].
      * constructor; [split; assumption|apply IH, Hall].
Qed.

Lemma well_formed_snoc acc x :
  well_formed (PyList acc) -> well_formed x -> well_formed (PyList (acc ++ [x])).
Proof.
  rewrite !well_formed_list. intros Hacc Hx.
  apply Forall_app. split; [exact Hacc|]. constructor; [exact Hx|constructor].
Qed.

(** Whatever the scanner returns is well formed: its strings are valid and
    the keys of its objects are distinct. *)
Lemma scanned_well_formed fuel :
  (forall s idx v r i,
      scan_once fuel s idx = Scanned v r i -> well_formed v)
  /\ (forall acc s idx v r i,
        well_formed (PyDict acc) ->
        parse_object fuel acc s idx = Scanned v r i -> well_formed v)
  /\ (forall acc s idx v r i,
        well_formed (PyList acc) ->
        parse_array fuel acc s idx = Scanned v r i -> well_formed v).
Proof.
  induction fuel as [|fuel (IHs & IHo & IHa)];
    [repeat split; intros; discriminate|].
  repeat split.
  - intros s idx v r i H. cbn [scan_once] in H.
    destruct s as [|c s']; [discriminate|].
    destruct (c =? 34).
    { destruct (scanstring _ _ _ _) eqn:Hs in H; inversion H; subst.
      eapply scanstring_valid, Hs. }
    destruct (c =? chr "{").
    { destruct (skip_ws s' (idx + 1)) as [s1 i1].
      assert (Hobj : forall t, parse_object fuel [] t i1 = Scanned v r i ->
                               well_formed v).
      { intros t Ht. eapply IHo; [|exact Ht]. split; [constructor|exact I]. }
      destruct s1 as [|c1 r1]; [eauto|].
      destruct c1 as [|p|p]; eauto.
      do 7 (try destruct p as [p|p|]); eauto.
      inversion H. split; [constructor|exact I]. }
    destruct (c =? chr "[").
    { destruct (skip_ws s' (idx + 1)) as [s1 i1].
      assert (Harr : forall t, parse_array fuel [] t i1 = Scanned v r i ->
                               well_formed v).
      { intros t Ht. eapply IHa; [|exact Ht]. exact I. }
      destruct s1 as [|c1 r1]; [eauto|].
      destruct c1 as [|p|p]; eauto.
      do 7 (try destruct p as [p|p|]); eauto.
      inversion H. exact I. }
    repeat match type of H with
           | context [if ?b then _ else _] =>
               destruct b; [inversion H; exact I|]
           end.
    destruct (match_number (c :: s')) as [[[[ip frac] ex] rest]|];
      [|discriminate].
    inversion H. destruct frac, ex; exact I.
  - intros acc s idx v r i Hacc H. cbn [parse_object] in H.
    destruct s as [|c s']; [discriminate|].
    destruct c as [|p|p]; try discriminate.
    do 7 (try (destruct p as [p|p|]; try discriminate)).
    destruct (scanstring _ _ _ _) as [key s1 i1| | |] eqn:Hkey in H;
      try discriminate.
    destruct (skip_ws s1 i1) as [s2 i2].
    destruct s2 as [|c2 s3]; [discriminate|].
    destruct c2 as [|p|p]; try discriminate.
    do 7 (try (destruct p as [p|p|]; try discriminate)).
    destruct (skip_ws s3 (i2 + 1)) as [s4 i4].
    destruct (scan_once fuel s4 i4) as [x s5 i5| | |] eqn:Hx;
      try discriminate.
    destruct (skip_ws s5 i5) as [s6 i6].
    pose proof (dict_set_well_formed acc key x Hacc
                  (scanstring_valid _ _ _ _ _ _ _ Hkey)
                  (IHs _ _ _ _ _ Hx)) as Hacc'.
    destruct s6 as [|c6 s7]; [discriminate|].
    destruct c6 as [|p|p]; try discriminate.
    do 7 (try (destruct p as [p|p|]; try discriminate)).
    + inversion H; subst. exact Hacc'.
    + destruct (skip_ws s7 (i6 + 1)) as [s8 i8].
      eapply IHo; [exact Hacc'|exact H].
  - intros acc s idx v r i Hacc H. cbn [parse_array] in H.
    destruct (scan_once fuel s idx) as [x s1 i1| | |] eqn:Hx;
      try discriminate.
    destruct (skip_ws s1 i1) as [s2 i2].
    pose proof (well_formed_snoc acc x Hacc (IHs _ _ _ _ _ Hx)) as Hacc'.
    destruct s2 as [|c2 s3]; [discriminate|].
    destruct c2 as [|p|p]; try discriminate.
    do 7 (try (destruct p as [p|p|]; try discriminate)).
    + inversion H; subst. exact Hacc'.
    + destruct (skip_ws s3 (i2 + 1)) as [s4 i4].
      eapply IHa; [exact Hacc'|exact H].
Qed.

(** [loads] refuses a byte-order mark and otherwise is [decode]. *)
Lemma decode_loads s c t :
  s = c :: t -> c <> 65279 -> loads s = decode s.
Proof.
  intros -> Hne. unfold loads.
  destruct c as [|p|p]; try exact eq_refl.
  do 16 (try destruct p as [p|p|]; try exact eq_refl). congruence.
Qed.

Lemma loads_bom t :
  exists e, loads (65279 :: t) = Raise e.
Proof. eexists. reflexivity. Qed.

Lemma loads_decode s v : loads s = Ok v -> decode s = Ok v.
Proof.
  destruct s as [|c t]; [intros H; exact H|].
  destruct (Z.eq_dec c 65279) as [->|Hne].
  - destruct (loads_bom t) as [e ->]. discriminate.
  - rewrite (decode_loads (c :: t) c t eq_refl Hne). trivial.
Qed.

Lemma loads_well_formed s v : loads s = Ok v -> well_formed v.
Proof.
  intros H. apply loads_decode in H. unfold decode in H.
  destruct (skip_ws s 0) as [s1 i1].
  destruct (scan_once _ s1 i1) as [v' rest i| | |] eqn:Hv; try discriminate.
  destruct (skip_ws rest i) as [r2 i2]. destruct r2; [|discriminate].
  inversion H; subst v'. eapply (proj1 (scanned_well_formed _)), Hv.
Qed.

End Decoded.

(** ** The encoder's text, read by the decoder *)

Section ReadBack.
Context {RT : Runtime}.
Import Json.
Hypothesis laws : float_laws.

Lemma weight_more_items level l :
  Forall (fun x => forall level, (weight x <= length (pretty level x))%nat) l ->
  (weight (PyList l) <= S (length (more_items level l)))%nat.
Proof.
  induction 1 as [|x l Hx Hl IH]; [cbn; lia|].
  rewrite weight_list, more_items_cons. cbn [length].
  rewrite !length_app. specialize (Hx (S level)).
  clear Hl. lia.
Qed.

Lemma weight_more_members level d :
  Forall (fun kv => forall level,
              (weight (snd kv) <= length (pretty level (snd kv)))%nat) d ->
  (weight (PyDict d) <= S (length (more_members level d)))%nat.
Proof.
  induction 1 as [|[k x] d Hx Hd IH]; [cbn; lia|].
  rewrite weight_dict, more_members_cons. cbn [length].
  rewrite !length_app. unfold member. cbn [fst snd] in *.
  rewrite !length_app. specialize (Hx (S level)). lia.
Qed.

(** The text of a value is at least as long as the value is heavy. *)
Lemma weight_length v :
  forall level, (weight v <= length (pretty level v))%nat.
Proof.
  induction v as [ | b | z | x | s | l IH | d IH ] using value_induction;
    intros level.
  1-5: match goal with
       | |- (_ <= length (pretty _ ?v))%nat =>
           destruct (pretty_opens laws v level) as (c & t & -> & _)
       end; cbn; lia.
  - destruct l as [|x l]; [vm_compute; lia|].
    apply Forall_cons in IH as [Hx Hl].
    pose proof (weight_more_items level l Hl). clear Hl.
    rewrite weight_list, pretty_list. cbn [length]. rewrite !length_app.
    cbn [length]. specialize (Hx (S level)). lia.
  - destruct d as [|[k x] d]; [vm_compute; lia|].
    apply Forall_cons in IH as [Hx Hd]. cbn [snd] in Hx.
    pose proof (weight_more_members level d Hd). clear Hd.
    rewrite weight_dict, pretty_dict. cbn [length]. rewrite !length_app.
    unfold member. cbn [fst snd]. rewrite !length_app. cbn [length].
    specialize (Hx (S level)). lia.
Qed.

(** Reading the text of a well-formed value gives the value. *)
Lemma loads_pretty v : well_formed v -> loads (pretty 0 v) = Ok v.
Proof.
  intros Hwf.
  destruct (pretty_opens laws v 0%nat) as (c & t & Ec & Hws & _ & Hbom).
  rewrite (decode_loads _ c t Ec Hbom). unfold decode.
  rewrite Ec at 1. rewrite skip_ws_stop by exact Hws. rewrite <- Ec.
  destruct (scan_pretty laws v Hwf 0%nat (2 * length (pretty 0 v) + 2)%nat
              [] 0) as [i E].
  - pose proof (weight_length v 0%nat). lia.
  - exact I.
  - rewrite app_nil_r in E. rewrite E. reflexivity.
Qed.

End ReadBack.

(** ** The text of a value holds no carriage return *)

Section NoCarriageReturn.
Context {RT : Runtime}.
Import Json.
Hypothesis laws : float_laws.

Lemma number_chars_no_cr s :
  Forall (fun c => is_number_char c = true) s -> no_cr s.
Proof.
  intros H. eapply Forall_impl; [exact H|]. intros c Hc ->. discriminate.
Qed.

Lemma literal_no_cr s ip frac ex :
  match_number s = Some (ip, frac, ex, []) -> no_cr s.
Proof.
  intros H. destruct (match_number_split s ip frac ex [] H) as (-> & Hall & _).
  rewrite app_nil_r. apply number_chars_no_cr, Hall.
Qed.

Lemma escape_char_no_cr c : needs_escape c = true -> no_cr (escape_char c).
Proof.
  intros Hesc.
  destruct c as [|p|p]; [| |discriminate Hesc].
  - vm_compute. repeat constructor; discriminate.
  - do 7 (try destruct p as [p|p|]); try discriminate Hesc;
      vm_compute; repeat constructor; discriminate.
Qed.

Lemma escaped_no_cr s : no_cr (escaped s).
Proof.
  induction s as [|c s IH]; [constructor|].
  unfold escaped. cbn [map concat]. fold (escaped s).
  apply Forall_app. split; [|exact IH].
  destruct (needs_escape c) eqn:E; [apply escape_char_no_cr, E|].
  constructor; [|constructor]. intros ->. discriminate E.
Qed.

Lemma line_break_no_cr level : no_cr (line_break level).
Proof.
  unfold line_break. constructor; [discriminate|].
  apply Forall_replicate. discriminate.
Qed.

Lemma no_cr_text (s : string) :
  forallb (fun c => negb (c =? 13)) (py s) = true -> no_cr (py s).
Proof.
  intros H. apply Forall_forall. intros c Hc ->.
  rewrite forallb_forall in H. apply list_elem_of_In in Hc.
  specialize (H 13 Hc). discriminate.
Qed.

Lemma pretty_no_cr v : forall level, no_cr (pretty level v).
Proof.
  induction v as [ | b | z | x | s | l IH | d IH ] using value_induction;
    intros level.
  - apply no_cr_text. reflexivity.
  - destruct b; apply no_cr_text; reflexivity.
  - eapply literal_no_cr, match_number_int_repr.
  - destruct x as [ | | | x]; try (apply no_cr_text; reflexivity).
    destruct laws as [_ Hshape].
    destruct (Hshape x) as (ip & frac & ex & Hnum & _).
    eapply literal_no_cr, Hnum.
  - cbn [pretty]. rewrite quote_string_escaped.
    constructor; [discriminate|]. apply Forall_app.
    split; [apply escaped_no_cr|]. constructor; [discriminate|constructor].
  - destruct l as [|x l]; [apply no_cr_text; reflexivity|].
    rewrite pretty_list. apply Forall_cons in IH as [Hx Hl].
    constructor; [discriminate|].
    apply Forall_app; split; [apply line_break_no_cr|].
    apply Forall_app; split; [apply Hx|].
    apply Forall_app; split.
    + induction Hl as [|y l Hy Hl IHl]; [constructor|].
      rewrite more_items_cons. constructor; [discriminate|].
      apply Forall_app; split; [apply line_break_no_cr|].
      apply Forall_app; split; [apply Hy|exact IHl].
    + apply Forall_app; split; [apply line_break_no_cr|].
      constructor; [discriminate|constructor].
  - destruct d as [|[k x] d]; [apply no_cr_text; reflexivity|].
    rewrite pretty_dict. apply Forall_cons in IH as [Hx Hd].
    assert (Hmember : forall k y,
               (forall level, no_cr (pretty level y)) ->
               no_cr (member level (k, y))).
    { intros k0 y Hy. unfold member. cbn [fst snd].
      rewrite quote_string_escaped. cbn [app]. rewrite <- app_assoc.
      cbn [app]. constructor; [discriminate|].
      apply Forall_app; split; [apply escaped_no_cr|].
      constructor; [discriminate|]. constructor; [discriminate|].
      constructor; [discriminate|]. apply Hy. }
    constructor; [discriminate|].
    apply Forall_app; split; [apply line_break_no_cr|].
    apply Forall_app; split; [apply Hmember, Hx|].
    apply Forall_app; split.
    + induction Hd as [|[k' y] d Hy Hd IHd]; [constructor|].
      rewrite more_members_cons. constructor; [discriminate|].
      apply Forall_app; split; [apply line_break_no_cr|].
      apply Forall_app; split; [apply Hmember, Hy|exact IHd].
    + apply Forall_app; split; [apply line_break_no_cr|].
      constructor; [discriminate|constructor].
Qed.

End NoCarriageReturn.

(** ** What is saved, and reading it back *)

Section Persisted.
Context {RT : Runtime}.
Import Json JsonToVoice AnalyzeStamp.

(** The chunks written to an open file are appended to it, encoded. *)
Lemma write_chunks_stored chunks :
  forall fs loc old w w',
    files w = mk_fs (<[loc := File old]> (nodes fs)) (cwd fs) ->
    write_chunks loc chunks w = (Ok tt, w') ->
    exists d,
      utf8_encode (concat chunks) = Some d /\
      files w' = mk_fs (<[loc := File (old ++ d)]> (nodes fs)) (cwd fs) /\
      network w' = network w /\ stdout w' = stdout w /\ stderr w' = stderr w.
Proof.
  induction chunks as [|c cs IH]; intros fs loc old w w' Hfiles Hrun.
  - inversion Hrun; subst w'. exists []. rewrite app_nil_r. auto.
  - cbn [write_chunks] in Hrun.
    apply bind_inv_ok in Hrun as ([] & w1 & Hc & Hrest).
    unfold write_str in Hc.
    destruct (utf8_encode c) as [dc|] eqn:Hdc; [|discriminate].
    unfold write_bytes in Hc. inversion Hc; subst w1; clear Hc.
    rewrite Hfiles, append_stored in Hrest.
    edestruct (IH fs loc (old ++ dc)) as (d & Hd & Hfs & Hn & Ho & He);
      [|exact Hrest|]; [reflexivity|].
    exists (dc ++ d). cbn [concat].
    rewrite (utf8_encode_app c (concat cs) dc d Hdc Hd), app_assoc.
    auto.
Qed.

(** Opening a file for writing and writing chunks of text to it. *)
Lemma save_text path chunks w w' :
  (let! f := open_for_writing path in write_chunks f chunks) w = (Ok tt, w') ->
  exists d,
    utf8_encode (concat chunks) = Some d /\
    read_bytes (files w') path = Ok d /\
    network w' = network w /\ stdout w' = stdout w /\ stderr w' = stderr w.
Proof.
  intros Hrun. apply bind_inv_ok in Hrun as (loc & w1 & Hopen & Hwrite).
  unfold open_for_writing in Hopen.
  destruct (open_w (files w) path) as [r fs1] eqn:Hw.
  inversion Hopen; subst r w1; clear Hopen.
  apply open_w_ok in Hw as (Href & Hres & Hnot & Hne & ->).
  edestruct (write_chunks_stored chunks (files w) loc [])
    as (d & Hd & Hfs & Hn & Ho & He); [|exact Hwrite|]; [reflexivity|].
  exists d. cbn [app] in Hfs. repeat split; auto.
  eapply read_back; eauto.
  - rewrite Hfs. apply same_dirs_refl.
  - rewrite Hfs. cbn [nodes]. apply lookup_insert_eq.
Qed.

Lemma print_inv_ok s w u w' :
  print s w = (Ok u, w') -> files w' = files w /\ network w' = network w.
Proof.
  rewrite print_eq. destruct (utf8_encode s); [|discriminate].
  intros H. inversion H; subst. auto.
Qed.

(** What [persist] leaves behind when it succeeds. *)
Lemma persist_ok result w v w' :
  persist result w = (Ok v, w') ->
  loads result = Ok v /\
  network w' = network w /\
  exists d,
    utf8_encode (pretty 0 v) = Some d /\
    read_bytes (files w') (Path_str output_file) = Ok d.
Proof.
  unfold persist. intros Hrun.
  apply bind_inv_ok in Hrun as (v0 & w0 & Hload & Hrun).
  unfold lift in Hload. inversion Hload as [[Hv Hw0]]; subst w0; clear Hload.
  apply bind_inv_ok in Hrun as ([] & w1 & Hp1 & Hrun).
  apply bind_inv_ok in Hrun as ([] & w2 & Hp2 & Hrun).
  apply bind_inv_ok in Hrun as ([] & w3 & Hdir & Hrun).
  apply bind_inv_ok in Hrun as ([] & w4 & Hsave & Hrun).
  apply bind_inv_ok in Hrun as ([] & w5 & Hp3 & Hrun).
  inversion Hrun; subst v0 w5; clear Hrun.
  apply print_inv_ok in Hp1 as [_ Hn1], Hp2 as [_ Hn2], Hp3 as [Hf3 Hn3].
  assert (Hn : network w3 = network w2).
  { unfold mkdir in Hdir.
    destruct (mkdir_exist_ok (files w2) (Path_str output_dir)) as [r fs'].
    inversion Hdir; subst. reflexivity. }
  destruct (save_text _ _ _ _ Hsave) as (d & Hd & Hread & Hn4 & _).
  split; [exact Hv|]. split; [congruence|].
  exists d. rewrite iterencode_pretty in Hd. rewrite Hf3. auto.
Qed.

End Persisted.

Section SavedAndLoaded.
Context {RT : Runtime}.
Import Json JsonToVoice AnalyzeStamp.
Hypothesis laws : float_laws.

(** A file that holds the text of a well-formed value is loaded as that
    value, and loading changes nothing. *)
Lemma load_pretty path w v d :
  well_formed v ->
  utf8_encode (pretty 0 v) = Some d ->
  read_bytes (files w) path = Ok d ->
  load_json_result path w = (Ok v, w).
Proof.
  intros Hwf Hd Hread. unfold load_json_result.
  rewrite bind_eq. unfold os_path_exists.
  rewrite (read_bytes_exists _ _ _ Hread). cbn [negb].
  rewrite bind_eq. unfold open_r_read. rewrite bind_eq.
  unfold open_rb_read. rewrite Hread.
  rewrite (utf8_decode_encode _ _ Hd). unfold ret.
  rewrite universal_newlines_id.
  - unfold lift. rewrite (loads_pretty laws v Hwf). reflexivity.
  - intros Hin. pose proof (pretty_no_cr laws v 0%nat) as Hcr.
    unfold no_cr in Hcr. rewrite Forall_forall in Hcr.
    apply (Hcr 13); [apply list_elem_of_In, Hin|reflexivity].
Qed.

End SavedAndLoaded.

(** ** The floats of the text runtime *)

Section TextFloats.
Import Json TextRuntime.

Lemma text_runtime_float_laws : @float_laws runtime.
Proof.
  split.
  - intros [s Hs]. cbn [float_repr float_of_literal runtime proj1_sig].
    unfold parse_literal.
    destruct (bool_dec (is_float_literal s) true) as [H|H]; [|contradiction].
    do 2 f_equal. apply (Eqdep_dec.UIP_dec bool_dec).
  - intros [s Hs]. cbn [float_repr runtime proj1_sig].
    unfold is_float_literal in Hs.
    destruct (match_number s) as [[[[ip frac] ex] rest]|]; [|discriminate].
    destruct rest; [|discriminate].
    exists ip, frac, ex. split; [reflexivity|].
    unfold str_eqb in Hs. apply negb_true_iff, andb_false_iff in Hs.
    destruct Hs as [Hs|Hs]; apply bool_decide_eq_false in Hs; auto.
Qed.

End TextFloats.

(** * Further properties of the code *)

(** ** Text files and the JSON codec *)

Section Codec.
Context {RT : Runtime}.
Import Json.

(** X1. A text written to a file opened with [encoding="utf-8"] is
    stored as its UTF-8 encoding, which decodes to the text; read back
    through [open(path, "r", encoding="utf-8")] it comes with its line
    ends made uniform (a carriage return, with the line feed that may
    follow it, is read as a line feed), so that a text without carriage
    returns is read back as it was written. *)
Theorem text_file_round_trip (path s : pystr) (w w' : world) :
  (let! f := open_for_writing path in write_str f s) w = (Ok tt, w') ->
  (exists d,
      utf8_encode s = Some d /\
      read_bytes (files w') path = Ok d /\
      utf8_decode d = Some s) /\
  open_r_read path w' = (Ok (universal_newlines s), w') /\
  (no_cr s -> open_r_read path w' = (Ok s, w')).
Proof.
  intros Hrun.
  assert (Hd : exists d, utf8_encode s = Some d /\
             (let! f := open_for_writing path in write_bytes f d) w
             = (Ok tt, w')).
  { unfold write_str in Hrun.
    destruct (utf8_encode s) as [d|]; [eauto|].
    apply bind_inv_ok in Hrun as (f & wf & _ & Hrun). discriminate. }
  destruct Hd as (d & Hd & Hwrite).
  destruct (write_file_bytes _ _ _ _ Hwrite) as [Hread _].
  pose proof (utf8_decode_encode s d Hd) as Hback.
  assert (Hopen : open_r_read path w' = (Ok (universal_newlines s), w')).
  { unfold open_r_read. rewrite bind_eq. unfold open_rb_read.
    rewrite Hread, Hback. reflexivity. }
  split; [exists d; auto|]. split; [exact Hopen|].
  intros Hcr. rewrite Hopen, universal_newlines_id; [reflexivity|].
  intros Hin. unfold no_cr in Hcr. rewrite Forall_forall in Hcr.
  apply (Hcr 13); [apply list_elem_of_In, Hin|reflexivity].
Qed.

(** X2. [json.dumps(o, ensure_ascii=False, indent=2)], and the chunks
    [json.dump] writes put end to end, are the pretty text of the value:
    one member or element per line, two spaces per nesting level, a comma
    at the end of each line but the last, a colon and a space after a
    key. *)
Theorem dumps_is_the_pretty_text (v : value) :
  dumps v = pretty 0 v /\
  forall level, concat (iterencode v level) = pretty level v.
Proof.
  split; [apply dumps_pretty|]. intros level. apply iterencode_pretty.
Qed.

(** X3. With [ensure_ascii=False] a string without quotes, backslashes
    and control characters is written as it is between two quotes;
    every character outside ASCII is such a character. *)
Theorem plain_strings_are_not_escaped (s : pystr) :
  Forall (fun c => 32 <= c /\ c <> 34 /\ c <> 92) s ->
  dumps (PyStr s) = [34] ++ s ++ [34].
Proof.
  intros Hs. rewrite dumps_pretty. cbn [pretty].
  rewrite quote_string_escaped. cbn [app]. do 2 f_equal.
  induction Hs as [|c s (Hc & Hq & Hb) Hs IH]; [reflexivity|].
  unfold escaped. cbn [map concat]. fold (escaped s). rewrite IH.
  assert (E : needs_escape c = false).
  { unfold needs_escape. rewrite !orb_false_iff. repeat split.
    - apply Z.eqb_neq, Hq.
    - apply Z.eqb_neq, Hb.
    - apply between_false. lia. }
  rewrite E. reflexivity.
Qed.

(** X4. Decoding what the encoder wrote gives the value back, for every
    value whose strings are valid and whose objects have distinct keys,
    provided [repr] of a float reads back as that float. *)
Theorem loads_inverts_dumps (v : value) :
  float_laws -> well_formed v -> loads (dumps v) = Ok v.
Proof.
  intros laws Hwf. rewrite dumps_pretty. apply (loads_pretty laws v Hwf).
Qed.

(** X5. Whatever [json.loads] returns is well formed: no object in it
    has the same key twice (a repeated member keeps its first place and
    takes the last value), and no string holds a negative code point. *)
Theorem loads_gives_distinct_keys (s : pystr) (v : value) :
  loads s = Ok v -> well_formed v.
Proof. apply loads_well_formed. Qed.

End Codec.

Section CodecEvaluated.
Import Json Samples.
#[local] Existing Instance TextRuntime.runtime.

Lemma text_file_round_trip_witness :
  let path := py "output/notes.txt" in
  let run := (let! f := open_for_writing path in
              write_str f (py "Почта" ++ [13; 10] ++ py "СССР")) analysed in
  fst run = Ok tt /\
  read_bytes (files (snd run)) path
  = Ok (octets "Почта" ++ [13; 10] ++ octets "СССР") /\
  open_r_read path (snd run)
  = (Ok (py "Почта" ++ [10] ++ py "СССР"), snd run).
Proof.
  intros path run.
  assert (Hrun : (let! f := open_for_writing path in
                  write_str f (py "Почта" ++ [13; 10] ++ py "СССР")) analysed
                 = (Ok tt, snd run)) by (vm_compute; reflexivity).
  destruct (text_file_round_trip path _ analysed (snd run) Hrun)
    as ((d & Hd & Hread & _) & Hopen & _).
  split; [vm_compute; reflexivity|]. split.
  - rewrite Hread. vm_compute in Hd. inversion Hd. reflexivity.
  - rewrite Hopen. reflexivity.
Defined.

Lemma plain_strings_are_not_escaped_witness :
  dumps (PyStr (py "Почта СССР")) = [34] ++ py "Почта СССР" ++ [34].
Proof.
  apply (plain_strings_are_not_escaped (py "Почта СССР")).
  repeat constructor; vm_compute; congruence.
Defined.

Lemma loads_inverts_dumps_witness :
  exists v,
    loads record_text = Ok v /\ well_formed v /\ loads (dumps v) = Ok v.
Proof.
  pose (v := match loads record_text with
             | Ok v => v
             | Raise _ => PyNone
             end).
  assert (Hv : loads record_text = Ok v) by (vm_compute; reflexivity).
  exists v. split; [exact Hv|].
  assert (Hwf : well_formed v) by (apply loads_well_formed with record_text, Hv).
  split; [exact Hwf|].
  apply (loads_inverts_dumps v text_runtime_float_laws Hwf).
Defined.

Lemma loads_gives_distinct_keys_witness :
  let twice := with_quotes (py "{`a`: 1, `b`: [], `a`: 2}") in
  loads twice = Ok (PyDict [(py "a", PyInt 2); (py "b", PyList [])]) /\
  well_formed (PyDict [(py "a", PyInt 2); (py "b", PyList [])]).
Proof.
  intros twice.
  assert (H : loads twice = Ok (PyDict [(py "a", PyInt 2); (py "b", PyList [])]))
    by (vm_compute; reflexivity).
  split; [exact H|].
  apply (loads_gives_distinct_keys twice _ H).
Defined.

End CodecEvaluated.

(** ** The saved record *)

Section SavedRecord.
Context {RT : Runtime}.
Import Json JsonToVoice AnalyzeStamp.

(** X6. When the statements that validate, show and save the answer
    succeed, the value they return is the answer decoded, no request has
    been sent, and [output/result.json] holds the UTF-8 encoding of the
    pretty text of that value. *)
Theorem result_json_is_the_pretty_text
    (result : pystr) (w w' : world) (v : value) :
  persist result w = (Ok v, w') ->
  loads result = Ok v /\
  network w' = network w /\
  exists d,
    utf8_encode (pretty 0 v) = Some d /\
    read_bytes (files w') (Path_str output_file) = Ok d.
Proof. apply persist_ok. Qed.

(** X7. The record that was saved is the record that is loaded: after the
    save, [load_json_result] on [output/result.json] returns the value
    that was written, and changes nothing. *)
Theorem saved_record_loads_back
    (result : pystr) (w w' : world) (v : value) :
  float_laws ->
  persist result w = (Ok v, w') ->
  load_json_result (Path_str output_file) w' = (Ok v, w').
Proof.
  intros laws Hrun.
  destruct (persist_ok result w v w' Hrun) as (Hv & _ & d & Hd & Hread).
  apply (load_pretty laws _ w' v d); auto.
  apply loads_well_formed with result. exact Hv.
Qed.

(** X8. [load_json_result] only reads: whatever the outcome, the world
    is as it was. A path that does not exist raises [FileNotFoundError]
    naming the path, and a file that is not UTF-8 raises
    [UnicodeDecodeError]. *)
Theorem load_json_result_only_reads (json_path : pystr) (w : world) :
  snd (load_json_result json_path w) = w /\
  (exists_ (files w) json_path = false ->
   fst (load_json_result json_path w)
   = Raise (mk_exn FileNotFoundError (py "JSON-файл не найден: " ++ json_path)))
  /\
  (forall d,
      read_bytes (files w) json_path = Ok d -> utf8_decode d = None ->
      exists e,
        fst (load_json_result json_path w) = Raise e /\
        cls e = UnicodeDecodeError).
Proof.
  unfold load_json_result. rewrite bind_eq. unfold os_path_exists.
  destruct (exists_ (files w) json_path) eqn:Hex; cbn [negb].
  - rewrite bind_eq. unfold open_r_read. rewrite bind_eq.
    unfold open_rb_read.
    destruct (read_bytes (files w) json_path) as [d|e] eqn:Hread.
    + destruct (utf8_decode d) as [s|] eqn:Hs.
      * unfold ret, lift. cbn [fst snd].
        split; [reflexivity|]. split; [discriminate|].
        intros d' [= <-] Hnone. congruence.
      * unfold raise. cbn [fst snd].
        split; [reflexivity|]. split; [discriminate|].
        intros d' _ _. eexists. split; reflexivity.
    + cbn [fst snd]. split; [reflexivity|]. split; discriminate.
  - unfold raise. cbn [fst snd]. split; [reflexivity|].
    split; [reflexivity|].
    intros d Hread. apply read_bytes_exists in Hread. congruence.
Qed.

End SavedRecord.

Section SavedRecordEvaluated.
Import Json JsonToVoice AnalyzeStamp Samples.
#[local] Existing Instance TextRuntime.runtime.

Lemma result_json_is_the_pretty_text_witness :
  let run := persist record_text fresh in
  let text := with_quotes (py "{
  `country`: `France`,
  `confidence`: 0.9
}") in
  exists v d,
    fst run = Ok v /\
    loads record_text = Ok v /\
    pretty 0 v = text /\
    utf8_encode text = Some d /\
    read_bytes (files (snd run)) (py "output/result.json") = Ok d.
Proof.
  intros run text.
  pose (v := match fst run with Ok v => v | Raise _ => PyNone end).
  assert (Hrun : persist record_text fresh = (Ok v, snd run))
    by (vm_compute; reflexivity).
  destruct (result_json_is_the_pretty_text record_text fresh (snd run) v Hrun)
    as (Hv & _ & d & Hd & Hread).
  assert (Htext : pretty 0 v = text) by (vm_compute; reflexivity).
  exists v, d. rewrite <- Htext.
  repeat split; auto.
Defined.

Lemma saved_record_loads_back_witness :
  let run := persist record_text fresh in
  exists v,
    fst run = Ok v /\
    load_json_result (py "output/result.json") (snd run) = (Ok v, snd run).
Proof.
  intros run.
  pose (v := match fst run with Ok v => v | Raise _ => PyNone end).
  assert (Hrun : persist record_text fresh = (Ok v, snd run))
    by (vm_compute; reflexivity).
  exists v. split; [vm_compute; reflexivity|].
  apply (saved_record_loads_back record_text fresh (snd run) v
           text_runtime_float_laws Hrun).
Defined.

End SavedRecordEvaluated.

(** ** The narration text *)

Section Strip.

Lemma lstrip_head s a t : lstrip s = a :: t -> isspace a = false.
Proof.
  induction s as [|c s IH]; [discriminate|]. cbn [lstrip].
  destruct (isspace c) eqn:Hc; [exact IH|].
  intros [= <- <-]. exact Hc.
Qed.

Lemma lstrip_split s :
  exists p, s = p ++ lstrip s /\ Forall (fun c => isspace c = true) p.
Proof.
  induction s as [|c s (p & Hs & Hp)]; [exists []; split; [reflexivity|constructor]|].
  cbn [lstrip]. destruct (isspace c) eqn:Hc.
  - exists (c :: p). split; [cbn [app]; congruence|constructor; assumption].
  - exists []. split; [reflexivity|constructor].
Qed.

Lemma lstrip_blank s : Forall (fun c => isspace c = true) s -> lstrip s = [].
Proof.
  induction 1 as [|c s Hc Hs IH]; [reflexivity|].
  cbn [lstrip]. rewrite Hc. exact IH.
Qed.

Lemma lstrip_stripped s :
  (forall a t, s = a :: t -> isspace a = false) -> lstrip s = s.
Proof.
  destruct s as [|c s]; [reflexivity|]. intros H.
  cbn [lstrip]. rewrite (H c s eq_refl). reflexivity.
Qed.

(** [strip] takes a piece out of the middle of the text: white space
    before it and after it, none at its ends. *)
Lemma strip_split s :
  exists p q,
    s = p ++ strip s ++ q /\
    Forall (fun c => isspace c = true) p /\
    Forall (fun c => isspace c = true) q /\
    (forall a t, strip s = a :: t -> isspace a = false) /\
    (forall t a, strip s = t ++ [a] -> isspace a = false).
Proof.
  unfold strip.
  destruct (lstrip_split s) as (p & Hs & Hp).
  destruct (lstrip_split (rev (lstrip s))) as (q & Hr & Hq).
  assert (Hu : lstrip s = rev (lstrip (rev (lstrip s))) ++ rev q).
  { rewrite <- rev_app_distr, <- Hr, rev_involutive. reflexivity. }
  exists p, (rev q). split; [rewrite <- Hu; exact Hs|].
  split; [exact Hp|]. split; [apply Forall_rev, Hq|]. split.
  - intros a t Ha. rewrite Ha in Hu. cbn [app] in Hu.
    apply (lstrip_head s a _ Hu).
  - intros t a Ha. apply (f_equal (@rev Z)) in Ha.
    rewrite rev_involutive, rev_app_distr in Ha. cbn [rev app] in Ha.
    apply (lstrip_head _ a _ Ha).
Qed.

Lemma strip_blank s : Forall (fun c => isspace c = true) s -> strip s = [].
Proof.
  intros H. unfold strip. rewrite (lstrip_blank s H). reflexivity.
Qed.

End Strip.

Section VoiceScript.
Context {RT : Runtime}.
Import Json JsonToVoice AnalyzeStamp.

(** [generate_voice_script] with a key and a model: one client, one
    request, and the first content of the answer, stripped. *)
Lemma generate_voice_script_reaches_service h data key model w :
  key <> [] -> model <> [] ->
  let request := narration_request model data in
  let w' := sending w [ClientCreated key; ChatRequest request] in
  generate_voice_script h data (Some key) (Some model) w
  = match chat_completions_create (openai h) request with
    | Ok response =>
        (match first_content empty_script response with
         | Ok c => Ok (strip c)
         | Raise e => Raise e
         end, w')
    | Raise e => (Raise e, w')
    end.
Proof.
  intros Hk Hm request w'. unfold generate_voice_script.
  destruct key as [|k0 key]; [congruence|].
  destruct model as [|m0 model]; [congruence|].
  cbn [truthy negb default from_option id].
  rewrite bind_eq. unfold OpenAI, emit. rewrite bind_eq.
  unfold chat_create. rewrite bind_eq. unfold emit, lift.
  cbn [files network stdout stderr].
  fold (narration_request (m0 :: model) data). fold request.
  assert (Ew : {| files := files w;
                  network := (network w ++ [ClientCreated (k0 :: key)])
                             ++ [ChatRequest request];
                  stdout := stdout w; stderr := stderr w |} = w').
  { unfold w', sending. rewrite <- app_assoc. reflexivity. }
  rewrite Ew.
  destruct (chat_completions_create (openai h) request) as [r|e];
    [|reflexivity].
  unfold first_content.
  destruct (choices r) as [[|first rest]|]; try reflexivity.
  destruct (message_of first) as [m|]; [|reflexivity].
  destruct (negb (truthy (content m))); reflexivity.
Qed.

(** What a successful [generate_voice_script] did. *)
Lemma generate_voice_script_ok h data key model w s w' :
  generate_voice_script h data key model w = (Ok s, w') ->
  exists k m r c,
    key = Some k /\ k <> [] /\ model = Some m /\ m <> [] /\
    chat_completions_create (openai h) (narration_request m data) = Ok r /\
    first_content empty_script r = Ok c /\ c <> [] /\ s = strip c /\
    w' = sending w [ClientCreated k; ChatRequest (narration_request m data)].
Proof.
  intros Hrun.
  assert (Hkey : exists k, key = Some k /\ k <> []).
  { unfold generate_voice_script in Hrun.
    destruct key as [[|k0 k]|]; try discriminate Hrun.
    eexists. split; [reflexivity|discriminate]. }
  destruct Hkey as (k & -> & Hk).
  assert (Hmodel : exists m, model = Some m /\ m <> []).
  { unfold generate_voice_script in Hrun.
    destruct k as [|k0 k]; [congruence|].
    destruct model as [[|m0 m]|]; try discriminate Hrun.
    eexists. split; [reflexivity|discriminate]. }
  destruct Hmodel as (m & -> & Hm).
  rewrite (generate_voice_script_reaches_service h data k m w Hk Hm) in Hrun.
  destruct (chat_completions_create (openai h) (narration_request m data))
    as [r|e] eqn:Hr; [|discriminate].
  destruct (first_content empty_script r) as [c|e] eqn:Hc; [|discriminate].
  inversion Hrun; subst s w'; clear Hrun.
  exists k, m, r, c. repeat split; auto.
  unfold first_content in Hc.
  destruct (choices r) as [[|first rest]|]; try discriminate.
  destruct (message_of first) as [msg|]; [|discriminate].
  destruct (content msg) as [[|c0 c']|]; try discriminate.
  inversion Hc. discriminate.
Qed.

(** X9. The text [generate_voice_script] returns is the first content of
    the answer with the white space at its two ends removed: it neither
    begins nor ends with white space. To get it, one client was created
    and one chat request sent, whose user message is the pretty text of
    the record; the files are untouched. *)
Theorem voice_script_is_stripped
    (h : host) (data : value) (key model : option pystr) (w w' : world)
    (s : pystr) :
  generate_voice_script h data key model w = (Ok s, w') ->
  let request := narration_request (default [] model) data in
  (exists r c,
      chat_completions_create (openai h) request = Ok r /\
      first_content empty_script r = Ok c /\ c <> [] /\ s = strip c) /\
  w' = sending w [ClientCreated (default [] key); ChatRequest request] /\
  content_of (List.last (messages request) (mk_message [] (Text [])))
  = Text (py "Данные о марке:" ++ [10] ++ pretty 0 data) /\
  (forall a t, s = a :: t -> isspace a = false) /\
  (forall t a, s = t ++ [a] -> isspace a = false).
Proof.
  intros Hrun request.
  destruct (generate_voice_script_ok h data key model w s w' Hrun)
    as (k & m & r & c & -> & Hk & -> & Hm & Hr & Hc & Hne & -> & ->).
  cbn [default from_option id] in *.
  destruct (strip_split c) as (p & q & _ & _ & _ & Hhead & Hlast).
  split; [|split; [reflexivity|split; [|split; assumption]]].
  - exists r, c. auto.
  - cbn [request narration_request messages List.last content_of].
    rewrite dumps_pretty. reflexivity.
Qed.

(** X10. The emptiness of the answer is tested before it is stripped: an
    answer made of white space only is accepted, and the text returned
    for it is empty. *)
Theorem blank_answer_gives_an_empty_script
    (h : host) (data : value) (key model : pystr) (w : world)
    (r : completion) (c : pystr) :
  key <> [] -> model <> [] ->
  chat_completions_create (openai h) (narration_request model data) = Ok r ->
  first_content empty_script r = Ok c ->
  blank c ->
  generate_voice_script h data (Some key) (Some model) w
  = (Ok [],
     sending w [ClientCreated key;
                ChatRequest (narration_request model data)]).
Proof.
  intros Hk Hm Hr Hc Hblank.
  rewrite (generate_voice_script_reaches_service h data key model w Hk Hm).
  rewrite Hr, Hc, (strip_blank c Hblank). reflexivity.
Qed.

End VoiceScript.

Section VoiceScriptEvaluated.
Import Json JsonToVoice AnalyzeStamp Samples.
#[local] Existing Instance TextRuntime.runtime.

Lemma voice_script_is_stripped_witness :
  generate_voice_script (narrator None) PyNone
    (Some (py "sk-test")) (Some (py "gpt-4.1")) fresh
  = (Ok (py "Bonjour !"),
     sending fresh
       [ClientCreated (py "sk-test");
        ChatRequest (narration_request (py "gpt-4.1") PyNone)]) /\
  isspace 66 = false /\ isspace 33 = false.
Proof.
  assert (Hrun : generate_voice_script (narrator None) PyNone
                   (Some (py "sk-test")) (Some (py "gpt-4.1")) fresh
                 = (Ok (py "Bonjour !"),
                    sending fresh
                      [ClientCreated (py "sk-test");
                       ChatRequest (narration_request (py "gpt-4.1") PyNone)]))
    by (vm_compute; reflexivity).
  split; [exact Hrun|].
  destruct (voice_script_is_stripped _ _ _ _ _ _ _ Hrun)
    as (_ & _ & _ & Hhead & Hlast).
  split.
  - apply (Hhead 66 (py "onjour !")). reflexivity.
  - apply (Hlast (py "Bonjour ") 33). reflexivity.
Defined.

Lemma blank_answer_gives_an_empty_script_witness :
  let h := mk_host configured (stub [32; 10] [1]) in
  generate_voice_script h PyNone (Some (py "sk-test")) (Some (py "gpt-4.1"))
    fresh
  = (Ok [],
     sending fresh
       [ClientCreated (py "sk-test");
        ChatRequest (narration_request (py "gpt-4.1") PyNone)]).
Proof.
  intros h.
  apply (blank_answer_gives_an_empty_script h PyNone (py "sk-test")
           (py "gpt-4.1") fresh (answer [32; 10]) [32; 10]).
  - vm_compute. discriminate.
  - vm_compute. discriminate.
  - reflexivity.
  - reflexivity.
  - repeat constructor.
Defined.

End VoiceScriptEvaluated.

(** ** The synthesis *)

Section Audio.
Context {RT : Runtime}.
Import Json JsonToVoice AnalyzeStamp.

(** X11. [generate_audio] checks the key, the model and the voice, in this
    order, before it creates a client: a missing one raises its own
    configuration error and the world is left as it was. When it
    returns, the audio is not empty, exactly one client was created and
    one speech request sent, with the script as input, and nothing else
    changed. *)
Theorem generate_audio_checks_then_asks
    (h : host) (script : pystr) (key : option pystr)
    (tts_model tts_voice tts_format : pystr) (w : world) :
  let run := generate_audio h script key tts_model tts_voice tts_format w in
  (truthy key = false -> run = (Raise (mk_exn ValueError no_api_key), w)) /\
  (truthy key = true -> tts_model = [] ->
   run = (Raise (mk_exn ValueError no_tts_model), w)) /\
  (truthy key = true -> tts_model <> [] -> tts_voice = [] ->
   run = (Raise (mk_exn ValueError no_tts_voice), w)) /\
  (forall audio w',
      run = (Ok audio, w') ->
      audio <> [] /\
      w' = sending w
             [ClientCreated (default [] key);
              SpeechRequest (mk_speech tts_model tts_voice script tts_format)]
      /\
      exists r,
        audio_speech_create (openai h)
          (mk_speech tts_model tts_voice script tts_format) = Ok r /\
        audio_content r = Some audio).
Proof.
  intros run. unfold run, generate_audio.
  destruct (truthy key) eqn:Hk; cbn [negb].
  - split; [discriminate|].
    destruct tts_model as [|m0 m]; cbn [truthy negb].
    + split; [reflexivity|]. split; [congruence|]. discriminate.
    + split; [discriminate|].
      destruct tts_voice as [|v0 v]; cbn [truthy negb].
      * split; [reflexivity|]. discriminate.
      * split; [discriminate|]. intros audio w' Hrun.
        rewrite bind_eq in Hrun. unfold OpenAI, emit in Hrun.
        rewrite bind_eq in Hrun. unfold speech_create in Hrun.
        rewrite bind_eq in Hrun. unfold emit, lift in Hrun.
        cbn [files network stdout stderr] in Hrun.
        destruct (audio_speech_create (openai h) _) as [r|e] eqn:Hr;
          [|discriminate].
        destruct (audio_content r) as [[|b d]|] eqn:Ha; try discriminate.
        inversion Hrun; subst audio w'; clear Hrun.
        split; [discriminate|]. split.
        -- unfold sending. rewrite <- app_assoc. reflexivity.
        -- exists r. auto.
  - split; [reflexivity|]. repeat split; discriminate.
Qed.

End Audio.

(** ** The narration tool as a whole *)

Section Narration.
Context {RT : Runtime}.
Import Json JsonToVoice AnalyzeStamp.

(** X12. The settings of the synthesis are looked at only when the
    synthesis starts. With [OPENAI_TTS_MODEL] (or, the model being fine,
    [OPENAI_TTS_VOICE]) set to the empty string, [json_to_voice] still
    loads the record and has the narration written by the chat service,
    and only then raises the configuration error; no file is written. *)
Theorem empty_tts_setting_is_found_late
    (h : host) (json_path output_dir : pystr) (w w1 : world)
    (data : value) (script : pystr) :
  load_json_result json_path w = (Ok data, w) ->
  generate_voice_script h data (getenv h (py "OPENAI_API_KEY"))
    (getenv h (py "OPENAI_MODEL")) w = (Ok script, w1) ->
  (exists request, In (ChatRequest request) (network w1)) /\
  files w1 = files w /\
  (getenv h (py "OPENAI_TTS_MODEL") = Some [] ->
   json_to_voice h json_path output_dir w
   = (Raise (mk_exn ValueError no_tts_model), w1)) /\
  (getenv h (py "OPENAI_TTS_MODEL") <> Some [] ->
   getenv h (py "OPENAI_TTS_VOICE") = Some [] ->
   json_to_voice h json_path output_dir w
   = (Raise (mk_exn ValueError no_tts_voice), w1)).
Proof.
  intros Hload Hgen.
  destruct (generate_voice_script_ok h data _ _ w script w1 Hgen)
    as (k & m & r & c & Hk & Hkne & Hm & Hmne & _ & _ & _ & _ & Hw1).
  split; [|split].
  - eexists. rewrite Hw1. cbn [sending network].
    apply in_or_app. right. right. left. reflexivity.
  - rewrite Hw1. reflexivity.
  - assert (Hrun : forall tts_model tts_voice,
               getenv_default h (py "OPENAI_TTS_MODEL") (py "tts-1") = tts_model ->
               getenv_default h (py "OPENAI_TTS_VOICE") (py "alloy") = tts_voice ->
               forall e,
                 (forall fmt, generate_audio h script (Some k) tts_model
                                tts_voice fmt w1 = (Raise e, w1)) ->
                 json_to_voice h json_path output_dir w = (Raise e, w1)).
    { intros tts_model tts_voice Hmodel Hvoice e Hraise.
      unfold json_to_voice. rewrite Hk, Hm in *.
      destruct k as [|k0 k']; [congruence|].
      destruct m as [|m0 m']; [congruence|].
      cbn [truthy negb]. rewrite bind_eq, Hload, bind_eq, Hgen, bind_eq.
      rewrite Hmodel, Hvoice, Hraise. reflexivity. }
    split.
    + intros Hempty. eapply Hrun; [reflexivity|reflexivity|].
      intros fmt. unfold getenv_default. unfold getenv in Hempty.
      rewrite Hempty. cbn [default from_option id].
      unfold generate_audio.
      destruct k as [|k0 k']; [congruence|]. reflexivity.
    + intros Hmodel Hempty. eapply Hrun; [reflexivity|reflexivity|].
      intros fmt. unfold getenv_default at 2. unfold getenv in Hempty.
      rewrite Hempty. cbn [default from_option id].
      unfold generate_audio.
      destruct k as [|k0 k']; [congruence|]. cbn [truthy negb].
      unfold getenv_default, getenv in *.
      destruct (environ h !! py "OPENAI_TTS_MODEL") as [[|t0 t]|];
        [congruence|reflexivity|reflexivity].
Qed.

Lemma load_json_result_world json_path w :
  snd (load_json_result json_path w) = w.
Proof.
  unfold load_json_result. rewrite bind_eq. unfold os_path_exists.
  destruct (negb (exists_ (files w) json_path)); [reflexivity|].
  rewrite bind_eq. unfold open_r_read. rewrite bind_eq. unfold open_rb_read.
  destruct (read_bytes (files w) json_path) as [d|e]; [|reflexivity].
  destruct (utf8_decode d); reflexivity.
Qed.

(** X13. The command-line tool has no clause of its own for a record it
    cannot read: a JSON file that is not UTF-8 or not JSON raises an
    error that is a [ValueError], so the tool reports it under the label
    of a configuration error, exits with status 1, and has sent and
    written nothing. *)
Theorem unreadable_record_is_called_a_configuration_error
    (h : host) (json_path output_dir : pystr) (w : world) (e : exn) :
  truthy (getenv h (py "OPENAI_API_KEY")) = true ->
  truthy (getenv h (py "OPENAI_MODEL")) = true ->
  fst (load_json_result json_path w) = Raise e ->
  cls e = JSONDecodeError \/ cls e = UnicodeDecodeError ->
  JsonToVoice.main h json_path output_dir w
  = (1, complaining w [py "Ошибка конфигурации: " ++ str_of e]).
Proof.
  intros Hk Hm Hload Hcls.
  assert (Hrun : load_json_result json_path w = (Raise e, w)).
  { pose proof (load_json_result_world json_path w) as Hw.
    destruct (load_json_result json_path w) as [r w0].
    cbn [fst snd] in *. congruence. }
  unfold JsonToVoice.main. rewrite bind_eq.
  unfold json_to_voice. rewrite Hk, Hm. cbn [negb].
  rewrite bind_eq, Hrun.
  assert (Hnf : isinstance e FileNotFoundError = false)
    by (unfold isinstance; destruct Hcls as [-> | ->]; reflexivity).
  assert (Hv : isinstance e ValueError = true)
    by (unfold isinstance; destruct Hcls as [-> | ->]; reflexivity).
  rewrite Hnf, Hv. reflexivity.
Qed.

End Narration.

Section NarrationEvaluated.
Import Json JsonToVoice AnalyzeStamp Samples.
#[local] Existing Instance TextRuntime.runtime.

Lemma empty_tts_setting_is_found_late_witness :
  let h := mk_host (<[py "OPENAI_TTS_MODEL" := []]> configured)
             (stub (py "Bonjour") [1]) in
  let asked := sending analysed
                 [ClientCreated (py "sk-test");
                  ChatRequest (narration_request (py "gpt-4.1") (PyDict []))] in
  json_to_voice h (py "output/result.json") (py "output") analysed
  = (Raise (mk_exn ValueError no_tts_model), asked).
Proof.
  intros h asked.
  destruct (empty_tts_setting_is_found_late h (py "output/result.json")
              (py "output") analysed asked (PyDict []) (py "Bonjour"))
    as (_ & _ & Hmodel & _).
  - vm_compute. reflexivity.
  - vm_compute. reflexivity.
  - apply Hmodel. reflexivity.
Defined.

Lemma unreadable_record_is_called_a_configuration_error_witness :
  let w := mk_world
             (mk_fs (<[[py "home"; py "broken.json"] := File (octets "{")]>
                       (nodes disk)) [py "home"]) [] [] [] in
  JsonToVoice.main ready (py "broken.json") (py "output") w
  = (1, complaining w
          [py "Ошибка конфигурации: Expecting property name enclosed in double quotes: line 1 column 2 (char 1)"]).
Proof.
  intros w.
  apply (unreadable_record_is_called_a_configuration_error ready
           (py "broken.json") (py "output") w
           (mk_exn JSONDecodeError
              (py "Expecting property name enclosed in double quotes: line 1 column 2 (char 1)"))).
  - reflexivity.
  - reflexivity.
  - vm_compute. reflexivity.
  - left. reflexivity.
Defined.

End NarrationEvaluated.

(** ** The image, encoded *)

Section Base64Facts.

(** Induction three octets at a time, as [b64encode] goes. *)
Lemma by_threes (P : bytes -> Prop) :
  P [] -> (forall a, P [a]) -> (forall a b, P [a; b]) ->
  (forall a b c r, P r -> P (a :: b :: c :: r)) ->
  forall d, P d.
Proof.
  intros H0 H1 H2 H3 d.
  assert (H : P d /\ (forall a, P (a :: d)) /\ (forall a b, P (a :: b :: d))).
  { induction d as [|c d (IH0 & IH1 & IH2)]; [auto|].
    split; [apply IH1|]. split; [intros a; apply IH2|].
    intros a b. apply H3, IH0. }
  apply H.
Qed.

Lemma b64_char_symbol n : 0 <= n < 64 -> b64_symbol (b64_char n) = true.
Proof.
  intros H. destruct n as [|p|p]; [reflexivity| |lia].
  do 6 (try destruct p as [p|p|]); try lia; reflexivity.
Qed.

Lemma b64_char_injective n m :
  0 <= n < 64 -> 0 <= m < 64 -> b64_char n = b64_char m -> n = m.
Proof.
  intros Hn Hm. unfold b64_char.
  change (chr "+") with 43. change (chr "/") with 47.
  destruct (Z.ltb_spec n 26), (Z.ltb_spec n 52), (Z.ltb_spec n 62),
    (Z.eqb_spec n 62), (Z.ltb_spec m 26), (Z.ltb_spec m 52),
    (Z.ltb_spec m 62), (Z.eqb_spec m 62); lia.
Qed.

Lemma b64_char_not_padding n : 0 <= n < 64 -> b64_char n <> 61.
Proof.
  intros Hn. unfold b64_char.
  change (chr "+") with 43. change (chr "/") with 47.
  destruct (Z.ltb_spec n 26), (Z.ltb_spec n 52), (Z.ltb_spec n 62),
    (Z.eqb_spec n 62); lia.
Qed.

Lemma sextets a b c :
  octet a -> octet b -> octet c ->
  0 <= a / 4 < 64 /\ 0 <= a mod 4 * 16 + b / 16 < 64 /\
  0 <= b mod 16 * 4 + c / 64 < 64 /\ 0 <= c mod 64 < 64 /\
  0 <= a mod 4 * 16 < 64 /\ 0 <= b mod 16 * 4 < 64.
Proof.
  unfold octet. intros Ha Hb Hc.
  pose proof (Z.div_mod a 4). pose proof (Z.mod_pos_bound a 4).
  pose proof (Z.div_mod b 16). pose proof (Z.mod_pos_bound b 16).
  pose proof (Z.div_mod c 64). pose proof (Z.mod_pos_bound c 64).
  lia.
Qed.

Lemma b64encode_step a b c r :
  b64encode (a :: b :: c :: r)
  = b64_char (a / 4) :: b64_char (a mod 4 * 16 + b / 16)
    :: b64_char (b mod 16 * 4 + c / 64) :: b64_char (c mod 64)
    :: b64encode r.
Proof. reflexivity. Qed.

(** X14. The Base64 text of [n] octets has [4 * ceil(n / 3)] characters,
    each a letter, a digit, [+], [/] or the padding [=]: it is ASCII, so
    that decoding it as UTF-8 in [encode_image] cannot fail. *)
Theorem b64encode_shape (d : bytes) :
  Forall octet d ->
  length (b64encode d) = (4 * ((length d + 2) / 3))%nat /\
  Forall (fun c => b64_symbol c = true \/ c = 61) (b64encode d).
Proof.
  induction d as [ | a | a b | a b c r IH ] using by_threes; intros Hd.
  - split; [reflexivity|constructor].
  - apply Forall_cons in Hd as [Ha _].
    destruct (sextets a 0 0 Ha) as (H1 & _ & _ & _ & H2 & _);
      [unfold octet; lia..|].
    split; [reflexivity|]. cbn [b64encode].
    repeat (constructor;
            [first [left; apply b64_char_symbol; assumption
                   |right; reflexivity]|]).
    constructor.
  - apply Forall_cons in Hd as [Ha Hd]. apply Forall_cons in Hd as [Hb _].
    destruct (sextets a b 0 Ha Hb) as (H1 & H2 & _ & _ & _ & H3);
      [unfold octet; lia|].
    split; [reflexivity|]. cbn [b64encode].
    repeat (constructor;
            [first [left; apply b64_char_symbol; assumption
                   |right; reflexivity]|]).
    constructor.
  - apply Forall_cons in Hd as [Ha Hd]. apply Forall_cons in Hd as [Hb Hd].
    apply Forall_cons in Hd as [Hc Hd].
    destruct (sextets a b c Ha Hb Hc) as (H1 & H2 & H3 & H4 & _).
    destruct (IH Hd) as [Hlen Hall]. rewrite b64encode_step. split.
    + cbn [length]. rewrite Hlen.
      replace (S (S (S (length r))) + 2)%nat with (length r + 2 + 1 * 3)%nat
        by lia.
      rewrite Nat.div_add by lia. lia.
    + repeat (constructor; [left; apply b64_char_symbol; assumption|]).
      exact Hall.
Qed.

(** X15. Base64 loses nothing: two sequences of octets with the same
    encoding are the same sequence, so the request carries the image
    whole. *)
Theorem b64encode_injective (d d' : bytes) :
  Forall octet d -> Forall octet d' ->
  b64encode d = b64encode d' -> d = d'.
Proof.
  revert d'.
  induction d as [ | a | a b | a b c r IH ] using by_threes;
    intros d' Hd Hd' E.
  - destruct d' as [|a' [|b' [|c' r']]]; [reflexivity|discriminate..].
  - apply Forall_cons in Hd as [Ha _].
    destruct d' as [|a' [|b' [|c' r']]]; try discriminate.
    + apply Forall_cons in Hd' as [Ha' _].
      destruct (sextets a 0 0 Ha) as (H1 & _ & _ & _ & H2 & _);
        [unfold octet; lia..|].
      destruct (sextets a' 0 0 Ha') as (H1' & _ & _ & _ & H2' & _);
        [unfold octet; lia..|].
      cbn [b64encode] in E. injection E as E1 E2.
      apply b64_char_injective in E1, E2; auto.
      f_equal. pose proof (Z.div_mod a 4). pose proof (Z.div_mod a' 4). lia.
    + apply Forall_cons in Hd' as [Ha' Hd']. apply Forall_cons in Hd' as [Hb' _].
      destruct (sextets a' b' 0 Ha' Hb') as (_ & _ & _ & _ & _ & H3);
        [unfold octet; lia|].
      cbn [b64encode] in E. injection E as _ _ E3.
      symmetry in E3. apply b64_char_not_padding in E3; [contradiction|exact H3].
    + apply Forall_cons in Hd' as [Ha' Hd']. apply Forall_cons in Hd' as [Hb' Hd'].
      apply Forall_cons in Hd' as [Hc' _].
      destruct (sextets a' b' c' Ha' Hb' Hc') as (_ & _ & H3 & _).
      rewrite b64encode_step in E. cbn [b64encode] in E.
      injection E as _ _ E3 _.
      symmetry in E3. apply b64_char_not_padding in E3; [contradiction|exact H3].
  - apply Forall_cons in Hd as [Ha Hd]. apply Forall_cons in Hd as [Hb _].
    destruct (sextets a b 0 Ha Hb) as (H1 & H2 & _ & _ & _ & H3);
      [unfold octet; lia|].
    destruct d' as [|a' [|b' [|c' r']]]; try discriminate.
    + cbn [b64encode] in E. injection E as _ _ E3.
      apply b64_char_not_padding in E3; [contradiction|exact H3].
    + apply Forall_cons in Hd' as [Ha' Hd']. apply Forall_cons in Hd' as [Hb' _].
      destruct (sextets a' b' 0 Ha' Hb') as (H1' & H2' & _ & _ & _ & H3');
        [unfold octet; lia|].
      cbn [b64encode] in E. injection E as E1 E2 E3.
      apply b64_char_injective in E1, E2, E3; auto.
      pose proof (Z.div_mod a 4). pose proof (Z.div_mod a' 4).
      pose proof (Z.div_mod b 16). pose proof (Z.div_mod b' 16).
      pose proof (Z.mod_pos_bound a 4). pose proof (Z.mod_pos_bound a' 4).
      pose proof (Z.mod_pos_bound b 16). pose proof (Z.mod_pos_bound b' 16).
      unfold octet in *.
      assert (a = a') by lia. assert (b = b') by lia. congruence.
    + apply Forall_cons in Hd' as [Ha' Hd']. apply Forall_cons in Hd' as [Hb' Hd'].
      apply Forall_cons in Hd' as [Hc' _].
      destruct (sextets a' b' c' Ha' Hb' Hc') as (_ & _ & _ & H4 & _).
      rewrite b64encode_step in E. cbn [b64encode] in E.
      injection E as _ _ _ E4 _.
      symmetry in E4. apply b64_char_not_padding in E4; [contradiction|exact H4].
  - apply Forall_cons in Hd as [Ha Hd]. apply Forall_cons in Hd as [Hb Hd].
    apply Forall_cons in Hd as [Hc Hd].
    destruct (sextets a b c Ha Hb Hc) as (H1 & H2 & H3 & H4 & _).
    rewrite b64encode_step in E.
    destruct d' as [|a' [|b' [|c' r']]]; try discriminate.
    + cbn [b64encode] in E. injection E as _ _ E3 _.
      apply b64_char_not_padding in E3; [contradiction|exact H3].
    + cbn [b64encode] in E. injection E as _ _ _ E4 _.
      apply b64_char_not_padding in E4; [contradiction|exact H4].
    + apply Forall_cons in Hd' as [Ha' Hd']. apply Forall_cons in Hd' as [Hb' Hd'].
      apply Forall_cons in Hd' as [Hc' Hd'].
      destruct (sextets a' b' c' Ha' Hb' Hc') as (H1' & H2' & H3' & H4' & _).
      rewrite b64encode_step in E. injection E as E1 E2 E3 E4 E5.
      apply b64_char_injective in E1, E2, E3, E4; auto.
      rewrite (IH r' Hd Hd' E5).
      pose proof (Z.div_mod a 4). pose proof (Z.div_mod a' 4).
      pose proof (Z.div_mod b 16). pose proof (Z.div_mod b' 16).
      pose proof (Z.div_mod c 64). pose proof (Z.div_mod c' 64).
      pose proof (Z.mod_pos_bound a 4). pose proof (Z.mod_pos_bound a' 4).
      pose proof (Z.mod_pos_bound b 16). pose proof (Z.mod_pos_bound b' 16).
      pose proof (Z.mod_pos_bound c 64). pose proof (Z.mod_pos_bound c' 64).
      unfold octet in *.
      assert (a = a') by lia. assert (b = b') by lia.
      assert (c = c') by lia. congruence.
Qed.

End Base64Facts.

Section Base64Evaluated.
Import Samples.

Lemma b64encode_shape_witness :
  b64encode [137; 80; 78; 71] = py "iVBORw==" /\
  length (b64encode [137; 80; 78; 71]) = (4 * ((4 + 2) / 3))%nat /\
  Forall (fun c => b64_symbol c = true \/ c = 61) (b64encode [137; 80; 78; 71]).
Proof.
  split; [reflexivity|].
  apply (b64encode_shape [137; 80; 78; 71]).
  repeat constructor; unfold octet; lia.
Defined.

Lemma b64encode_injective_witness :
  b64encode [137; 80] = b64encode [137; 80] /\ [137; 80] = [137; 80].
Proof.
  split; [reflexivity|].
  apply (b64encode_injective [137; 80] [137; 80]);
    [repeat constructor; unfold octet; lia..|reflexivity].
Defined.

End Base64Evaluated.

(** ** The analysis and the exit status *)

Section Analysis.
Context {RT : Runtime}.
Import Json JsonToVoice AnalyzeStamp.

(** X16. The existence check of [analyze_stamp] lets a directory through:
    for a path that names a directory the failure comes from
    [encode_image], as [IsADirectoryError], before any client is
    created; it is neither a missing file nor a configuration error, so
    [main] reports it as an unexpected error and exits with status 1. *)
Theorem a_directory_passes_the_existence_check
    (h : host) (image_path : pystr) (tts : bool) (w : world) :
  truthy (getenv h (py "OPENAI_API_KEY")) = true ->
  truthy (getenv h (py "OPENAI_MODEL")) = true ->
  is_dir (files w) image_path = true ->
  exists_ (files w) image_path = true /\
  analyze_stamp h image_path w = (Raise (is_a_directory image_path), w) /\
  (forall d,
      utf8_encode (py "Анализирую изображение: " ++ image_path) = Some d ->
      main h image_path tts w
      = (1, complaining
              (printing w [py "Анализирую изображение: " ++ image_path])
              [py "Неожиданная ошибка: "
               ++ str_of (is_a_directory image_path)])).
Proof.
  intros Hk Hm Hdir.
  assert (Hnode : forall w0, files w0 = files w ->
            exists_ (files w0) image_path = true /\
            read_bytes (files w0) image_path
            = Raise (is_a_directory image_path)).
  { intros w0 ->. unfold is_dir in Hdir. unfold exists_, read_bytes.
    destruct (refuse image_path); [discriminate|].
    destruct (resolve (files w) image_path) as [e|loc]; [discriminate|].
    destruct (node_at (files w) loc) as [[|d]|]; try discriminate. auto. }
  assert (Hrun : forall w0, files w0 = files w ->
            analyze_stamp h image_path w0
            = (Raise (is_a_directory image_path), w0)).
  { intros w0 Hfs. destruct (Hnode w0 Hfs) as [Hex Hread].
    unfold analyze_stamp. rewrite Hk, Hm. cbn [negb].
    rewrite bind_eq. unfold os_path_exists. rewrite Hex. cbn [negb].
    rewrite bind_eq. unfold encode_image. rewrite bind_eq.
    unfold open_rb_read. rewrite Hread. reflexivity. }
  split; [apply (Hnode w eq_refl)|]. split; [apply (Hrun w eq_refl)|].
  intros d Hd. unfold main. rewrite bind_eq, print_eq, Hd.
  rewrite Hrun by reflexivity. reflexivity.
Qed.

(** X17. When [analyze_stamp] returns, what it returns is not empty; it
    has read the image, created one client and sent one request, which
    carries the image as a [data:] URL of the chosen MIME type and the
    Base64 text of the file; files and output streams are untouched. *)
Theorem analyze_stamp_returns_the_answer
    (h : host) (image_path result : pystr) (w w' : world) :
  analyze_stamp h image_path w = (Ok result, w') ->
  result <> [] /\
  exists key model data response,
    getenv h (py "OPENAI_API_KEY") = Some key /\
    getenv h (py "OPENAI_MODEL") = Some model /\
    read_bytes (files w) image_path = Ok data /\
    let request :=
      analysis_request model (mime_type_of image_path) (b64encode data) in
    chat_completions_create (openai h) request = Ok response /\
    first_content empty_answer response = Ok result /\
    w' = sending w [ClientCreated key; ChatRequest request] /\
    content_of (List.last (messages request) (mk_message [] (Text [])))
    = TextAndImage
        (py "Проанализируй это изображение почтовой марки и верни результат в формате JSON.")
        (py "data:" ++ mime_type_of image_path ++ py ";base64,"
         ++ b64encode data).
Proof.
  intros Hrun.
  assert (Hkey : exists k, getenv h (py "OPENAI_API_KEY") = Some k /\ k <> []).
  { unfold analyze_stamp in Hrun.
    destruct (getenv h (py "OPENAI_API_KEY")) as [[|k0 k]|];
      try discriminate Hrun.
    eexists. split; [reflexivity|discriminate]. }
  destruct Hkey as (key & Hk & Hkne).
  assert (Hmodel : exists m, getenv h (py "OPENAI_MODEL") = Some m /\ m <> []).
  { unfold analyze_stamp in Hrun. rewrite Hk in Hrun.
    destruct key as [|k0 k]; [congruence|].
    destruct (getenv h (py "OPENAI_MODEL")) as [[|m0 m]|];
      try discriminate Hrun.
    eexists. split; [reflexivity|discriminate]. }
  destruct Hmodel as (model & Hm & Hmne).
  assert (Hread : exists data, read_bytes (files w) image_path = Ok data).
  { unfold analyze_stamp in Hrun. rewrite Hk, Hm in Hrun.
    destruct key as [|k0 k]; [congruence|].
    destruct model as [|m0 m]; [congruence|].
    cbn [truthy negb] in Hrun. rewrite bind_eq in Hrun.
    unfold os_path_exists in Hrun.
    destruct (negb (exists_ (files w) image_path)); [discriminate|].
    rewrite bind_eq in Hrun. unfold encode_image in Hrun.
    rewrite bind_eq in Hrun. unfold open_rb_read in Hrun.
    destruct (read_bytes (files w) image_path) as [data|e];
      [eauto|discriminate]. }
  destruct Hread as (data & Hread).
  rewrite (analyze_stamp_reaches_service h image_path w key model data
             Hk Hkne Hm Hmne Hread) in Hrun.
  destruct (chat_completions_create (openai h) _) as [response|e] eqn:Hr;
    [|discriminate].
  inversion Hrun as [[Hc Hw]]; clear Hrun.
  split.
  - unfold first_content in Hc.
    destruct (choices response) as [[|first rest]|]; try discriminate.
    destruct (message_of first) as [m|]; [|discriminate].
    destruct (content m) as [[|c0 c]|]; try discriminate.
    inversion Hc. discriminate.
  - exists key, model, data, response. cbn zeta. repeat split; auto.
Qed.

(** The [--tts] branch never raises: what goes wrong in it is printed as
    a warning. *)
Lemma narrate_returns h w : exists w', narrate h w = (Ok tt, w').
Proof.
  unfold narrate, try_except.
  destruct (narrate_body h w) as [[[]|e] w1]; [eauto|].
  rewrite every_class_is_an_exception. unfold eprint. eauto.
Qed.

(** X18. Once the command line has been parsed into [image_path] and
    [--tts], the [try] statement that is the rest of [main] ends the
    process with status 0 or 1, and with 0 exactly when the
    announcement, the analysis and the saving of the record all
    succeeded: with or without [--tts], nothing that happens in the
    narration changes the status. (What [parse_args] itself does with a
    command line it refuses, or with [--help], comes before and is not
    part of this.) *)
Theorem main_exit_status
    (h : host) (image_path : pystr) (tts : bool) (w : world) :
  (fst (main h image_path tts w) = 0 \/ fst (main h image_path tts w) = 1) /\
  (fst (main h image_path tts w) = 0 <->
   exists result w1 v w2,
     (do! print (py "Анализирую изображение: " ++ image_path) in
      analyze_stamp h image_path) w = (Ok result, w1) /\
     persist result w1 = (Ok v, w2)).
Proof.
  unfold main.
  destruct ((do! print (py "Анализирую изображение: " ++ image_path) in
             analyze_stamp h image_path) w) as [[result|e] w1] eqn:Hfirst.
  - rewrite bind_eq.
    destruct (persist result w1) as [[v|e] w2] eqn:Hsave.
    + assert (Hok : exists w3,
                 (if tts then narrate h else ret tt) w2 = (Ok tt, w3)).
      { destruct tts; [apply narrate_returns|]. eexists. reflexivity. }
      destruct Hok as [w3 ->]. cbn [fst]. split; [left; reflexivity|].
      split; [|reflexivity]. intros _. exists result, w1, v, w2. auto.
    + pose proof (handlers_exit_1 (Some result) e w2) as H1.
      destruct (handlers (Some result) e w2) as [r w3]. cbn [fst] in *.
      subst r. cbn [fst]. split; [right; reflexivity|].
      split; [discriminate|]. intros (r' & w1' & v' & w2' & E & Hp).
      inversion E; subst. congruence.
  - pose proof (handlers_exit_1 None e w1) as H1.
    destruct (handlers None e w1) as [r w3]. cbn [fst] in *.
    subst r. cbn [fst]. split; [right; reflexivity|].
    split; [discriminate|]. intros (r' & w1' & v' & w2' & E & _).
    discriminate E.
Qed.

End Analysis.

Section AnalysisEvaluated.
Import Json JsonToVoice AnalyzeStamp Samples.
#[local] Existing Instance TextRuntime.runtime.

Lemma a_directory_passes_the_existence_check_witness :
  is_dir (files fresh) (py "/home") = true /\
  analyze_stamp ready (py "/home") fresh
  = (Raise (mk_exn IsADirectoryError
              (py "[Errno 21] Is a directory: '/home'")), fresh) /\
  fst (main ready (py "/home") false fresh) = 1 /\
  stderr (snd (main ready (py "/home") false fresh))
  = [py "Неожиданная ошибка: [Errno 21] Is a directory: '/home'"].
Proof.
  split; [reflexivity|].
  destruct (a_directory_passes_the_existence_check ready (py "/home") false
              fresh eq_refl eq_refl eq_refl) as (_ & Hrun & Hmain).
  split; [rewrite Hrun; vm_compute; reflexivity|].
  rewrite (Hmain (octets "Анализирую изображение: /home"))
    by (vm_compute; reflexivity).
  split; vm_compute; reflexivity.
Defined.

Lemma analyze_stamp_returns_the_answer_witness :
  let request := analysis_request (py "gpt-4.1") (py "image/png") (py "iVBORw==") in
  analyze_stamp (narrator None) (py "stamp.png") fresh
  = (Ok record_text,
     sending fresh [ClientCreated (py "sk-test"); ChatRequest request]) /\
  record_text <> [].
Proof.
  intros request.
  assert (Hrun : analyze_stamp (narrator None) (py "stamp.png") fresh
                 = (Ok record_text,
                    sending fresh
                      [ClientCreated (py "sk-test"); ChatRequest request]))
    by (vm_compute; reflexivity).
  split; [exact Hrun|].
  apply (analyze_stamp_returns_the_answer _ _ _ _ _ Hrun).
Defined.

End AnalysisEvaluated.

(** ** The files of the narration *)

Section VoiceFiles.
Context {RT : Runtime}.
Import Json JsonToVoice AnalyzeStamp.

(** What a successful [prepare] did: it sent the speech request, whose
    answer is the audio, and wrote nothing. *)
Lemma prepare_ok h json_path w script audio w1 :
  prepare h json_path w = (Ok (script, audio), w1) ->
  let request :=
    mk_speech (getenv_default h (py "OPENAI_TTS_MODEL") (py "tts-1"))
      (getenv_default h (py "OPENAI_TTS_VOICE") (py "alloy")) script
      (getenv_default h (py "OPENAI_TTS_FORMAT") (py "mp3")) in
  files w1 = files w /\
  In (SpeechRequest request) (network w1) /\
  audio <> [] /\
  exists reply,
    audio_speech_create (openai h) request = Ok reply /\
    audio_content reply = Some audio.
Proof.
  intros Hprep request. split.
  - pose proof (keeps_prepare h json_path w) as H.
    rewrite Hprep in H. exact H.
  - unfold prepare in Hprep.
    destruct (negb (truthy (getenv h (py "OPENAI_API_KEY")))); [discriminate|].
    destruct (negb (truthy (getenv h (py "OPENAI_MODEL")))); [discriminate|].
    apply bind_inv_ok in Hprep as (data & wa & _ & Hprep).
    apply bind_inv_ok in Hprep as (script' & wb & _ & Hprep).
    apply bind_inv_ok in Hprep as (audio' & wc & Hgen & Hret).
    unfold ret in Hret. inversion Hret; subst script' audio' wc; clear Hret.
    pose proof Hgen as Hgen'.
    apply generate_audio_ok in Hgen as [(r & Hcall & Hcontent) Hin].
    split; [exact Hin|]. split; [|exists r; auto].
    unfold generate_audio in Hgen'.
    destruct (negb (truthy (getenv h (py "OPENAI_API_KEY")))); [discriminate|].
    destruct (negb (truthy (Some _))); [discriminate|].
    destruct (negb (truthy (Some _))); [discriminate|].
    apply bind_inv_ok in Hgen' as ([] & w2 & _ & Hgen').
    apply bind_inv_ok in Hgen' as (r' & w3 & _ & Hgen').
    destruct (audio_content r') as [[|b d]|]; try discriminate.
    inversion Hgen'. discriminate.
Qed.

(** X19. The output directory is created without its parents, and only
    after the narration and the synthesis: when a parent of the
    directory is missing, [json_to_voice] has already sent its requests
    when it raises [FileNotFoundError]; it has written nothing, and the
    command-line tool reports a missing file and exits with status 1. *)
Theorem output_directory_needs_its_parent
    (h : host) (json_path output_dir script : pystr) (audio : bytes)
    (w w1 : world) :
  let dir := Path_str (Path_of output_dir) in
  prepare h json_path w = (Ok (script, audio), w1) ->
  refuse dir = None ->
  resolve (files w) dir = inl ENOENT ->
  json_to_voice h json_path output_dir w = (Raise (os_error ENOENT dir), w1) /\
  files w1 = files w /\
  (exists r, input r = script /\ In (SpeechRequest r) (network w1)) /\
  JsonToVoice.main h json_path output_dir w
  = (1, complaining w1 [py "Ошибка: " ++ str_of (os_error ENOENT dir)]).
Proof.
  intros dir Hprep Href Hres.
  destruct (prepare_ok h json_path w script audio w1 Hprep)
    as (Hfiles & Hsent & _).
  assert (Hrun : json_to_voice h json_path output_dir w
                 = (Raise (os_error ENOENT dir), w1)).
  { rewrite json_to_voice_stages, bind_eq, Hprep.
    unfold store_voice. rewrite bind_eq. unfold mkdir, mkdir_exist_ok.
    fold dir. rewrite <- Hfiles in Hres. rewrite Href, Hres.
    destruct w1; reflexivity. }
  split; [exact Hrun|]. split; [exact Hfiles|].
  split; [eexists; split; [|exact Hsent]; reflexivity|].
  unfold JsonToVoice.main. rewrite bind_eq, Hrun. reflexivity.
Qed.



End VoiceFiles.

Section VoiceFilesEvaluated.
Import Json JsonToVoice AnalyzeStamp Samples.
#[local] Existing Instance TextRuntime.runtime.

Lemma output_directory_needs_its_parent_witness :
  let w1 := snd (prepare (narrator None) (py "output/result.json") analysed) in
  resolve (files analysed) (py "voice/out") = inl ENOENT /\
  JsonToVoice.main (narrator None) (py "output/result.json") (py "voice/out")
    analysed
  = (1, complaining w1
          [py "Ошибка: [Errno 2] No such file or directory: 'voice/out'"]) /\
  length (network w1) = 4%nat /\ files w1 = files analysed.
Proof.
  intros w1. split; [reflexivity|].
  destruct (output_directory_needs_its_parent (narrator None)
              (py "output/result.json") (py "voice/out") (py "Bonjour !")
              [73; 68; 51] analysed w1)
    as (_ & Hfiles & _ & Hmain).
  - vm_compute. reflexivity.
  - reflexivity.
  - reflexivity.
  - split; [rewrite Hmain; vm_compute; reflexivity|].
    split; [vm_compute; reflexivity|exact Hfiles].
Defined.


End VoiceFilesEvaluated.
